(** * s3-create-locked-objects-parallel.py: a shallow embedding

    The script creates randomly sized text objects in an S3 bucket with
    object lock, in parallel.  This development embeds the script: the
    four functions it defines ([init_s3_client], [validate_date],
    [generate_readable_text], [create_object]) and its body.

    Python values are modelled as follows.
    - [str] is a list of Unicode code points ([pystr]); the character
      predicates of the interpreter ([str.isdigit], the [\d] class of [re],
      the white space [int] strips) are tables over code points, here those
      of Unicode 14.0 as shipped with CPython 3.11.
    - [int] is [Z]; [int(str)] and [str(int)] raise [ValueError] beyond
      4300 digits, as the interpreter does.
    - An exception is a value of [exn]; code that may raise returns a
      [result].
    - The console is a record of the lines still to be read on standard
      input and of the chunks written to standard output; [input] at end of
      input raises [EOFError], as in Python.
    - The remote object store and the random generator are oracles.  *)

From Stdlib Require Import String Ascii ZArith NArith List Bool Lia.
From Stdlib Require Import DecimalString DecimalZ FinFun Permutation.
Import ListNotations.

Local Open Scope Z_scope.

(* ================================================================== *)
(** * Python strings *)

Module Py.

Definition char := N.
Definition pystr := list char.

(** A literal of the source, given in ASCII. *)
Definition lit (s : string) : pystr := map N_of_ascii (list_ascii_of_string s).

Definition nl : pystr := [10%N].
Definition tab : pystr := [9%N].

Definition str_eqb (a b : pystr) : bool :=
  if list_eq_dec N.eq_dec a b then true else false.

(** ** Exceptions and results *)

Inductive exn :=
| ValueError
| IndexError
| EOFError
| SystemExit
| ClientError (code : pystr)      (* botocore ClientError, with response['Error']['Code'] *)
| OtherError (name : pystr)       (* any other class that derives from Exception *)
| BaseOnly (name : pystr).        (* any other class that does not: KeyboardInterrupt,
                                     GeneratorExit, ... *)

(** [isinstance(e, Exception)]: of the classes that derive from
    [BaseException], [SystemExit], [KeyboardInterrupt], [GeneratorExit] and
    the like do not derive from [Exception]. *)
Definition is_exception (e : exn) : bool :=
  match e with
  | SystemExit | BaseOnly _ => false
  | _ => true
  end.

Inductive result (A : Type) :=
| Ok (a : A)
| Raise (e : exn).
Arguments Ok {A} a.
Arguments Raise {A} e.

Definition rbind {A B} (r : result A) (k : A -> result B) : result B :=
  match r with
  | Ok a => k a
  | Raise e => Raise e
  end.

(** ** Character tables (Unicode 14.0) *)

(** Code points of the digit zero of every run of ten decimal digits
    (general category Nd); the nine code points that follow carry the
    values 1 to 9. *)
Definition decimal_zeros : list N :=
  [48; 1632; 1776; 1984; 2406; 2534; 2662; 2790; 2918; 3046; 3174; 3302;
   3430; 3558; 3664; 3792; 3872; 4160; 4240; 6112; 6160; 6470; 6608; 6784;
   6800; 6992; 7088; 7232; 7248; 42528; 43216; 43264; 43472; 43504; 43600;
   44016; 65296; 66720; 68912; 69734; 69872; 69942; 70096; 70384; 70736;
   70864; 71248; 71360; 71472; 71904; 72016; 72784; 73040; 73120; 92768;
   92864; 93008; 120782; 120792; 120802; 120812; 120822; 123200; 123632;
   125264; 130032]%N.

(** [unicodedata.decimal]: the value of a decimal digit. *)
Fixpoint decimal_in (zeros : list N) (c : char) : option Z :=
  match zeros with
  | [] => None
  | z :: rest =>
      if ((z <=? c) && (c <? z + 10))%N then Some (Z.of_N (c - z))
      else decimal_in rest c
  end.

Definition decimal_value (c : char) : option Z := decimal_in decimal_zeros c.

(** [str.isdecimal] on one character; also the class [\d] of [re] on [str]. *)
Definition is_decimal (c : char) : bool :=
  match decimal_value c with Some _ => true | None => false end.

(** Characters with Numeric_Type=Digit that are not decimal: superscripts,
    subscripts, circled digits and the like, as inclusive ranges. *)
Definition digit_only_ranges : list (N * N) :=
  [(178, 179); (185, 185); (4969, 4977); (6618, 6618); (8304, 8304);
   (8308, 8313); (8320, 8329); (9312, 9320); (9332, 9340); (9352, 9360);
   (9450, 9450); (9461, 9469); (9471, 9471); (10102, 10110); (10112, 10120);
   (10122, 10130); (68160, 68163); (69216, 69224); (69714, 69722);
   (127232, 127242)]%N.

Definition in_ranges (rs : list (N * N)) (c : char) : bool :=
  existsb (fun r => ((fst r <=? c) && (c <=? snd r))%N) rs.

(** [str.isdigit] on one character. *)
Definition is_digit_char (c : char) : bool :=
  is_decimal c || in_ranges digit_only_ranges c.

(** White space as [int] sees it: the ASCII white space of the C locale,
    and the Unicode white space above U+007E, which [int] turns into a
    blank before parsing. *)
Definition int_space_ranges : list (N * N) :=
  [(9, 13); (32, 32); (133, 133); (160, 160); (5760, 5760); (8192, 8202);
   (8232, 8233); (8239, 8239); (8287, 8287); (12288, 12288)]%N.

Definition is_int_space (c : char) : bool := in_ranges int_space_ranges c.

(** ** [str.isdigit] *)

(** True when the string is not empty and all its characters are digits. *)
Definition isdigit (s : pystr) : bool :=
  match s with
  | [] => false
  | _ => forallb is_digit_char s
  end.

(** ** [int(str)], base 10 *)

(** [sys.int_info.default_max_str_digits]. *)
Definition max_str_digits : Z := 4300.

Definition underscore : char := 95%N.
Definition plus_sign : char := 43%N.
Definition minus_sign : char := 45%N.

(** The digits of the literal: decimal digits, single underscores between
    them.  [prev_us] tells whether the previous character was an
    underscore; [acc] is the value read so far and [n] the number of digits
    read so far.  Returns the value, the number of digits and what follows
    the digits. *)
Fixpoint int_digits (s : pystr) (prev_us : bool) (acc n : Z)
  : option (Z * Z * pystr) :=
  match s with
  | [] => if prev_us then None else Some (acc, n, [])
  | c :: rest =>
      if (c =? underscore)%N then
        if prev_us then None else int_digits rest true acc n
      else
        match decimal_value c with
        | Some d => int_digits rest false (10 * acc + d) (n + 1)
        | None => if prev_us then None else Some (acc, n, s)
        end
  end.

Fixpoint skip_space (s : pystr) : pystr :=
  match s with
  | c :: rest => if is_int_space c then skip_space rest else s
  | [] => []
  end.

Definition int_of_str (s : pystr) : result Z :=
  let s1 := skip_space s in
  let '(sign, s2) :=
    match s1 with
    | c :: rest =>
        if (c =? plus_sign)%N then (1, rest)
        else if (c =? minus_sign)%N then (-1, rest)
        else (1, s1)
    | [] => (1, s1)
    end in
  match s2 with
  | [] => Raise ValueError
  | c :: _ =>
      if (c =? underscore)%N then Raise ValueError
      else
        match int_digits s2 false 0 0 with
        | None => Raise ValueError
        | Some (v, n, after) =>
            if (n =? 0) then Raise ValueError
            else
              match skip_space after with
              | _ :: _ => Raise ValueError
              | [] =>
                  if (max_str_digits <? n) then Raise ValueError
                  else Ok (sign * v)
              end
        end
  end.

(** ** [str(int)] *)

(** The decimal writing of an integer, with its sign. *)
Definition decimal_text (z : Z) : pystr :=
  lit (NilEmpty.string_of_int (Z.to_int z)).

(** [str(z)], and [z] in an f-string: the decimal writing of [z], and
    [ValueError] when [z] has more than [max_str_digits] digits, the sign
    not counted. *)
Definition str_of_int (z : Z) : result pystr :=
  if max_str_digits <? Z.of_nat (length (decimal_text (Z.abs z)))
  then Raise ValueError
  else Ok (decimal_text z).

(** ** Sequences *)

(** [sep.join(parts)]. *)
Fixpoint join (sep : pystr) (parts : list pystr) : pystr :=
  match parts with
  | [] => []
  | [p] => p
  | p :: rest => p ++ sep ++ join sep rest
  end.

(** [s[:n]]: a negative bound counts from the end. *)
Definition slice_to {A} (l : list A) (n : Z) : list A :=
  if (0 <=? n) then firstn (Z.to_nat n) l
  else firstn (Z.to_nat (Z.of_nat (length l) + n)) l.

(** [l[i]]: a negative index counts from the end; outside
    [-len(l) .. len(l)-1] the access raises [IndexError]. *)
Definition getitem {A} (l : list A) (i : Z) : result A :=
  let len := Z.of_nat (length l) in
  let j := if (i <? 0) then i + len else i in
  if (j <? 0) || (len <=? j) then Raise IndexError
  else
    match nth_error l (Z.to_nat j) with
    | Some a => Ok a
    | None => Raise IndexError
    end.

(** [range(a, b)]. *)
Definition range (a b : Z) : list Z :=
  map (fun k => a + Z.of_nat k) (seq 0%nat (Z.to_nat (b - a))).

End Py.
Import Py.

(* ================================================================== *)
(** * Regular expressions, as [_strptime] uses them *)

Module Re.

(** The fragment of [re] syntax in which [_strptime.TimeRE] writes the
    directives of the format used by the script. *)
Inductive regex :=
| Eps
| Chr (c : char)                 (* a literal character *)
| Rng (lo hi : char)             (* [lo-hi] *)
| Dig                            (* \d *)
| Cat (r1 r2 : regex)
| Alt (r1 r2 : regex)            (* r1|r2 *)
| Grp (name : ascii) (r : regex). (* (?P<name>r) *)

Definition groupdict := list (ascii * pystr).

(** Matching is done under [re.IGNORECASE]: an ASCII letter stands for both
    of its cases.  (No other code point folds to T or to Z, the two letters
    of the format of the script.) *)
Definition swapcase (c : char) : char :=
  if ((65 <=? c) && (c <=? 90))%N then (c + 32)%N
  else if ((97 <=? c) && (c <=? 122))%N then (c - 32)%N
  else c.

Definition chr_matches (c ch : char) : bool :=
  ((ch =? c) || (ch =? swapcase c))%N.

Definition between (lo hi ch : char) : bool := ((lo <=? ch) && (ch <=? hi))%N.

Definition rng_matches (lo hi ch : char) : bool :=
  between lo hi ch || between lo hi (swapcase ch).

(** A backtracking matcher in continuation-passing style: alternatives are
    tried from left to right, and the continuation [k] receives the rest of
    the subject and the groups bound so far.  The first success wins. *)
Fixpoint run {A} (r : regex) (s : pystr) (g : groupdict)
  (k : pystr -> groupdict -> option A) : option A :=
  match r with
  | Eps => k s g
  | Chr c =>
      match s with
      | ch :: s' => if chr_matches c ch then k s' g else None
      | [] => None
      end
  | Rng lo hi =>
      match s with
      | ch :: s' => if rng_matches lo hi ch then k s' g else None
      | [] => None
      end
  | Dig =>
      match s with
      | ch :: s' => if is_decimal ch then k s' g else None
      | [] => None
      end
  | Cat r1 r2 => run r1 s g (fun s' g' => run r2 s' g' k)
  | Alt r1 r2 =>
      match run r1 s g k with
      | Some a => Some a
      | None => run r2 s g k
      end
  | Grp name r1 =>
      run r1 s g
        (fun s' g' =>
           k s' ((name, firstn (length s - length s') s) :: g'))
  end.

(** [regex.match(s)]: the match, if any, anchored at the start of [s];
    returns what is left of [s] after the match, and the group dictionary. *)
Definition re_match (r : regex) (s : pystr) : option (pystr * groupdict) :=
  run r s [] (fun s' g => Some (s', g)).

Fixpoint lookup (g : groupdict) (name : ascii) : option pystr :=
  match g with
  | [] => None
  | (n, v) :: rest => if Ascii.eqb n name then Some v else lookup rest name
  end.

End Re.
Import Re.

(* ================================================================== *)
(** * [datetime.strptime] *)

Module Strptime.

Definition c (a : ascii) : char := N_of_ascii a.
Definition dig19 : regex := Rng (c "1") (c "9").

(** The entries of [TimeRE] for the directives of the format. *)
Definition directive (d : ascii) : option regex :=
  if Ascii.eqb d "Y" then
    (* (?P<Y>\d\d\d\d) *)
    Some (Grp "Y" (Cat Dig (Cat Dig (Cat Dig Dig))))
  else if Ascii.eqb d "m" then
    (* (?P<m>1[0-2]|0[1-9]|[1-9]) *)
    Some (Grp "m" (Alt (Cat (Chr (c "1")) (Rng (c "0") (c "2")))
                  (Alt (Cat (Chr (c "0")) dig19)
                       dig19)))
  else if Ascii.eqb d "d" then
    (* (?P<d>3[0-1]|[1-2]\d|0[1-9]|[1-9]| [1-9]) *)
    Some (Grp "d" (Alt (Cat (Chr (c "3")) (Rng (c "0") (c "1")))
                  (Alt (Cat (Rng (c "1") (c "2")) Dig)
                  (Alt (Cat (Chr (c "0")) dig19)
                  (Alt dig19
                       (Cat (Chr (c " ")) dig19))))))
  else if Ascii.eqb d "H" then
    (* (?P<H>2[0-3]|[0-1]\d|\d) *)
    Some (Grp "H" (Alt (Cat (Chr (c "2")) (Rng (c "0") (c "3")))
                  (Alt (Cat (Rng (c "0") (c "1")) Dig)
                       Dig)))
  else if Ascii.eqb d "M" then
    (* (?P<M>[0-5]\d|\d) *)
    Some (Grp "M" (Alt (Cat (Rng (c "0") (c "5")) Dig) Dig))
  else if Ascii.eqb d "S" then
    (* (?P<S>6[0-1]|[0-5]\d|\d) *)
    Some (Grp "S" (Alt (Cat (Chr (c "6")) (Rng (c "0") (c "1")))
                  (Alt (Cat (Rng (c "0") (c "5")) Dig)
                       Dig)))
  else None.

Definition is_format_space (a : ascii) : bool :=
  let n := N_of_ascii a in (((9 <=? n) && (n <=? 13)) || (n =? 32))%N.

(** [TimeRE.pattern]: a directive is replaced by its entry, any other
    character stands for itself.  White space in the format, a stray [%]
    and directives other than the six above are outside this model
    ([None]). *)
Fixpoint pattern (format : list ascii) : option regex :=
  match format with
  | [] => Some Eps
  | "%"%char :: d :: rest =>
      match directive d, pattern rest with
      | Some r, Some p => Some (Cat r p)
      | _, _ => None
      end
  | a :: rest =>
      if is_format_space a || Ascii.eqb a "%" then None
      else
        match pattern rest with
        | Some p => Some (Cat (Chr (c a)) p)
        | None => None
        end
  end.

(** ** Dates *)

Definition is_leap (year : Z) : bool :=
  (year mod 4 =? 0) && (negb (year mod 100 =? 0) || (year mod 400 =? 0)).

Definition days_in_month (year month : Z) : Z :=
  if (month =? 2) then (if is_leap year then 29 else 28)
  else if (month =? 4) || (month =? 6) || (month =? 9) || (month =? 11)
       then 30
       else 31.

(** [datetime._check_date_fields]. *)
Definition check_date_fields (year month day : Z) : result unit :=
  if negb ((1 <=? year) && (year <=? 9999)) then Raise ValueError
  else if negb ((1 <=? month) && (month <=? 12)) then Raise ValueError
  else if negb ((1 <=? day) && (day <=? days_in_month year month))
       then Raise ValueError
       else Ok tt.

(** [datetime._check_time_fields], with microsecond 0 and fold 0. *)
Definition check_time_fields (hour minute second : Z) : result unit :=
  if negb ((0 <=? hour) && (hour <=? 23)) then Raise ValueError
  else if negb ((0 <=? minute) && (minute <=? 59)) then Raise ValueError
  else if negb ((0 <=? second) && (second <=? 59)) then Raise ValueError
  else Ok tt.

Record datetime := {
  year : Z; month : Z; day : Z; hour : Z; minute : Z; second : Z
}.

(** The constructor [datetime(year, month, day, hour, minute, second)]. *)
Definition mk_datetime (y mo d h mi s : Z) : result datetime :=
  rbind (check_date_fields y mo d) (fun _ =>
  rbind (check_time_fields h mi s) (fun _ =>
  Ok {| year := y; month := mo; day := d;
        hour := h; minute := mi; second := s |})).

(** The value of a group, or [default] when the format has no such
    directive. *)
Definition field (g : groupdict) (name : ascii) (default : Z) : result Z :=
  match lookup g name with
  | Some text => int_of_str text
  | None => Ok default
  end.

(** [_strptime._strptime], for the directives above: match the whole of
    [data_string], convert the groups, and compute the day of the year,
    which needs a valid date. *)
Definition _strptime (data_string : pystr) (format : string)
  : result (Z * Z * Z * Z * Z * Z) :=
  match pattern (list_ascii_of_string format) with
  | None => Raise (OtherError (lit "unsupported format"))
  | Some format_regex =>
      match re_match format_regex data_string with
      | None => Raise ValueError              (* does not match format *)
      | Some (_ :: _, _) => Raise ValueError  (* unconverted data remains *)
      | Some ([], found_dict) =>
          rbind (field found_dict "Y" 1900) (fun y =>
          rbind (field found_dict "m" 1) (fun mo =>
          rbind (field found_dict "d" 1) (fun d =>
          rbind (field found_dict "H" 0) (fun h =>
          rbind (field found_dict "M" 0) (fun mi =>
          rbind (field found_dict "S" 0) (fun s =>
          rbind (check_date_fields y mo d) (fun _ =>
          Ok (y, mo, d, h, mi, s))))))))
      end
  end.

(** [datetime.strptime]. *)
Definition strptime (data_string : pystr) (format : string) : result datetime :=
  rbind (_strptime data_string format) (fun '(y, mo, d, h, mi, s) =>
  mk_datetime y mo d h mi s).

End Strptime.

(* ================================================================== *)
(** * The functions of the script *)

(** Lines 63-68. *)
Definition validate_date (date_text : pystr) : result bool :=
  match Strptime.strptime date_text "%Y-%m-%dT%H:%M:%SZ" with
  | Ok _ => Ok true
  | Raise ValueError => Ok false
  | Raise e => Raise e
  end.

(* ================================================================== *)
(** * The [random] module *)

Module Random.

(** The generator is an oracle: an unknown sequence of natural numbers,
    read one at a time.  Every sequence of outcomes of the calls below is
    produced by some oracle. *)
Record rng := { draws : nat -> N; pos : nat }.

Definition randbelow (n : N) (g : rng) : N * rng :=
  ((draws g (pos g) mod n)%N, {| draws := draws g; pos := S (pos g) |}).

(** [random.randint(a, b)]: an integer of [a..b], both included. *)
Definition randint (a b : Z) (g : rng) : Z * rng :=
  let (i, g') := randbelow (Z.to_N (b - a + 1)) g in
  (a + Z.of_N i, g').

(** [random.choices(population, k=k)]: [k] draws with replacement. *)
Fixpoint choices (population : list pystr) (k : nat) (g : rng)
  : list pystr * rng :=
  match k with
  | O => ([], g)
  | S k' =>
      let (i, g1) := randbelow (N.of_nat (length population)) g in
      let (rest, g2) := choices population k' g1 in
      (nth (N.to_nat i) population [] :: rest, g2)
  end.

End Random.
Import Random.

(** Lines 70-83. *)
Definition words : list pystr :=
  map lit
    ["Lorem"; "ipsum"; "dolor"; "sit"; "amet"; "consectetur"; "adipiscing"; "elit";
     "sed"; "do"; "eiusmod"; "tempor"; "incididunt"; "ut"; "labore"; "et"; "dolore";
     "magna"; "aliqua"; "ut"; "enim"; "ad"; "minim"; "veniam"; "quis"; "nostrud";
     "exercitation"; "ullamco"; "laboris"; "nisi"; "ut"; "aliquip"; "ex"; "ea";
     "commodo"; "consequat"; "duis"; "aute"; "irure"; "dolor"; "in"; "reprehenderit";
     "in"; "voluptate"; "velit"; "esse"; "cillum"; "dolore"; "eu"; "fugiat"; "nulla";
     "pariatur"; "excepteur"; "sint"; "occaecat"; "cupidatat"; "non"; "proident";
     "sunt"; "in"; "culpa"; "qui"; "officia"; "deserunt"; "mollit"; "anim"; "id"; "est"; "laborum"]%string.

(** The text before truncation (line 81). *)
Definition generated_content (size_kb : Z) (g : rng) : pystr * rng :=
  let (chosen, g') := choices words (Z.to_nat (size_kb * 200)) g in
  (join (lit " ") chosen, g').

Definition generate_readable_text (size_kb : Z) (g : rng) : pystr * rng :=
  let (content, g') := generated_content size_kb g in
  (slice_to content (size_kb * 1024), g').

(* ================================================================== *)
(** * The object store *)

Record bucket := { Name : pystr }.

Record put_object_request := {
  Bucket : pystr;
  Key : pystr;
  Body : pystr;
  ObjectLockMode : pystr;
  ObjectLockRetainUntilDate : pystr
}.

(** The client [s3], as the script uses it.  A response of
    [get_object_lock_configuration] is given by the keys of the dictionary
    returned. *)
Record s3_client := {
  list_buckets : result (list bucket);
  get_object_lock_configuration : pystr -> result (list pystr);
  put_object : put_object_request -> result unit
}.

(** What one call of [create_object] does: the request it sends, whether
    the call returns or raises, and what it writes to standard output. *)
Record task_run := {
  request : put_object_request;
  outcome : result unit;
  printed : list pystr
}.

(** Lines 85-96. *)
Definition create_object (s3 : s3_client)
  (bucket_name object_key retention : pystr) (g : rng) : task_run :=
  let (random_size_kb, g1) := randint 1 1024 g in
  let (content, _) := generate_readable_text random_size_kb g1 in
  let req := {| Bucket := bucket_name;
                Key := object_key;
                Body := content;
                ObjectLockMode := lit "GOVERNANCE";
                ObjectLockRetainUntilDate := retention |} in
  match put_object s3 req with
  | Ok _ => {| request := req; outcome := Ok tt; printed := [lit "."] |}
  | Raise e => {| request := req; outcome := Raise e; printed := [] |}
  end.

(* ================================================================== *)
(** * The console *)

Record console := { stdin : list pystr; stdout : list pystr }.

(** A computation of the script: it may read and write the console, and
    returns or raises. *)
Definition M (A : Type) := console -> result A * console.

Definition ret {A} (a : A) : M A := fun c => (Ok a, c).

Definition bind {A B} (m : M A) (k : A -> M B) : M B :=
  fun c =>
    match m c with
    | (Ok a, c') => k a c'
    | (Raise e, c') => (Raise e, c')
    end.

Definition lift {A} (r : result A) : M A := fun c => (r, c).

Notation "x <- m ;; k" := (bind m (fun x => k))
  (at level 61, m at next level, right associativity).
Notation "' pat <- m ;; k" := (bind m (fun x => match x with pat => k end))
  (at level 61, pat pattern, m at next level, right associativity).
Notation "m ;;; k" := (bind m (fun _ => k))
  (at level 61, right associativity).

Definition write (chunk : pystr) (c : console) : console :=
  {| stdin := stdin c; stdout := stdout c ++ [chunk] |}.

(** [print(text)]. *)
Definition print (text : pystr) : M unit :=
  fun c => (Ok tt, write (text ++ nl) c).

(** [input(prompt)]. *)
Definition input (prompt : pystr) : M pystr :=
  fun c =>
    match stdin c with
    | line :: rest => (Ok line, {| stdin := rest; stdout := stdout c ++ [prompt] |})
    | [] => (Raise EOFError, write prompt c)
    end.

Fixpoint print_each (lines : list pystr) : M unit :=
  match lines with
  | [] => ret tt
  | l :: rest => print l ;;; print_each rest
  end.

(** [while not valid(x): print(complaint); x = input(prompt)], by recursion
    on the lines left on standard input. *)
Fixpoint reprompt (valid : pystr -> result bool) (complaint prompt : pystr)
  (x : pystr) (lines : list pystr) (out : list pystr) : result pystr * console :=
  match valid x with
  | Raise e => (Raise e, {| stdin := lines; stdout := out |})
  | Ok true => (Ok x, {| stdin := lines; stdout := out |})
  | Ok false =>
      let out' := out ++ [complaint ++ nl; prompt] in
      match lines with
      | [] => (Raise EOFError, {| stdin := []; stdout := out' |})
      | line :: rest => reprompt valid complaint prompt line rest out'
      end
  end.

Definition while_invalid (valid : pystr -> result bool)
  (complaint prompt : pystr) (x : pystr) : M pystr :=
  fun c => reprompt valid complaint prompt x (stdin c) (stdout c).

(* ================================================================== *)
(** * The script, lines 98-178 *)

(** Lines 103-112: the buckets that have object lock enabled. *)
Definition not_found_code : pystr := lit "ObjectLockConfigurationNotFoundError".

Fixpoint check_object_lock (s3 : s3_client) (buckets : list bucket)
  (buckets_with_object_lock : list pystr) : result (list pystr) :=
  match buckets with
  | [] => Ok buckets_with_object_lock
  | b :: rest =>
      match get_object_lock_configuration s3 (Name b) with
      | Ok object_lock_config =>
          if existsb (str_eqb (lit "ObjectLockConfiguration")) object_lock_config
          then check_object_lock s3 rest (buckets_with_object_lock ++ [Name b])
          else check_object_lock s3 rest buckets_with_object_lock
      | Raise (ClientError code) =>
          if negb (str_eqb code not_found_code) then Raise (ClientError code)
          else check_object_lock s3 rest buckets_with_object_lock
      | Raise e => Raise e
      end
  end.

(** [enumerate(l)]. *)
Definition enumerate {A} (l : list A) : list (Z * A) :=
  combine (map Z.of_nat (seq 0 (length l))) l.

(** Lines 115-122. *)
Definition show_buckets (buckets : list bucket) : M unit :=
  print (lit "All Existing buckets list:") ;;;
  match buckets with
  | [] =>
      print (tab ++ lit "- None") ;;;
      print (lit "Exiting because no bucket available on the system...") ;;;
      lift (Raise SystemExit)
  | _ => print_each (map (fun b => tab ++ lit "- " ++ Name b) buckets)
  end.

(** Lines 135-140.  The number on a line is a position in a list, and a
    list holds fewer than [2 ^ 63] items: [str] returns its decimal
    writing. *)
Definition show_choices (buckets_with_object_lock : list pystr) : M unit :=
  print (nl ++ lit "List of buckets to create locked objects:") ;;;
  match buckets_with_object_lock with
  | [] => print (tab ++ lit "None")
  | _ =>
      print_each
        (map (fun '(i, bucket_name) =>
                tab ++ lit " " ++ decimal_text (i + 1) ++ lit ". " ++ bucket_name)
             (enumerate buckets_with_object_lock))
  end.

(** Lines 143-145. *)
Definition select_prompt : pystr :=
  nl ++ lit "Enter the number of the bucket with ObjectLock you want to use: ".

Definition select_bucket (buckets_with_object_lock : list pystr) : M pystr :=
  line <- input select_prompt ;;
  n <- lift (int_of_str line) ;;
  let bucket_index := n - 1 in
  bucket_name <- lift (getitem buckets_with_object_lock bucket_index) ;;
  print (lit "Selected bucket: " ++ bucket_name) ;;;
  ret bucket_name.

(** Lines 148-152. *)
Definition retention_prompt : pystr :=
  lit "Specify r" ++ [233%N]
  ++ lit "tention date using ISO 8601 format (Example: 2024-12-31T00:00:00Z): ".

Definition retention_complaint : pystr := lit "Invalid Date Format. Please Retry.".

Definition read_retention : M pystr :=
  retention <- input retention_prompt ;;
  while_invalid validate_date retention_complaint retention_prompt retention.

(** Lines 154-158. *)
Definition number_complaint : pystr := lit "Please enter a valid number.".

Definition num_objects_prompt : pystr := lit "Enter the number of objects to create: ".

Definition read_num_objects : M Z :=
  num_objects <- input num_objects_prompt ;;
  num_objects <- while_invalid (fun s => Ok (isdigit s))
                   number_complaint num_objects_prompt num_objects ;;
  lift (int_of_str num_objects).

(** Line 160. *)
Definition prefix_prompt : pystr :=
  lit "Enter object prefix to be used for this serie of locked objects: ".

(** Lines 162-166. *)
Definition start_index_prompt : pystr :=
  lit "Enter the initial index to use for the objects: ".

Definition start_index_reprompt : pystr :=
  lit "Enter the starting index you want to use o number the objects to be created: ".

Definition read_start_index : M Z :=
  start_index <- input start_index_prompt ;;
  start_index <- while_invalid (fun s => Ok (isdigit s))
                   number_complaint start_index_reprompt start_index ;;
  lift (int_of_str start_index).

(** Lines 148-166: retention, number of objects, prefix, first index. *)
Definition read_parameters : M (pystr * Z * pystr * Z) :=
  retention <- read_retention ;;
  num_objects <- read_num_objects ;;
  prefix <- input prefix_prompt ;;
  start_index <- read_start_index ;;
  ret (retention, num_objects, prefix, start_index).

(** Line 172: the f-string raises what [str] raises. *)
Definition object_key (prefix : pystr) (i : Z) : result pystr :=
  rbind (str_of_int i) (fun index => Ok (prefix ++ index ++ lit ".txt")).

(** Lines 171-173: the arguments of the calls of [executor.submit], in
    order (bucket, key, retention), and how the loop ends.  When line 172
    raises, the calls submitted before stay submitted and the loop is
    left. *)
Fixpoint submit_each (bucket_name retention prefix : pystr) (indices : list Z)
  : list (pystr * pystr * pystr) * result unit :=
  match indices with
  | [] => ([], Ok tt)
  | i :: rest =>
      match object_key prefix i with
      | Raise e => ([], Raise e)
      | Ok key =>
          let (subs, r) := submit_each bucket_name retention prefix rest in
          ((bucket_name, key, retention) :: subs, r)
      end
  end.

Definition submissions (bucket_name retention : pystr) (num_objects : Z)
  (prefix : pystr) (start_index : Z)
  : list (pystr * pystr * pystr) * result unit :=
  submit_each bucket_name retention prefix
    (range start_index (start_index + num_objects)).

(** The pool runs every submitted call; the [n]-th one sees the random
    draws [task_random n]. *)
Fixpoint execute (s3 : s3_client) (task_random : nat -> rng) (n : nat)
  (subs : list (pystr * pystr * pystr)) : list task_run :=
  match subs with
  | [] => []
  | (bucket_name, key, retention) :: rest =>
      create_object s3 bucket_name key retention (task_random n)
      :: execute s3 task_random (S n) rest
  end.

(** [as_completed(futures)]: the futures in the order in which they
    complete, given as the list of their positions in [futures]. *)
Definition as_completed (order : list nat) (futures : list task_run)
  : list task_run :=
  flat_map (fun n => match nth_error futures n with
                     | Some f => [f]
                     | None => []
                     end) order.

(** Lines 175-176: [future.result()] raises what the call raised. *)
Fixpoint wait_results (completed : list task_run) : result unit :=
  match completed with
  | [] => Ok tt
  | future :: rest => rbind (outcome future) (fun _ => wait_results rest)
  end.

(** What the script does not control. *)
Record world := {
  s3 : s3_client;
  task_random : nat -> rng;
  completion_order : list nat
}.

(** The futures of the calls submitted. *)
Definition futures_of (w : world) (bucket_name retention : pystr)
  (num_objects : Z) (prefix : pystr) (start_index : Z) : list task_run :=
  execute (s3 w) (task_random w) 0
    (fst (submissions bucket_name retention num_objects prefix start_index)).

(** Lines 169-176.  Leaving the [with] block waits for every submitted
    call, also when line 172 or [future.result()] has raised: by then each
    call that returned has written its progress mark.  When line 172 has
    raised, the loop of line 175 is not reached and the exception of
    line 172 is the one that leaves the block. *)
Definition create_objects (w : world) (bucket_name retention : pystr)
  (num_objects : Z) (prefix : pystr) (start_index : Z) : M unit :=
  fun c =>
    let submitted :=
      snd (submissions bucket_name retention num_objects prefix start_index) in
    let futures := futures_of w bucket_name retention num_objects prefix start_index in
    let completed := as_completed (completion_order w) futures in
    (rbind submitted (fun _ => wait_results completed),
     {| stdin := stdin c; stdout := stdout c ++ concat (map printed completed) |}).

(** Line 178.  The number of objects is a value of [int] (line 158), of
    at most [max_str_digits] digits: [str] returns its decimal writing. *)
Definition summary (num_objects : Z) (prefix bucket_name : pystr) : pystr :=
  nl ++ decimal_text num_objects ++ lit " locked objects successfully created with prefix '"
  ++ prefix ++ lit "' in bucket '" ++ bucket_name ++ lit "'.".

(** Lines 169-178: the uploads and the summary. *)
Definition upload_and_report (w : world) (bucket_name retention : pystr)
  (num_objects : Z) (prefix : pystr) (start_index : Z) : M unit :=
  create_objects w bucket_name retention num_objects prefix start_index ;;;
  print (summary num_objects prefix bucket_name).

(** Lines 98-178. *)
Definition script (w : world) : M unit :=
  buckets <- lift (list_buckets (s3 w)) ;;
  buckets_with_object_lock <- lift (check_object_lock (s3 w) buckets []) ;;
  show_buckets buckets ;;;
  show_choices buckets_with_object_lock ;;;
  bucket_name <- select_bucket buckets_with_object_lock ;;
  '(retention, num_objects, prefix, start_index) <- read_parameters ;;
  upload_and_report w bucket_name retention num_objects prefix start_index.

(* ================================================================== *)
(** * Vocabulary of the properties *)

(** The strings a regular expression denotes. *)
Fixpoint lang (r : regex) (s : pystr) : Prop :=
  match r with
  | Eps => s = []
  | Chr c => exists ch, s = [ch] /\ chr_matches c ch = true
  | Rng lo hi => exists ch, s = [ch] /\ rng_matches lo hi ch = true
  | Dig => exists ch, s = [ch] /\ is_decimal ch = true
  | Cat r1 r2 => exists s1 s2, s = s1 ++ s2 /\ lang r1 s1 /\ lang r2 s2
  | Alt r1 r2 => lang r1 s \/ lang r2 s
  | Grp _ r1 => lang r1 s
  end.

(** The pattern YYYY-MM-DDTHH:MM:SSZ read strictly, as ISO 8601 has it:
    twenty characters, one of the digits 0 to 9 where the pattern has a
    letter of a field, and the very characters [-], [T], [:], [Z]
    elsewhere. *)
Inductive slot := Digit | Exactly (a : ascii).

Definition is_ascii_digit (ch : char) : bool := ((48 <=? ch) && (ch <=? 57))%N.

Definition iso_slots : list slot :=
  [Digit; Digit; Digit; Digit; Exactly "-"; Digit; Digit; Exactly "-";
   Digit; Digit; Exactly "T"; Digit; Digit; Exactly ":"; Digit; Digit;
   Exactly ":"; Digit; Digit; Exactly "Z"].

Fixpoint fits (p : list slot) (s : pystr) : bool :=
  match p, s with
  | [], [] => true
  | Digit :: p', ch :: s' => is_ascii_digit ch && fits p' s'
  | Exactly a :: p', ch :: s' => (ch =? N_of_ascii a)%N && fits p' s'
  | _, _ => false
  end.

Definition strict_iso (s : pystr) : bool := fits iso_slots s.

(** The form [validate_date] accepts: fields of one or two digits (four
    for the year, and a blank may stand before a one-digit day), and the
    letters T and Z in either case.  A digit is here any decimal digit of
    Unicode (general category Nd), as the class [\d] of [re] has it: the
    digits 0 to 9, and also the full-width digits, the Arabic-Indic digits
    and the like. *)
Definition digits4 (f : pystr) : bool :=
  match f with
  | [a; b; c; d] => is_decimal a && is_decimal b && is_decimal c && is_decimal d
  | _ => false
  end.

Definition digits12 (f : pystr) : bool :=
  match f with
  | [a] => is_decimal a
  | [a; b] => is_decimal a && is_decimal b
  | _ => false
  end.

Definition day_text (f : pystr) : bool :=
  digits12 f ||
  match f with
  | [blank; a] => (blank =? 32)%N && is_decimal a
  | _ => false
  end.

Definition either_case (a : ascii) (ch : char) : Prop :=
  ch = N_of_ascii a \/ ch = swapcase (N_of_ascii a).

Definition lenient_iso (s : pystr) : Prop :=
  exists y mo d h mi sec t z,
    s = y ++ lit "-" ++ mo ++ lit "-" ++ d ++ [t] ++ h ++ lit ":" ++ mi
          ++ lit ":" ++ sec ++ [z]
    /\ digits4 y = true /\ digits12 mo = true /\ day_text d = true
    /\ digits12 h = true /\ digits12 mi = true /\ digits12 sec = true
    /\ either_case "T" t /\ either_case "Z" z.

(** How the query of the lock configuration of a bucket ends. *)
Definition lock_enabled (s3 : s3_client) (b : bucket) : bool :=
  match get_object_lock_configuration s3 (Name b) with
  | Ok config => existsb (str_eqb (lit "ObjectLockConfiguration")) config
  | Raise _ => false
  end.

(** The exception of the query when it is not the client error with code
    ObjectLockConfigurationNotFoundError. *)
Definition lock_query_failure (s3 : s3_client) (b : bucket) : option exn :=
  match get_object_lock_configuration s3 (Name b) with
  | Ok _ => None
  | Raise (ClientError code) =>
      if str_eqb code not_found_code then None else Some (ClientError code)
  | Raise e => Some e
  end.

(** A computation that raises no exception but [ValueError]. *)
Definition raises_only_value_error {A} (r : result A) : Prop :=
  forall e, r = Raise e -> e = ValueError.

Definition succeeded (f : task_run) : bool :=
  match outcome f with
  | Ok _ => true
  | Raise _ => false
  end.

(* ================================================================== *)
(** * Sample worlds *)

Definition zero_rng : rng := {| draws := fun _ => 0%N; pos := 0 |}.

Definition empty_console : console := {| stdin := []; stdout := [] |}.

Definition three_buckets : list bucket :=
  [{| Name := lit "alpha" |}; {| Name := lit "beta" |}; {| Name := lit "gamma" |}].

(** A store where [beta] has no lock configuration and every upload is
    accepted. *)
Definition sample_s3 : s3_client :=
  {| list_buckets := Ok three_buckets;
     get_object_lock_configuration := fun name =>
       if str_eqb name (lit "beta") then Raise (ClientError not_found_code)
       else Ok [lit "ResponseMetadata"; lit "ObjectLockConfiguration"];
     put_object := fun _ => Ok tt |}.

(** A store that denies access to the lock configuration of [beta] and
    refuses every upload. *)
Definition denying_s3 : s3_client :=
  {| list_buckets := Ok three_buckets;
     get_object_lock_configuration := fun name =>
       if str_eqb name (lit "beta") then Raise (ClientError (lit "AccessDenied"))
       else Ok [lit "ResponseMetadata"; lit "ObjectLockConfiguration"];
     put_object := fun _ => Raise (ClientError (lit "AccessDenied")) |}.

Definition sample_world (s : s3_client) (order : list nat) : world :=
  {| s3 := s; task_random := fun _ => zero_rng; completion_order := order |}.

(* ================================================================== *)
(** * The client, lines 17-61 *)

(** [os.environ] once [load_dotenv] has run (line 53): the four variables
    the script reads, each set or not. *)
Record environ := {
  AWS_ENDPOINT_URL : option pystr;
  AWS_ACCESS_KEY_ID : option pystr;
  AWS_SECRET_ACCESS_KEY : option pystr;
  AWS_DEFAULT_REGION : option pystr
}.

(** The keyword arguments of [boto3.client('s3', ...)]. *)
Record client_config := {
  region_name : option pystr;
  endpoint_url : pystr;
  aws_access_key_id : pystr;
  aws_secret_access_key : pystr
}.

(** The library: what [boto3.client] returns or raises for a
    configuration, and [str(e)] for an exception of the library.  An
    exception class of botocore is [OtherError] with the name of the
    class. *)
Record boto3 := {
  client : client_config -> result s3_client;
  exn_text : exn -> pystr
}.

(** [f"{x}"] for a value of [os.getenv]: the string, or [None]. *)
Definition format_getenv (x : option pystr) : pystr :=
  match x with
  | Some s => s
  | None => lit "None"
  end.

(** An exception in flight, with [str(e)]. *)
Inductive thrown := Thrown (e : exn) (text : pystr).

(** Lines 19-40, the body of the [try] up to the probe.  The test
    [isinstance(s3_endpoint, str)] of line 24 is on an f-string, which is
    a [str] whatever the variable holds: it raises nothing. *)
Definition connect (env : environ) (lib : boto3) : thrown + s3_client :=
  let s3_endpoint := lit "http://" ++ format_getenv (AWS_ENDPOINT_URL env) in
  let region := AWS_DEFAULT_REGION env in
  match AWS_ACCESS_KEY_ID env with
  | None => inl (Thrown ValueError (lit "AWS_ACCESS_KEY_ID is not a string"))
  | Some access_key_id =>
      match AWS_SECRET_ACCESS_KEY env with
      | None => inl (Thrown ValueError (lit "AWS_SECRET_ACCESS_KEY is not a string"))
      | Some secret_access_key =>
          match client lib {| region_name := region;
                              endpoint_url := s3_endpoint;
                              aws_access_key_id := access_key_id;
                              aws_secret_access_key := secret_access_key |} with
          | Raise e => inl (Thrown e (exn_text lib e))
          | Ok s3_client =>
              match list_buckets s3_client with
              | Raise e => inl (Thrown e (exn_text lib e))
              | Ok _ => inr s3_client
              end
          end
      end
  end.

Definition is_class (name : string) (e : exn) : bool :=
  match e with
  | OtherError n => str_eqb n (lit name)
  | _ => false
  end.

(** Lines 17-50.  The function returns [None] when a handler has run; an
    exception that is no [Exception] ([SystemExit], [KeyboardInterrupt],
    ...) is caught by no handler and passes through. *)
Definition init_s3_client (env : environ) (lib : boto3) : M (option s3_client) :=
  match connect env lib with
  | inr s3_client =>
      print (tab ++ lit "- S3 connection successful.") ;;;
      ret (Some s3_client)
  | inl (Thrown e text) =>
      if is_class "NoCredentialsError" e || is_class "PartialCredentialsError" e
      then print (lit "Error: AWS credentials are not set or incomplete.") ;;;
           ret None
      else if is_class "EndpointConnectionError" e
      then print (lit "Error: Unable to connect to the specified endpoint URL.") ;;;
           ret None
      else if is_exception e
      then print (lit "An unexpected error occurred: " ++ text) ;;; ret None
      else lift (Raise e)
  end.

(** What the whole script does not control. *)
Record setting := {
  env : environ;
  lib : boto3;
  random_of_task : nat -> rng;
  order_of_completion : list nat
}.


(* ================================================================== *)
(** * More vocabulary *)

(** A timestamp written with zero padding, as in the example of the
    prompt. *)
Definition digit_char (d : Z) : char := Z.to_N (48 + d).

Definition two_digits (n : Z) : pystr :=
  [digit_char (n / 10); digit_char (n mod 10)].

Definition four_digits (n : Z) : pystr :=
  [digit_char (n / 1000); digit_char (n / 100 mod 10);
   digit_char (n / 10 mod 10); digit_char (n mod 10)].

Definition iso_text (dt : Strptime.datetime) : pystr :=
  four_digits (Strptime.year dt) ++ lit "-" ++ two_digits (Strptime.month dt)
  ++ lit "-" ++ two_digits (Strptime.day dt) ++ lit "T"
  ++ two_digits (Strptime.hour dt) ++ lit ":" ++ two_digits (Strptime.minute dt)
  ++ lit ":" ++ two_digits (Strptime.second dt) ++ lit "Z".

(** A date of the calendar of [datetime], with a time of the day. *)
Definition valid_datetime (dt : Strptime.datetime) : Prop :=
  1 <= Strptime.year dt <= 9999
  /\ 1 <= Strptime.month dt <= 12
  /\ 1 <= Strptime.day dt
          <= Strptime.days_in_month (Strptime.year dt) (Strptime.month dt)
  /\ 0 <= Strptime.hour dt <= 23
  /\ 0 <= Strptime.minute dt <= 59
  /\ 0 <= Strptime.second dt <= 59.

(** The digits of a decimal number of the standard library, as a Python
    string. *)
Definition uint_text (d : Decimal.uint) : pystr :=
  lit (NilEmpty.string_of_uint d).

(** The strings an expression denotes, with the groups it binds on the
    way: from the dictionary [g] to the dictionary [g']. *)
Fixpoint langg (r : regex) (s : pystr) (g g' : groupdict) : Prop :=
  match r with
  | Eps => s = [] /\ g' = g
  | Chr c => (exists ch, s = [ch] /\ chr_matches c ch = true) /\ g' = g
  | Rng lo hi => (exists ch, s = [ch] /\ rng_matches lo hi ch = true) /\ g' = g
  | Dig => (exists ch, s = [ch] /\ is_decimal ch = true) /\ g' = g
  | Cat r1 r2 =>
      exists s1 s2 g1, s = s1 ++ s2 /\ langg r1 s1 g g1 /\ langg r2 s2 g1 g'
  | Alt r1 r2 => langg r1 s g g' \/ langg r2 s g g'
  | Grp name r1 => exists g1, langg r1 s g g1 /\ g' = (name, s) :: g1
  end.

(** The timestamps that can be written with zero padding at all. *)
Definition paddable (dt : Strptime.datetime) : Prop :=
  0 <= Strptime.year dt <= 9999
  /\ 0 <= Strptime.month dt <= 99
  /\ 0 <= Strptime.day dt <= 99
  /\ 0 <= Strptime.hour dt <= 99
  /\ 0 <= Strptime.minute dt <= 99
  /\ 0 <= Strptime.second dt <= 99.

(** The expression [r] matches [p] at the head of any subject, binds the
    groups as [bound] says, and goes on with what follows [p]. *)
Definition consumes (r : regex) (p : pystr) (bound : groupdict -> groupdict)
  : Prop :=
  forall (A : Type) (rest : pystr) (g : groupdict)
         (k : pystr -> groupdict -> option A) (x : A),
    k rest (bound g) = Some x -> run r (p ++ rest) g k = Some x.

(** The expression [r] matches no head of a subject that starts with
    [p]. *)
Definition refuses (r : regex) (p : pystr) : Prop :=
  forall (A : Type) (rest : pystr) (g : groupdict)
         (k : pystr -> groupdict -> option A),
    run r (p ++ rest) g k = None.

(** Letters of the ASCII alphabet, and the blank. *)
Definition is_letter_or_blank (ch : char) : bool :=
  ((ch =? 32) || ((65 <=? ch) && (ch <=? 90)) || ((97 <=? ch) && (ch <=? 122)))%N.

(** A library that knows one endpoint, and nothing of the exceptions it
    raises. *)
Definition sample_boto3 : boto3 :=
  {| client := fun cfg =>
       if str_eqb (endpoint_url cfg) (lit "http://10.0.0.1")
       then Ok sample_s3
       else Raise (OtherError (lit "EndpointConnectionError"));
     exn_text := fun _ => lit "no route to host" |}.

Definition sample_environ : environ :=
  {| AWS_ENDPOINT_URL := Some (lit "10.0.0.1");
     AWS_ACCESS_KEY_ID := Some (lit "key");
     AWS_SECRET_ACCESS_KEY := Some (lit "secret");
     AWS_DEFAULT_REGION := None |}.

Definition sample_setting (e : environ) : setting :=
  {| env := e; lib := sample_boto3;
     random_of_task := fun _ => zero_rng;
     order_of_completion := [1; 0]%nat |}.

(* ================================================================== *)
(** * Strings and numbers *)

Section Strings.

Lemma N_of_ascii_inj (a b : ascii) : N_of_ascii a = N_of_ascii b -> a = b.
Proof.
  intro H. rewrite <- (ascii_N_embedding a), <- (ascii_N_embedding b).
  now rewrite H.
Qed.

Lemma list_ascii_of_string_inj (s t : string) :
  list_ascii_of_string s = list_ascii_of_string t -> s = t.
Proof.
  intro H.
  rewrite <- (string_of_list_ascii_of_string s), <- (string_of_list_ascii_of_string t).
  now rewrite H.
Qed.

Lemma lit_inj (s t : string) : lit s = lit t -> s = t.
Proof.
  unfold lit. intro H. apply list_ascii_of_string_inj.
  revert H. generalize (list_ascii_of_string s) (list_ascii_of_string t).
  intros l. induction l as [|a l IH]; intros [|b l']; simpl;
    try discriminate; auto.
  intro H. injection H as Hab Hl.
  f_equal; [now apply N_of_ascii_inj | now apply IH].
Qed.

Lemma decimal_text_inj (i j : Z) : decimal_text i = decimal_text j -> i = j.
Proof.
  unfold decimal_text. intro H. apply lit_inj in H.
  apply DecimalZ.to_int_inj.
  assert (E : Some (Z.to_int i) = Some (Z.to_int j)).
  { rewrite <- (NilEmpty.isi (Z.to_int i)), <- (NilEmpty.isi (Z.to_int j)).
    now rewrite H. }
  now injection E.
Qed.

Lemma key_text_inj (prefix : pystr) (i j : Z) :
  prefix ++ decimal_text i ++ lit ".txt" = prefix ++ decimal_text j ++ lit ".txt" ->
  i = j.
Proof.
  intro H.
  apply app_inv_head in H. apply app_inv_tail in H.
  now apply decimal_text_inj.
Qed.

End Strings.

(* ================================================================== *)
(** * The digits [str] writes *)

Section Digits.

(** The value of digits read after [acc]. *)
Lemma of_uint_acc_bounds (d : Decimal.uint) :
  forall acc : positive,
    Z.pos acc * 10 ^ Z.of_nat (Decimal.nb_digits d)
    <= Z.pos (Pos.of_uint_acc d acc)
    < (Z.pos acc + 1) * 10 ^ Z.of_nat (Decimal.nb_digits d).
Proof.
  induction d; intro acc; cbn [Decimal.nb_digits Pos.of_uint_acc];
    [rewrite Z.pow_0_r; lia | ..];
    rewrite Nat2Z.inj_succ, Z.pow_succ_r by lia;
    match goal with
    | |- context [Pos.of_uint_acc d ?q] => specialize (IHd q)
    end;
    pose proof (Z.pow_pos_nonneg 10 (Z.of_nat (Decimal.nb_digits d))
                  ltac:(lia) ltac:(lia)) as Hp;
    revert IHd Hp; generalize (10 ^ Z.of_nat (Decimal.nb_digits d));
    intros P IHd Hp; nia.
Qed.

Lemma of_uint_upper (d : Decimal.uint) :
  Z.of_N (Pos.of_uint d) < 10 ^ Z.of_nat (Decimal.nb_digits d).
Proof.
  induction d; cbn [Decimal.nb_digits Pos.of_uint];
    [rewrite Z.pow_0_r; lia | ..];
    rewrite Nat2Z.inj_succ, Z.pow_succ_r by lia;
    pose proof (Z.pow_pos_nonneg 10 (Z.of_nat (Decimal.nb_digits d))
                  ltac:(lia) ltac:(lia)) as Hp;
    [lia | ..];
    match goal with
    | |- context [Pos.of_uint_acc d ?q] =>
        pose proof (of_uint_acc_bounds d q) as Hb
    end;
    cbn [Z.of_N]; lia.
Qed.

Lemma of_uint_lower (d : Decimal.uint) :
  Decimal.nzhead d = d -> d <> Decimal.Nil ->
  10 ^ (Z.of_nat (Decimal.nb_digits d) - 1) <= Z.of_N (Pos.of_uint d).
Proof.
  intros Hhead Hnil.
  destruct d; [congruence | ..]; cbn [Decimal.nb_digits Pos.of_uint Z.of_N];
    try (replace (Z.of_nat (S (Decimal.nb_digits d)) - 1)
           with (Z.of_nat (Decimal.nb_digits d)) by lia;
         match goal with
         | |- context [Pos.of_uint_acc d ?q] =>
             pose proof (of_uint_acc_bounds d q) as Hb
         end;
         pose proof (Z.pow_pos_nonneg 10 (Z.of_nat (Decimal.nb_digits d))
                       ltac:(lia) ltac:(lia)) as Hp;
         lia).
  cbn [Decimal.nzhead] in Hhead.
  pose proof (DecimalFacts.nb_digits_nzhead d) as H.
  rewrite Hhead in H. cbn [Decimal.nb_digits] in H. lia.
Qed.

Lemma to_uint_nzhead (p : positive) :
  Decimal.nzhead (Pos.to_uint p) = Pos.to_uint p.
Proof.
  pose proof (DecimalPos.Unsigned.to_of (Pos.to_uint p)) as H.
  rewrite DecimalPos.Unsigned.of_to in H. cbn [N.to_uint] in H.
  unfold Decimal.unorm in H.
  destruct (Decimal.nzhead (Pos.to_uint p)) eqn:E; try (symmetry; exact H).
  now apply DecimalPos.Unsigned.to_uint_nonzero in H.
Qed.

Lemma uint_text_length (d : Decimal.uint) :
  length (uint_text d) = Decimal.nb_digits d.
Proof.
  unfold uint_text.
  induction d; cbn [NilEmpty.string_of_uint Decimal.nb_digits];
    [reflexivity | ..];
    change (lit (String ?a ?s)) with (N_of_ascii a :: lit s);
    cbn [length]; now rewrite IHd.
Qed.

(** An integer that is not negative has at most [k] digits when it is
    less than [10 ^ k], and only then. *)
Lemma decimal_text_length (z k : Z) :
  0 <= z -> 1 <= k ->
  (Z.of_nat (length (decimal_text z)) <= k <-> z < 10 ^ k).
Proof.
  intros Hz Hk.
  pose proof (Z.pow_pos_nonneg 10 k ltac:(lia) ltac:(lia)) as Hpos.
  destruct z as [|p|p]; [| | lia].
  - change (length (decimal_text 0)) with 1%nat. lia.
  - change (decimal_text (Z.pos p)) with (uint_text (Pos.to_uint p)).
    rewrite uint_text_length.
    pose proof (of_uint_upper (Pos.to_uint p)) as Hup.
    pose proof (of_uint_lower (Pos.to_uint p) (to_uint_nzhead p)
                  (DecimalPos.Unsigned.to_uint_nonnil p)) as Hlow.
    rewrite DecimalPos.Unsigned.of_to in Hup, Hlow. cbn [Z.of_N] in Hup, Hlow.
    set (n := Z.of_nat (Decimal.nb_digits (Pos.to_uint p))) in *.
    split; intro H.
    + apply Z.lt_le_trans with (10 ^ n); [exact Hup |].
      apply Z.pow_le_mono_r; lia.
    + destruct (Z.le_gt_cases n k) as [Hle | Hgt]; [exact Hle |].
      assert (10 ^ k <= 10 ^ (n - 1)) by (apply Z.pow_le_mono_r; lia).
      lia.
Qed.

(** [str] returns for the integers between [- 10 ^ 4300] and
    [10 ^ 4300], both excluded. *)
Lemma str_of_int_spec (z : Z) :
  str_of_int z
  = if 10 ^ max_str_digits <=? Z.abs z then Raise ValueError
    else Ok (decimal_text z).
Proof.
  unfold str_of_int.
  pose proof (decimal_text_length (Z.abs z) max_str_digits
                (Z.abs_nonneg z) ltac:(unfold max_str_digits; lia)) as H.
  revert H. generalize (10 ^ max_str_digits). intros L H.
  destruct (Z.ltb_spec max_str_digits
              (Z.of_nat (length (decimal_text (Z.abs z)))));
    destruct (Z.leb_spec L (Z.abs z)); try reflexivity; lia.
Qed.

(** The limit is far above the numbers of the examples. *)
Lemma limit_is_large (n : Z) : n <= max_str_digits -> n < 10 ^ max_str_digits.
Proof.
  intro H. apply Z.le_lt_trans with max_str_digits; [exact H |].
  apply Z.pow_gt_lin_r; [lia | unfold max_str_digits; lia].
Qed.

Lemma within_limit (n : Z) :
  0 <= n <= max_str_digits -> 0 <= n < 10 ^ max_str_digits.
Proof.
  intro H. split; [lia | apply limit_is_large; lia].
Qed.

Lemma object_key_ok (prefix : pystr) (i : Z) :
  0 <= i < 10 ^ max_str_digits ->
  object_key prefix i = Ok (prefix ++ decimal_text i ++ lit ".txt").
Proof.
  intro Hi. unfold object_key. rewrite str_of_int_spec.
  revert Hi. generalize (10 ^ max_str_digits). intros L Hi.
  destruct (Z.leb_spec L (Z.abs i)); [lia | reflexivity].
Qed.

Lemma object_key_raises (prefix : pystr) (i : Z) :
  10 ^ max_str_digits <= i -> object_key prefix i = Raise ValueError.
Proof.
  intro Hi. unfold object_key. rewrite str_of_int_spec.
  revert Hi. generalize (10 ^ max_str_digits). intros L Hi.
  destruct (Z.leb_spec L (Z.abs i)); [reflexivity | lia].
Qed.

End Digits.

(* ================================================================== *)
(** * Bucket discovery *)

Section Discovery.

Variable s3c : s3_client.

Lemma check_object_lock_all (buckets : list bucket) (acc : list pystr) :
  (forall b, In b buckets -> lock_query_failure s3c b = None) ->
  check_object_lock s3c buckets acc
  = Ok (acc ++ map Name (filter (lock_enabled s3c) buckets)).
Proof.
  revert acc. induction buckets as [|b rest IH]; intros acc Hok.
  - cbn. now rewrite app_nil_r.
  - assert (Hb := Hok b (or_introl eq_refl)).
    assert (Hrest : forall x, In x rest -> lock_query_failure s3c x = None)
      by (intros x Hx; apply Hok; now right).
    cbn [check_object_lock filter]. unfold lock_query_failure in Hb.
    unfold lock_enabled at 1.
    destruct (get_object_lock_configuration s3c (Name b)) as [config|e].
    + destruct (existsb _ config).
      * rewrite IH by assumption. cbn [map]. now rewrite <- app_assoc.
      * now apply IH.
    + destruct e; try discriminate.
      destruct (str_eqb code not_found_code); [| discriminate].
      cbn [negb]. now apply IH.
Qed.

Lemma check_object_lock_failure (before : list bucket) (b : bucket)
  (after : list bucket) (e : exn) (acc : list pystr) :
  (forall x, In x before -> lock_query_failure s3c x = None) ->
  lock_query_failure s3c b = Some e ->
  check_object_lock s3c (before ++ b :: after) acc = Raise e.
Proof.
  revert acc. induction before as [|x before IH]; intros acc Hok Hb.
  - cbn [app check_object_lock]. unfold lock_query_failure in Hb.
    destruct (get_object_lock_configuration s3c (Name b)) as [config|e'];
      [discriminate |].
    destruct e'; try congruence.
    destruct (str_eqb code not_found_code); [discriminate |].
    cbn [negb]. congruence.
  - assert (Hx := Hok x (or_introl eq_refl)).
    assert (Hrest : forall y, In y before -> lock_query_failure s3c y = None)
      by (intros y Hy; apply Hok; now right).
    cbn [app check_object_lock]. unfold lock_query_failure in Hx.
    destruct (get_object_lock_configuration s3c (Name x)) as [config|e'].
    + destruct (existsb _ config); now apply IH.
    + destruct e'; try discriminate.
      destruct (str_eqb code not_found_code); [| discriminate].
      cbn [negb]. now apply IH.
Qed.

(** C4. When no query fails otherwise than with the code
    ObjectLockConfigurationNotFoundError, discovery returns, in listing
    order, exactly the buckets whose query returned a response holding
    ObjectLockConfiguration; a bucket whose query fails with that code is
    left out and nothing is raised.  The first query that fails in another
    way ends discovery with its exception. *)
Theorem C4_bucket_discovery (buckets : list bucket) :
  (forall b code,
      get_object_lock_configuration s3c (Name b) = Raise (ClientError code) ->
      lock_enabled s3c b = false
      /\ lock_query_failure s3c b
         = if str_eqb code not_found_code then None else Some (ClientError code))
  /\ ((forall b, In b buckets -> lock_query_failure s3c b = None) ->
      check_object_lock s3c buckets []
      = Ok (map Name (filter (lock_enabled s3c) buckets)))
  /\ (forall before b after e,
        buckets = before ++ b :: after ->
        (forall x, In x before -> lock_query_failure s3c x = None) ->
        lock_query_failure s3c b = Some e ->
        check_object_lock s3c buckets [] = Raise e).
Proof.
  split; [| split].
  - intros b code H. unfold lock_enabled, lock_query_failure. rewrite H.
    split; reflexivity.
  - intro Hok. now rewrite check_object_lock_all.
  - intros before b after e -> Hok Hb. now apply check_object_lock_failure.
Qed.

End Discovery.

Lemma C4_bucket_discovery_witness :
  check_object_lock sample_s3 three_buckets [] = Ok [lit "alpha"; lit "gamma"]
  /\ check_object_lock denying_s3 three_buckets []
     = Raise (ClientError (lit "AccessDenied")).
Proof.
  split.
  - refine (proj1 (proj2 (C4_bucket_discovery sample_s3 three_buckets)) _).
    intros b [<- | [<- | [<- | []]]]; reflexivity.
  - refine (proj2 (proj2 (C4_bucket_discovery denying_s3 three_buckets))
              [{| Name := lit "alpha" |}] {| Name := lit "beta" |}
              [{| Name := lit "gamma" |}] _ eq_refl _ _).
    + intros x [<- | []]. reflexivity.
    + reflexivity.
Defined.

(* ================================================================== *)
(** * Bucket selection *)

Lemma getitem_ok {A} (l : list A) (i : Z) :
  - Z.of_nat (length l) <= i < Z.of_nat (length l) ->
  exists a,
    nth_error l (Z.to_nat (if i <? 0 then i + Z.of_nat (length l) else i)) = Some a
    /\ getitem l i = Ok a.
Proof.
  intro Hi. unfold getitem.
  set (j := if i <? 0 then i + Z.of_nat (length l) else i).
  assert (Hj : 0 <= j < Z.of_nat (length l))
    by (subst j; destruct (Z.ltb_spec i 0); lia).
  destruct (Z.ltb_spec j 0); [lia |].
  destruct (Z.leb_spec (Z.of_nat (length l)) j); [lia |].
  cbn [orb].
  destruct (nth_error l (Z.to_nat j)) as [a|] eqn:E.
  - exists a. split; reflexivity.
  - apply nth_error_None in E. lia.
Qed.

Lemma getitem_out_of_range {A} (l : list A) (i : Z) :
  i < - Z.of_nat (length l) \/ Z.of_nat (length l) <= i ->
  getitem l i = Raise IndexError.
Proof.
  intro Hi. unfold getitem.
  destruct (Z.ltb_spec i 0).
  - destruct (Z.ltb_spec (i + Z.of_nat (length l)) 0); [reflexivity | lia].
  - destruct (Z.ltb_spec i 0); [lia |].
    destruct (Z.leb_spec (Z.of_nat (length l)) i); [reflexivity | lia].
Qed.

Section Selection.

Variable buckets_with_object_lock : list pystr.

Let n : Z := Z.of_nat (length buckets_with_object_lock).

(** One line is read, whatever happens next. *)
Lemma select_bucket_run (line : pystr) (rest out : list pystr) :
  select_bucket buckets_with_object_lock {| stdin := line :: rest; stdout := out |}
  = let c1 := {| stdin := rest; stdout := out ++ [select_prompt] |} in
    match rbind (int_of_str line)
                (fun k => getitem buckets_with_object_lock (k - 1)) with
    | Ok bucket_name =>
        (Ok bucket_name, write ((lit "Selected bucket: " ++ bucket_name) ++ nl) c1)
    | Raise e => (Raise e, c1)
    end.
Proof.
  unfold select_bucket, bind, input, lift, print, ret. cbn [stdin stdout].
  destruct (int_of_str line) as [k|e]; cbn [rbind]; [| reflexivity].
  destruct (getitem buckets_with_object_lock (k - 1)); reflexivity.
Qed.

(** C9. The number entered is 1-based: a line that [int] reads as [k],
    with [k] from 1 to the number of buckets listed, selects the [k]-th of
    them, that is the one at index [k - 1]; with three buckets listed, the
    line 2 selects the second. *)
Theorem C9_selection_is_one_based (line : pystr) (rest out : list pystr) (k : Z) :
  int_of_str line = Ok k ->
  1 <= k <= n ->
  (exists bucket_name,
      nth_error buckets_with_object_lock (Z.to_nat (k - 1)) = Some bucket_name
      /\ select_bucket buckets_with_object_lock
           {| stdin := line :: rest; stdout := out |}
         = (Ok bucket_name,
            {| stdin := rest;
               stdout := (out ++ [select_prompt])
                         ++ [(lit "Selected bucket: " ++ bucket_name) ++ nl] |}))
  /\ forall b1 b2 b3 : pystr,
       fst (select_bucket [b1; b2; b3] {| stdin := lit "2" :: rest; stdout := out |})
       = Ok b2.
Proof.
  intros Hline Hk. split.
  - destruct (getitem_ok buckets_with_object_lock (k - 1)) as (b & Hnth & Hget);
      [subst n; lia |].
    destruct (Z.ltb_spec (k - 1) 0); [lia |].
    exists b. split; [exact Hnth |].
    rewrite select_bucket_run, Hline. cbn [rbind]. rewrite Hget. reflexivity.
  - intros b1 b2 b3. reflexivity.
Qed.

(** C10. A line that [int] reads as [k], with [k] from [1 - n] to 0 for
    [n] buckets listed, raises nothing: it selects the bucket at position
    [n + k] of the list, that is at index [n + k - 1]; the line 0 selects
    the last bucket. *)
Theorem C10_selection_wraps_around (line : pystr) (rest out : list pystr) (k : Z) :
  int_of_str line = Ok k ->
  1 - n <= k <= 0 ->
  (exists bucket_name,
      nth_error buckets_with_object_lock (Z.to_nat (n + k - 1)) = Some bucket_name
      /\ select_bucket buckets_with_object_lock
           {| stdin := line :: rest; stdout := out |}
         = (Ok bucket_name,
            {| stdin := rest;
               stdout := (out ++ [select_prompt])
                         ++ [(lit "Selected bucket: " ++ bucket_name) ++ nl] |}))
  /\ int_of_str (lit "0") = Ok 0
  /\ fst (select_bucket buckets_with_object_lock
            {| stdin := lit "0" :: rest; stdout := out |})
     = Ok (last buckets_with_object_lock []).
Proof.
  intros Hline Hk.
  assert (Hget : forall i, - n <= i < 0 ->
            exists b, nth_error buckets_with_object_lock (Z.to_nat (n + i)) = Some b
                      /\ getitem buckets_with_object_lock i = Ok b).
  { intros i Hi.
    destruct (getitem_ok buckets_with_object_lock i) as (b & Hnth & Hg);
      [subst n; lia |].
    destruct (Z.ltb_spec i 0); [| lia].
    exists b. split; [| exact Hg].
    subst n. now rewrite Z.add_comm. }
  split; [| split; [reflexivity |]].
  - destruct (Hget (k - 1)) as (b & Hnth & Hg); [lia |].
    exists b. split.
    + now replace (n + k - 1) with (n + (k - 1)) by lia.
    + rewrite select_bucket_run, Hline. cbn [rbind]. rewrite Hg. reflexivity.
  - rewrite select_bucket_run.
    change (int_of_str (lit "0")) with (Ok 0 : result Z). cbn [rbind].
    destruct (Hget (0 - 1)) as (b & Hnth & Hg); [lia |].
    rewrite Hg. cbn [fst]. f_equal.
    clear - Hnth. subst n.
    replace (Z.to_nat (Z.of_nat (length buckets_with_object_lock) + (0 - 1)))
      with (length buckets_with_object_lock - 1)%nat in Hnth by lia.
    revert Hnth. generalize buckets_with_object_lock as l.
    induction l as [|x l IH]; [discriminate |].
    destruct l as [|y l]; [cbn; congruence |].
    intro H. cbn [last]. apply IH.
    cbn [length] in *. now rewrite Nat.sub_succ, Nat.sub_0_r in *.
Qed.

End Selection.

Lemma C9_selection_is_one_based_witness :
  select_bucket (map Name three_buckets) {| stdin := [lit "2"]; stdout := [] |}
  = (Ok (lit "beta"),
     {| stdin := [];
        stdout := [select_prompt; (lit "Selected bucket: " ++ lit "beta") ++ nl] |}).
Proof.
  destruct (proj1 (C9_selection_is_one_based (map Name three_buckets)
                     (lit "2") [] [] 2 eq_refl ltac:(cbn; lia)))
    as (b & Hnth & Hrun).
  injection Hnth as <-. exact Hrun.
Defined.

Lemma C10_selection_wraps_around_witness :
  select_bucket (map Name three_buckets) {| stdin := [lit "-1"]; stdout := [] |}
  = (Ok (lit "beta"),
     {| stdin := [];
        stdout := [select_prompt; (lit "Selected bucket: " ++ lit "beta") ++ nl] |})
  /\ fst (select_bucket (map Name three_buckets)
            {| stdin := [lit "0"]; stdout := [] |})
     = Ok (lit "gamma").
Proof.
  split.
  - destruct (proj1 (C10_selection_wraps_around (map Name three_buckets)
                       (lit "-1") [] [] (-1) eq_refl ltac:(cbn; lia)))
      as (b & Hnth & Hrun).
    injection Hnth as <-. exact Hrun.
  - exact (proj2 (proj2 (C10_selection_wraps_around (map Name three_buckets)
                           (lit "-1") [] [] (-1) eq_refl ltac:(cbn; lia)))).
Defined.

(* ================================================================== *)
(** * The script up to the selection *)

Section Listing.

Lemma print_each_run (lines : list pystr) (c : console) :
  print_each lines c
  = (Ok tt, {| stdin := stdin c;
               stdout := stdout c ++ map (fun l => l ++ nl) lines |}).
Proof.
  revert c. induction lines as [|l lines IH]; intro c.
  - cbn. rewrite app_nil_r. now destruct c.
  - cbn [print_each map]. unfold bind, print. rewrite IH.
    unfold write. cbn [stdin stdout]. now rewrite <- app_assoc.
Qed.

(** What the two listings write does not depend on the console, and none
    of it is the prompt of the selection. *)
Lemma listing_run (buckets : list bucket) (enabled : list pystr) :
  buckets <> [] ->
  exists shown,
    Forall (fun chunk => chunk <> select_prompt) shown
    /\ forall c,
         (show_buckets buckets ;;; show_choices enabled) c
         = (Ok tt, {| stdin := stdin c; stdout := stdout c ++ shown |}).
Proof.
  intro Hne.
  set (names := map (fun l => l ++ nl) (map (fun b => tab ++ lit "- " ++ Name b) buckets)).
  set (choices_shown :=
         match enabled with
         | [] => [(tab ++ lit "None") ++ nl]
         | _ => map (fun l => l ++ nl)
                  (map (fun '(i, bucket_name) =>
                          tab ++ lit " " ++ decimal_text (i + 1) ++ lit ". " ++ bucket_name)
                       (enumerate enabled))
         end).
  exists ([lit "All Existing buckets list:" ++ nl] ++ names
          ++ [(nl ++ lit "List of buckets to create locked objects:") ++ nl]
          ++ choices_shown).
  split.
  - apply Forall_app. split; [repeat constructor; discriminate |].
    apply Forall_app. split.
    { subst names. rewrite map_map. apply Forall_forall. intros x Hx.
      apply in_map_iff in Hx. destruct Hx as (b & <- & _). discriminate. }
    apply Forall_app. split; [repeat constructor; discriminate |].
    subst choices_shown. destruct enabled as [|e0 enabled'];
      [repeat constructor; discriminate |].
    rewrite map_map. apply Forall_forall. intros x Hx.
    apply in_map_iff in Hx. destruct Hx as ([i b] & <- & _). discriminate.
  - intro c. unfold show_buckets, show_choices, bind, print.
    destruct buckets as [|b0 buckets']; [congruence |].
    rewrite print_each_run. unfold write. cbn [stdin stdout].
    fold names.
    destruct enabled as [|e0 enabled'].
    + subst choices_shown. cbn [stdin stdout].
      rewrite <- !app_assoc. reflexivity.
    + rewrite print_each_run. cbn [stdin stdout]. fold choices_shown.
      rewrite <- !app_assoc. reflexivity.
Qed.

(** C7, as the script has it.  A line that [int] reads as [k], with [k]
    above the number [n] of buckets listed or not above [- n], ends the
    script with [IndexError]: that one line has been read, and the prompt
    of the selection has been written once, last. *)
Theorem C7_selection_out_of_range (w : world) (buckets : list bucket)
  (enabled : list pystr) (line : pystr) (rest out : list pystr) (k : Z) :
  list_buckets (s3 w) = Ok buckets ->
  buckets <> [] ->
  check_object_lock (s3 w) buckets [] = Ok enabled ->
  int_of_str line = Ok k ->
  Z.of_nat (length enabled) < k \/ k <= - Z.of_nat (length enabled) ->
  select_bucket enabled {| stdin := line :: rest; stdout := out |}
  = (Raise IndexError, {| stdin := rest; stdout := out ++ [select_prompt] |})
  /\ exists shown,
       ~ In select_prompt shown
       /\ script w {| stdin := line :: rest; stdout := out |}
          = (Raise IndexError,
             {| stdin := rest; stdout := (out ++ shown) ++ [select_prompt] |}).
Proof.
  intros Hlist Hne Hcheck Hline Hk.
  assert (Hsel : forall o,
             select_bucket enabled {| stdin := line :: rest; stdout := o |}
             = (Raise IndexError, {| stdin := rest; stdout := o ++ [select_prompt] |})).
  { intro o. rewrite select_bucket_run, Hline. cbn [rbind].
    rewrite (getitem_out_of_range enabled (k - 1)) by lia. reflexivity. }
  split; [apply Hsel |].
  destruct (listing_run buckets enabled Hne) as (shown & Hshown & Hrun).
  exists shown. split.
  - intro Hin. exact (proj1 (Forall_forall _ _) Hshown _ Hin eq_refl).
  - unfold script.
    unfold bind at 1. unfold lift at 1. rewrite Hlist.
    unfold bind at 1. unfold lift at 1. rewrite Hcheck.
    specialize (Hrun {| stdin := line :: rest; stdout := out |}).
    unfold bind in Hrun |- *.
    destruct (show_buckets buckets _) as [[[]|e] c1]; [| discriminate].
    destruct (show_choices enabled c1) as [[[]|e] c2]; [| discriminate].
    injection Hrun as ->. cbn [stdin stdout].
    rewrite Hsel. reflexivity.
Qed.

End Listing.

Lemma C7_selection_out_of_range_witness :
  select_bucket [lit "alpha"; lit "gamma"] {| stdin := [lit "3"]; stdout := [] |}
  = (Raise IndexError, {| stdin := []; stdout := [select_prompt] |}).
Proof.
  exact (proj1 (C7_selection_out_of_range (sample_world sample_s3 [])
                  three_buckets [lit "alpha"; lit "gamma"] (lit "3") [] [] 3
                  eq_refl ltac:(discriminate) eq_refl eq_refl
                  ltac:(left; vm_compute; reflexivity))).
Defined.

(** C7, as stated, fails: with three buckets listed, the line 0 is read as
    the integer 0, which numbers none of them, and the third bucket is
    selected; nothing is raised. *)
Lemma C7_zero_is_not_an_error :
  int_of_str (lit "0") = Ok 0
  /\ select_bucket (map Name three_buckets) {| stdin := [lit "0"]; stdout := [] |}
     = (Ok (lit "gamma"),
        {| stdin := [];
           stdout := [select_prompt; (lit "Selected bucket: " ++ lit "gamma") ++ nl] |}).
Proof. split; reflexivity. Qed.

(* ================================================================== *)
(** * The prompts that ask again *)

Section Prompts.

Variable valid : pystr -> result bool.
Variables complaint first_prompt prompt : pystr.

Lemma bind_assoc {A B C} (m : M A) (f : A -> M B) (k : B -> M C) (c : console) :
  (y <- (x <- m ;; f x) ;; k y) c = (x <- m ;; y <- f x ;; k y) c.
Proof.
  unfold bind. destruct (m c) as [[a|e] c1]; reflexivity.
Qed.

(** One turn of the loop. *)
Lemma while_invalid_run (x : pystr) (rest out : list pystr) :
  while_invalid valid complaint prompt x {| stdin := rest; stdout := out |}
  = match valid x with
    | Ok true => (Ok x, {| stdin := rest; stdout := out |})
    | Ok false =>
        (y <- input prompt ;; while_invalid valid complaint prompt y)
          {| stdin := rest; stdout := out ++ [complaint ++ nl] |}
    | Raise e => (Raise e, {| stdin := rest; stdout := out |})
    end.
Proof.
  unfold bind, input, while_invalid. cbn [stdin stdout].
  destruct rest as [|l rest']; cbn [reprompt];
    destruct (valid x) as [[|]|e]; try reflexivity;
    unfold write; cbn [stdin stdout]; now rewrite <- (app_assoc _ [_] [_]).
Qed.

(** The first line read is accepted, or the loop asks again as if it
    started on the next line. *)
Lemma ask_run (s : pystr) (rest out : list pystr) :
  (x <- input first_prompt ;; while_invalid valid complaint prompt x)
    {| stdin := s :: rest; stdout := out |}
  = match valid s with
    | Ok true => (Ok s, {| stdin := rest; stdout := out ++ [first_prompt] |})
    | Ok false =>
        (x <- input prompt ;; while_invalid valid complaint prompt x)
          {| stdin := rest;
             stdout := (out ++ [first_prompt]) ++ [complaint ++ nl] |}
    | Raise e => (Raise e, {| stdin := rest; stdout := out ++ [first_prompt] |})
    end.
Proof.
  unfold bind at 1. unfold input at 1. cbn [stdin stdout].
  apply while_invalid_run.
Qed.

(** The same, when the script goes on with the accepted line. *)
Lemma ask_then_run {A} (k : pystr -> M A) (s : pystr) (rest out : list pystr) :
  (x <- input first_prompt ;; y <- while_invalid valid complaint prompt x ;; k y)
    {| stdin := s :: rest; stdout := out |}
  = match valid s with
    | Ok true => k s {| stdin := rest; stdout := out ++ [first_prompt] |}
    | Ok false =>
        (x <- input prompt ;; y <- while_invalid valid complaint prompt x ;; k y)
          {| stdin := rest;
             stdout := (out ++ [first_prompt]) ++ [complaint ++ nl] |}
    | Raise e => (Raise e, {| stdin := rest; stdout := out ++ [first_prompt] |})
    end.
Proof.
  rewrite <- bind_assoc. unfold bind at 1. rewrite ask_run.
  destruct (valid s) as [[|]|e]; try reflexivity.
  now rewrite <- bind_assoc.
Qed.

(** Only a line that [valid] accepts leaves the loop. *)
Lemma reprompt_accepts (lines : list pystr) :
  forall x out r c',
    reprompt valid complaint prompt x lines out = (Ok r, c') ->
    valid r = Ok true.
Proof.
  induction lines as [|l lines IH]; intros x out r c'; cbn [reprompt].
  - destruct (valid x) as [[|]|e] eqn:E; intro H; try discriminate.
    injection H as <- _. exact E.
  - destruct (valid x) as [[|]|e] eqn:E; intro H; try discriminate.
    + injection H as <- _. exact E.
    + now apply IH in H.
Qed.

Lemma ask_accepts (c : console) (r : pystr) (c' : console) :
  (x <- input first_prompt ;; while_invalid valid complaint prompt x) c = (Ok r, c') ->
  valid r = Ok true.
Proof.
  unfold bind, input, while_invalid.
  destruct (stdin c) as [|l rest]; [discriminate |].
  cbn [stdin stdout]. apply reprompt_accepts.
Qed.

End Prompts.

(** The two prompts for a number: a line leaves the loop exactly when
    [isdigit] holds of it, and is then given to [int]. *)
Lemma read_num_objects_run (s : pystr) (rest out : list pystr) :
  read_num_objects {| stdin := s :: rest; stdout := out |}
  = if isdigit s
    then (int_of_str s, {| stdin := rest; stdout := out ++ [num_objects_prompt] |})
    else read_num_objects
           {| stdin := rest;
              stdout := (out ++ [num_objects_prompt]) ++ [number_complaint ++ nl] |}.
Proof.
  unfold read_num_objects.
  rewrite (ask_then_run (fun s => Ok (isdigit s))).
  destruct (isdigit s); reflexivity.
Qed.

Lemma read_start_index_run (s : pystr) (rest out : list pystr) :
  read_start_index {| stdin := s :: rest; stdout := out |}
  = if isdigit s
    then (int_of_str s, {| stdin := rest; stdout := out ++ [start_index_prompt] |})
    else (x <- input start_index_reprompt ;;
          y <- while_invalid (fun s => Ok (isdigit s))
                 number_complaint start_index_reprompt x ;;
          lift (int_of_str y))
           {| stdin := rest;
              stdout := (out ++ [start_index_prompt]) ++ [number_complaint ++ nl] |}.
Proof.
  unfold read_start_index.
  rewrite (ask_then_run (fun s => Ok (isdigit s))).
  destruct (isdigit s); reflexivity.
Qed.

(** C8, where the script departs from it.  The superscript two (U+00B2)
    is a digit for [isdigit], so both loops let it through, and [int]
    then raises [ValueError]: the script ends there instead of asking
    again. *)
Theorem C8_isdigit_accepts_what_int_refuses :
  isdigit [178%N] = true
  /\ int_of_str [178%N] = Raise ValueError
  /\ read_num_objects {| stdin := [[178%N]]; stdout := [] |}
     = (Raise ValueError, {| stdin := []; stdout := [num_objects_prompt] |})
  /\ read_start_index {| stdin := [[178%N]]; stdout := [] |}
     = (Raise ValueError, {| stdin := []; stdout := [start_index_prompt] |}).
Proof. repeat split; reflexivity. Qed.

(** ** What [int] reads *)

Section IntOfDigits.

Lemma decimal_in_run (zeros : list N) (ch : char) (v : Z) :
  decimal_in zeros ch = Some v ->
  exists z, In z zeros /\ (z <= ch < z + 10)%N /\ v = Z.of_N (ch - z).
Proof.
  induction zeros as [|z zeros IH]; cbn [decimal_in]; [discriminate |].
  destruct ((z <=? ch) && (ch <? z + 10))%N eqn:E.
  - intro H. injection H as <-. apply andb_prop in E. destruct E as [E1 E2].
    apply N.leb_le in E1. apply N.ltb_lt in E2.
    exists z. split; [now left | split; [lia | reflexivity]].
  - intro H. destruct (IH H) as (z' & Hin & Hz).
    exists z'. split; [now right | exact Hz].
Qed.

Lemma in_ranges_run (rs : list (N * N)) (ch : char) :
  in_ranges rs ch = true ->
  exists r, In r rs /\ (fst r <= ch <= snd r)%N.
Proof.
  unfold in_ranges. intro H. apply existsb_exists in H.
  destruct H as (r & Hin & Hr). apply andb_prop in Hr. destruct Hr as [H1 H2].
  apply N.leb_le in H1. apply N.leb_le in H2. exists r. auto.
Qed.

(** No decimal digit lies in any of the ranges [rs], when no run of ten
    digits meets any of them. *)
Lemma decimal_outside (rs : list (N * N)) (ch : char) :
  forallb (fun z => forallb (fun r => (snd r <? z) || (z + 10 <=? fst r))%N rs)
          decimal_zeros = true ->
  is_decimal ch = true -> in_ranges rs ch = false.
Proof.
  intros Hdisj Hd. unfold is_decimal in Hd.
  destruct (decimal_value ch) as [v|] eqn:E; [| discriminate].
  apply decimal_in_run in E. destruct E as (z & Hz & Hch & _).
  destruct (in_ranges rs ch) eqn:R; [| reflexivity].
  apply in_ranges_run in R. destruct R as (r & Hr & Hin).
  rewrite forallb_forall in Hdisj. specialize (Hdisj z Hz).
  rewrite forallb_forall in Hdisj. specialize (Hdisj r Hr).
  apply orb_prop in Hdisj.
  destruct Hdisj as [H | H]; [apply N.ltb_lt in H | apply N.leb_le in H]; lia.
Qed.

Lemma decimal_is_plain (ch : char) :
  is_decimal ch = true ->
  is_int_space ch = false
  /\ (ch =? plus_sign)%N = false
  /\ (ch =? minus_sign)%N = false
  /\ (ch =? underscore)%N = false.
Proof.
  intro Hd. split; [apply decimal_outside; [reflexivity | exact Hd] |].
  pose proof (decimal_outside [(43, 43); (45, 45); (95, 95)]%N ch eq_refl Hd) as H.
  unfold in_ranges in H. cbn [existsb fst snd] in H.
  unfold plus_sign, minus_sign, underscore.
  repeat split; apply N.eqb_neq; intros ->; discriminate H.
Qed.

Lemma int_digits_decimal (s : pystr) :
  forallb is_decimal s = true ->
  forall acc n, 0 <= acc ->
    exists v, int_digits s false acc n = Some (v, n + Z.of_nat (length s), [])
              /\ 0 <= v.
Proof.
  induction s as [|ch s IH]; intros Hs acc n Hacc.
  - exists acc. cbn. rewrite Z.add_0_r. auto.
  - cbn [forallb] in Hs. apply andb_prop in Hs. destruct Hs as [Hch Hs].
    destruct (decimal_is_plain ch Hch) as (_ & _ & _ & Hus).
    cbn [int_digits]. rewrite Hus.
    unfold is_decimal in Hch.
    destruct (decimal_value ch) as [d|] eqn:E; [| discriminate].
    apply decimal_in_run in E. destruct E as (z & _ & _ & ->).
    destruct (IH Hs (10 * acc + Z.of_N (ch - z)) (n + 1)) as (v & Hv & Hpos);
      [lia |].
    exists v. split; [| exact Hpos].
    rewrite Hv. do 3 f_equal. cbn [length]. lia.
Qed.

(** A line of at most 4300 decimal digits and nothing else is read by
    [int] as a non-negative integer. *)
Lemma int_of_str_decimal (s : pystr) :
  s <> [] ->
  forallb is_decimal s = true ->
  Z.of_nat (length s) <= max_str_digits ->
  exists v, int_of_str s = Ok v /\ 0 <= v.
Proof.
  intros Hne Hs Hlen. destruct s as [|ch s']; [congruence |].
  assert (Hch : is_decimal ch = true)
    by (cbn [forallb] in Hs; now apply andb_prop in Hs).
  destruct (decimal_is_plain ch Hch) as (Hsp & Hplus & Hminus & Hus).
  destruct (int_digits_decimal (ch :: s') Hs 0 0 ltac:(lia)) as (v & Hv & Hpos).
  exists v. split; [| exact Hpos].
  unfold int_of_str. cbn [skip_space]. rewrite Hsp, Hplus, Hminus, Hus, Hv.
  destruct (Z.eqb_spec (0 + Z.of_nat (length (ch :: s'))) 0) as [E | _];
    [cbn [length] in E; lia |].
  cbn [skip_space].
  destruct (Z.ltb_spec max_str_digits (0 + Z.of_nat (length (ch :: s'))));
    [lia |].
  f_equal. lia.
Qed.

(** Beyond 4300 digits [int] refuses the line, which [isdigit] accepts. *)
Lemma int_of_str_digit_limit :
  isdigit (repeat 48%N 4301) = true
  /\ int_of_str (repeat 48%N 4301) = Raise ValueError.
Proof. split; vm_compute; reflexivity. Qed.

End IntOfDigits.

(* ================================================================== *)
(** * The retention date *)

Section Matching.

(** What the matcher accepts is in the language of the expression. *)
Lemma run_sound {A} (r : regex) :
  forall (s : pystr) (g : groupdict) (k : pystr -> groupdict -> option A) (a : A),
    run r s g k = Some a ->
    exists s1 s2 g', s = s1 ++ s2 /\ lang r s1 /\ k s2 g' = Some a.
Proof.
  induction r as [| c | lo hi | | r1 IH1 r2 IH2 | r1 IH1 r2 IH2 | name r1 IH1];
    intros s g k a H; cbn [run] in H.
  - exists [], s, g. repeat split; auto.
  - destruct s as [|ch s']; [discriminate |].
    destruct (chr_matches c ch) eqn:E; [| discriminate].
    exists [ch], s', g. repeat split; auto. exists ch. auto.
  - destruct s as [|ch s']; [discriminate |].
    destruct (rng_matches lo hi ch) eqn:E; [| discriminate].
    exists [ch], s', g. repeat split; auto. exists ch. auto.
  - destruct s as [|ch s']; [discriminate |].
    destruct (is_decimal ch) eqn:E; [| discriminate].
    exists [ch], s', g. repeat split; auto. exists ch. auto.
  - apply IH1 in H. destruct H as (s1 & s2 & g1 & -> & L1 & H).
    apply IH2 in H. destruct H as (s3 & s4 & g2 & -> & L2 & H).
    exists (s1 ++ s3), s4, g2. rewrite app_assoc. repeat split; auto.
    exists s1, s3. auto.
  - destruct (run r1 s g k) as [a'|] eqn:E.
    + injection H as ->. apply IH1 in E.
      destruct E as (s1 & s2 & g' & -> & L & Hk).
      exists s1, s2, g'. repeat split; auto. now left.
    + apply IH2 in H. destruct H as (s1 & s2 & g' & -> & L & Hk).
      exists s1, s2, g'. repeat split; auto. now right.
  - apply IH1 in H. destruct H as (s1 & s2 & g' & Hs & L & Hk).
    exists s1, s2, ((name, firstn (length s - length s2) s) :: g').
    repeat split; auto.
Qed.

Lemma re_match_whole (r : regex) (s : pystr) (g : groupdict) :
  re_match r s = Some ([], g) -> lang r s.
Proof.
  unfold re_match. intro H. apply run_sound in H.
  destruct H as (s1 & s2 & g' & -> & L & Hk).
  injection Hk as -> _. now rewrite app_nil_r.
Qed.

End Matching.

Section Characters.

Lemma ascii_digit_is_decimal (ch : char) :
  (48 <= ch <= 57)%N -> is_decimal ch = true.
Proof.
  intros [Hlo Hhi]. unfold is_decimal, decimal_value, decimal_zeros.
  cbn [decimal_in].
  apply N.leb_le in Hlo. rewrite Hlo.
  assert (Hlt : (ch <? 48 + 10)%N = true) by (apply N.ltb_lt; lia).
  rewrite Hlt. reflexivity.
Qed.

Lemma swapcase_not_digit (ch : char) :
  (48 <= swapcase ch <= 57)%N -> swapcase ch = ch.
Proof.
  unfold swapcase.
  destruct ((65 <=? ch) && (ch <=? 90))%N eqn:U.
  - apply andb_prop in U. destruct U as [U1 U2].
    apply N.leb_le in U1. lia.
  - destruct ((97 <=? ch) && (ch <=? 122))%N eqn:L; [| reflexivity].
    apply andb_prop in L. destruct L as [L1 L2].
    apply N.leb_le in L1. apply N.leb_le in L2. lia.
Qed.

Lemma rng_digit (lo hi ch : char) :
  (48 <= lo)%N -> (hi <= 57)%N ->
  rng_matches lo hi ch = true -> is_decimal ch = true.
Proof.
  intros Hlo Hhi H. unfold rng_matches, between in H.
  apply orb_prop in H. apply ascii_digit_is_decimal.
  destruct H as [H | H]; apply andb_prop in H; destruct H as [H1 H2];
    apply N.leb_le in H1; apply N.leb_le in H2.
  - lia.
  - rewrite <- (swapcase_not_digit ch) by lia. lia.
Qed.

Lemma chr_cases (c ch : char) :
  chr_matches c ch = true -> ch = c \/ ch = swapcase c.
Proof.
  unfold chr_matches. intro H. apply orb_prop in H.
  destruct H as [H | H]; apply N.eqb_eq in H; auto.
Qed.

Lemma chr_digit (c ch : char) :
  (48 <= c <= 57)%N -> chr_matches c ch = true -> is_decimal ch = true.
Proof.
  intros Hc H. apply chr_cases in H. apply ascii_digit_is_decimal.
  destruct H as [-> | ->]; [exact Hc |].
  unfold swapcase.
  destruct ((65 <=? c) && (c <=? 90))%N eqn:U.
  - apply andb_prop in U. destruct U as [U1 _]. apply N.leb_le in U1. lia.
  - destruct ((97 <=? c) && (c <=? 122))%N eqn:L; [| exact Hc].
    apply andb_prop in L. destruct L as [L1 _]. apply N.leb_le in L1. lia.
Qed.

Lemma chr_exact (c ch : char) :
  swapcase c = c -> chr_matches c ch = true -> ch = c.
Proof.
  intros Hs H. apply chr_cases in H.
  destruct H as [-> | ->]; [reflexivity | exact Hs].
Qed.

End Characters.

(** ** The fields of the format *)

Section Fields.

(** Breaks a hypothesis on the language of an expression into the
    characters it speaks of. *)
Ltac lang_inv :=
  unfold Strptime.dig19 in *;
  repeat match goal with
         | H : lang _ _ |- _ => progress cbn [lang] in H
         | H : exists _, _ |- _ => destruct H
         | H : _ /\ _ |- _ => destruct H
         | H : _ \/ _ |- _ => destruct H
         end;
  subst.

(** Every character a field expression has matched is a decimal digit. *)
Ltac digits :=
  repeat match goal with
         | H : chr_matches ?c ?ch = true |- _ =>
             apply chr_digit in H; [| cbn; lia]
         | H : rng_matches ?lo ?hi ?ch = true |- _ =>
             apply rng_digit in H; [| cbn; lia | cbn; lia]
         end;
  cbn;
  repeat match goal with
         | H : is_decimal ?ch = true |- _ => rewrite H; clear H
         end;
  try reflexivity.

Lemma lang_year (r : regex) (f : pystr) :
  Strptime.directive "Y" = Some r -> lang r f -> digits4 f = true.
Proof.
  intros E L. injection E as <-. lang_inv. digits.
Qed.

Lemma lang_month (r : regex) (f : pystr) :
  Strptime.directive "m" = Some r -> lang r f -> digits12 f = true.
Proof.
  intros E L. injection E as <-. lang_inv; digits.
Qed.

Lemma lang_day (r : regex) (f : pystr) :
  Strptime.directive "d" = Some r -> lang r f -> day_text f = true.
Proof.
  intros E L. injection E as <-. lang_inv.
  1-4: unfold day_text; digits.
  unfold day_text.
  match goal with
  | H : chr_matches _ _ = true |- _ =>
      apply chr_exact in H; [subst | reflexivity]
  end.
  digits.
Qed.

Lemma lang_hour (r : regex) (f : pystr) :
  Strptime.directive "H" = Some r -> lang r f -> digits12 f = true.
Proof.
  intros E L. injection E as <-. lang_inv; digits.
Qed.

Lemma lang_minute (r : regex) (f : pystr) :
  Strptime.directive "M" = Some r -> lang r f -> digits12 f = true.
Proof.
  intros E L. injection E as <-. lang_inv; digits.
Qed.

Lemma lang_second (r : regex) (f : pystr) :
  Strptime.directive "S" = Some r -> lang r f -> digits12 f = true.
Proof.
  intros E L. injection E as <-. lang_inv; digits.
Qed.

End Fields.

(** ** What [validate_date] accepts *)

Section Retention.

Lemma rbind_value_error {A B} (r : result A) (k : A -> result B) :
  raises_only_value_error r ->
  (forall a, raises_only_value_error (k a)) ->
  raises_only_value_error (rbind r k).
Proof.
  intros Hr Hk e. destruct r as [a|e']; cbn [rbind].
  - apply Hk.
  - intro H. apply Hr. congruence.
Qed.

Lemma int_of_str_value_error (s : pystr) :
  raises_only_value_error (int_of_str s).
Proof.
  intros e. unfold int_of_str.
  repeat match goal with
         | |- context [match ?x with _ => _ end] => destruct x
         end; congruence.
Qed.

Lemma check_date_value_error (y mo d : Z) :
  raises_only_value_error (Strptime.check_date_fields y mo d).
Proof.
  intros e. unfold Strptime.check_date_fields.
  repeat match goal with
         | |- context [if ?x then _ else _] => destruct x
         end; congruence.
Qed.

Lemma check_time_value_error (h mi s : Z) :
  raises_only_value_error (Strptime.check_time_fields h mi s).
Proof.
  intros e. unfold Strptime.check_time_fields.
  repeat match goal with
         | |- context [if ?x then _ else _] => destruct x
         end; congruence.
Qed.

Lemma field_value_error (g : groupdict) (name : ascii) (default : Z) :
  raises_only_value_error (Strptime.field g name default).
Proof.
  unfold Strptime.field. destruct (lookup g name).
  - apply int_of_str_value_error.
  - intros e. congruence.
Qed.

Lemma strptime_value_error (s : pystr) :
  raises_only_value_error (Strptime.strptime s "%Y-%m-%dT%H:%M:%SZ").
Proof.
  unfold Strptime.strptime, Strptime._strptime.
  destruct (Strptime.pattern _) as [re|] eqn:P; [| vm_compute in P; discriminate].
  apply rbind_value_error.
  - destruct (re_match re s) as [[[|? ?] g]|]; try (intros e; congruence).
    repeat (apply rbind_value_error; [apply field_value_error | intro]).
    apply rbind_value_error; [apply check_date_value_error | intro].
    intros e. congruence.
  - intros [[[[[y mo] d] h] mi] sec]. unfold Strptime.mk_datetime.
    apply rbind_value_error; [apply check_date_value_error | intro].
    apply rbind_value_error; [apply check_time_value_error | intro].
    intros e. congruence.
Qed.

(** [validate_date] raises nothing. *)
Lemma validate_date_total (s : pystr) :
  validate_date s = Ok true \/ validate_date s = Ok false.
Proof.
  unfold validate_date.
  pose proof (strptime_value_error s) as H.
  destruct (Strptime.strptime s _) as [dt|e]; [now left |].
  rewrite (H e eq_refl). now right.
Qed.

Lemma accepted_is_lenient (s : pystr) :
  validate_date s = Ok true -> lenient_iso s.
Proof.
  unfold validate_date. intro H.
  destruct (Strptime.strptime s _) as [dt|e] eqn:E;
    [| destruct e; discriminate].
  clear H. unfold Strptime.strptime in E.
  destruct (Strptime._strptime s _) as [fields|e] eqn:E2; [| discriminate].
  clear E. unfold Strptime._strptime in E2.
  destruct (Strptime.pattern _) as [re|] eqn:P; [| discriminate].
  destruct (re_match re s) as [[[|? ?] g]|] eqn:R; try discriminate.
  clear E2. apply re_match_whole in R.
  vm_compute in P. injection P as <-.
  destruct R as (y & s1 & -> & Hy & R).
  destruct R as (dash1 & s2 & -> & (ch1 & -> & Hdash1) & R).
  destruct R as (mo & s3 & -> & Hmo & R).
  destruct R as (dash2 & s4 & -> & (ch2 & -> & Hdash2) & R).
  destruct R as (d & s5 & -> & Hd & R).
  destruct R as (tt' & s6 & -> & (t & -> & Ht) & R).
  destruct R as (h & s7 & -> & Hh & R).
  destruct R as (col1 & s8 & -> & (ch3 & -> & Hcol1) & R).
  destruct R as (mi & s9 & -> & Hmi & R).
  destruct R as (col2 & s10 & -> & (ch4 & -> & Hcol2) & R).
  destruct R as (sec & s11 & -> & Hsec & R).
  destruct R as (zz & s12 & -> & (z & -> & Hz) & R).
  cbn [lang] in R. subst s12.
  apply chr_exact in Hdash1; [subst ch1 | reflexivity].
  apply chr_exact in Hdash2; [subst ch2 | reflexivity].
  apply chr_exact in Hcol1; [subst ch3 | reflexivity].
  apply chr_exact in Hcol2; [subst ch4 | reflexivity].
  apply chr_cases in Ht. apply chr_cases in Hz.
  exists y, mo, d, h, mi, sec, t, z.
  split; [reflexivity |].
  split; [exact (lang_year _ _ eq_refl Hy) |].
  split; [exact (lang_month _ _ eq_refl Hmo) |].
  split; [exact (lang_day _ _ eq_refl Hd) |].
  split; [exact (lang_hour _ _ eq_refl Hh) |].
  split; [exact (lang_minute _ _ eq_refl Hmi) |].
  split; [exact (lang_second _ _ eq_refl Hsec) |].
  split; [exact Ht | exact Hz].
Qed.

(** C1, as the script has it.  A retention string that the collector
    accepts has the form Y-M-DTh:m:sZ where Y is four digits, the other
    fields are one or two digits (a blank may stand before a one-digit
    day), T and Z may be in lower case, and a digit is any decimal digit
    of Unicode (general category Nd), not only one of 0 to 9.  A string
    that has not this form is rejected: the complaint is written and the
    prompt comes again. *)
Theorem C1_retention_form :
  (forall c r c',
      read_retention c = (Ok r, c') ->
      validate_date r = Ok true /\ lenient_iso r)
  /\ (forall s rest out,
        ~ lenient_iso s ->
        validate_date s = Ok false
        /\ read_retention {| stdin := s :: rest; stdout := out |}
           = read_retention
               {| stdin := rest;
                  stdout := (out ++ [retention_prompt])
                            ++ [retention_complaint ++ nl] |}).
Proof.
  split.
  - intros c r c' H. apply ask_accepts in H.
    split; [exact H | now apply accepted_is_lenient].
  - intros s rest out Hform.
    assert (Hrej : validate_date s = Ok false).
    { destruct (validate_date_total s) as [H | H]; [| exact H].
      elim Hform. now apply accepted_is_lenient. }
    split; [exact Hrej |].
    unfold read_retention. rewrite ask_run, Hrej. reflexivity.
Qed.

End Retention.

Lemma C1_retention_form_witness :
  lenient_iso (lit "2024-12-31T00:00:00Z")
  /\ validate_date (lit "31/12/2024") = Ok false.
Proof.
  split.
  - refine (proj2 (proj1 C1_retention_form
                     {| stdin := [lit "2024-12-31T00:00:00Z"]; stdout := [] |}
                     (lit "2024-12-31T00:00:00Z")
                     {| stdin := []; stdout := [retention_prompt] |} _)).
    vm_compute. reflexivity.
  - refine (proj1 (proj2 C1_retention_form (lit "31/12/2024") [] [] _)).
    intros (y & mo & d & h & mi & sec & t & z & Hs & Hy & _).
    destruct y as [|a [|b [|c [|e [|? ?]]]]]; try discriminate Hy.
    discriminate Hs.
Defined.

(** C1, as stated, fails: a date whose fields are not padded with zeros
    is accepted at the first prompt, and it has not the form
    YYYY-MM-DDTHH:MM:SSZ; so are a date with t and z in lower case, a
    date with a blank before the day, and a date whose year is written
    with the full-width digits U+FF10 to U+FF19. *)
Lemma C1_unpadded_date_accepted :
  strict_iso (lit "2024-1-5T1:2:3Z") = false
  /\ validate_date (lit "2024-1-5T1:2:3Z") = Ok true
  /\ read_retention {| stdin := [lit "2024-1-5T1:2:3Z"]; stdout := [] |}
     = (Ok (lit "2024-1-5T1:2:3Z"), {| stdin := []; stdout := [retention_prompt] |})
  /\ strict_iso (lit "2024-12-31t00:00:00z") = false
  /\ validate_date (lit "2024-12-31t00:00:00z") = Ok true
  /\ strict_iso (lit "2024-12- 5T00:00:00Z") = false
  /\ validate_date (lit "2024-12- 5T00:00:00Z") = Ok true
  /\ strict_iso ([65298; 65296; 65298; 65300]%N ++ lit "-12-31T00:00:00Z") = false
  /\ validate_date ([65298; 65296; 65298; 65300]%N ++ lit "-12-31T00:00:00Z")
     = Ok true.
Proof. repeat split; vm_compute; reflexivity. Qed.

(* ================================================================== *)
(** * The content generator *)

Section Content.

Lemma choices_spec (population : list pystr) (k : nat) (g : rng) :
  population <> [] ->
  length (fst (choices population k g)) = k
  /\ Forall (fun w => In w population) (fst (choices population k g)).
Proof.
  intro Hne. revert g. induction k as [|k IH]; intro g.
  - split; [reflexivity | constructor].
  - cbn [choices]. unfold randbelow. cbv beta iota.
    specialize (IH {| draws := draws g; pos := S (pos g) |}).
    destruct (choices population k _) as [rest g2].
    cbn [fst length] in *. destruct IH as [Hlen Hall].
    split; [now rewrite Hlen |].
    constructor; [| exact Hall].
    apply nth_In.
    assert (N.of_nat (length population) <> 0)%N
      by (destruct population; [congruence | simpl; lia]).
    pose proof (N.mod_lt (draws g (pos g)) (N.of_nat (length population))).
    lia.
Qed.

Lemma slice_to_length {A} (l : list A) (n : Z) :
  0 <= n -> Z.of_nat (length (slice_to l n)) = Z.min n (Z.of_nat (length l)).
Proof.
  intro Hn. unfold slice_to.
  destruct (0 <=? n) eqn:E; [| apply Z.leb_gt in E; lia].
  rewrite length_firstn. lia.
Qed.

(** C2. For a requested size of [size_kb] KiB, at least 1, the text
    before truncation is [size_kb * 200] words of the vocabulary joined by
    single blanks; the text returned has at most [size_kb * 1024]
    characters, and exactly that many whenever the text before truncation
    has at least that many. *)
Theorem C2_payload_length (size_kb : Z) (g : rng) :
  1 <= size_kb ->
  let content := fst (generated_content size_kb g) in
  let payload := fst (generate_readable_text size_kb g) in
  (exists chosen,
      length chosen = Z.to_nat (size_kb * 200)
      /\ Forall (fun w => In w words) chosen
      /\ content = join (lit " ") chosen)
  /\ Z.of_nat (length payload) <= size_kb * 1024
  /\ (size_kb * 1024 <= Z.of_nat (length content) ->
      Z.of_nat (length payload) = size_kb * 1024).
Proof.
  intros Hsize content payload. subst content payload.
  unfold generate_readable_text, generated_content.
  pose proof (choices_spec words (Z.to_nat (size_kb * 200)) g) as [Hlen Hall];
    [discriminate |].
  destruct (choices words (Z.to_nat (size_kb * 200)) g) as [chosen g'].
  cbn [fst] in *.
  split; [exists chosen; auto |].
  rewrite slice_to_length by lia.
  split; lia.
Qed.

Lemma C2_payload_length_witness :
  1 <= 1 /\ Z.of_nat (length (fst (generate_readable_text 1 zero_rng))) <= 1 * 1024.
Proof.
  split; [lia |].
  exact (proj1 (proj2 (C2_payload_length 1 zero_rng ltac:(lia)))).
Defined.

End Content.

(* ================================================================== *)
(** * The upload tasks *)

Section Uploads.

Variable w : world.
Variables bucket_name retention prefix : pystr.

Lemma randint_range (a b : Z) (g : rng) :
  a <= b -> a <= fst (randint a b g) <= b.
Proof.
  intro Hab. unfold randint, randbelow. cbn [fst].
  assert (draws g (pos g) mod Z.to_N (b - a + 1) < Z.to_N (b - a + 1))%N
    by (apply N.mod_lt; lia).
  revert H. generalize (draws g (pos g) mod Z.to_N (b - a + 1))%N.
  intros x Hx. lia.
Qed.

(** What a call of [create_object] sends. *)
Lemma create_object_request (s : s3_client) (b k r : pystr) (g : rng) :
  exists size_kb g',
    1 <= size_kb <= 1024
    /\ request (create_object s b k r g)
       = {| Bucket := b; Key := k;
            Body := fst (generate_readable_text size_kb g');
            ObjectLockMode := lit "GOVERNANCE";
            ObjectLockRetainUntilDate := r |}.
Proof.
  unfold create_object.
  pose proof (randint_range 1 1024 g ltac:(lia)) as Hr.
  destruct (randint 1 1024 g) as [size_kb g1]. simpl in Hr.
  exists size_kb, g1. split; [exact Hr |].
  destruct (generate_readable_text size_kb g1) as [content g2]. simpl.
  destruct (put_object s _); reflexivity.
Qed.

Lemma execute_Forall2 (Q : pystr * pystr * pystr -> task_run -> Prop)
  (s : s3_client) (tr : nat -> rng) :
  (forall b k r g, Q (b, k, r) (create_object s b k r g)) ->
  forall subs n, Forall2 Q subs (execute s tr n subs).
Proof.
  intros HQ subs. induction subs as [|[[b k] r] subs IH]; intro n; simpl.
  - constructor.
  - constructor; [apply HQ | apply IH].
Qed.

Lemma Forall2_map_eq {A B C} (f : A -> C) (g : B -> C) (l : list A) (l' : list B) :
  Forall2 (fun a b => f a = g b) l l' -> map f l = map g l'.
Proof.
  induction 1; simpl; congruence.
Qed.

Lemma Forall2_Forall_r {A B} (Q : A -> B -> Prop) (P : B -> Prop)
  (l : list A) (l' : list B) :
  (forall a b, In a l -> Q a b -> P b) -> Forall2 Q l l' -> Forall P l'.
Proof.
  intros H F. induction F; constructor.
  - apply (H x); [now left | assumption].
  - apply IHF. intros a b Ha. apply H. now right.
Qed.

Lemma futures_keys (num_objects start_index : Z) :
  map (fun f => Key (request f))
      (futures_of w bucket_name retention num_objects prefix start_index)
  = map (fun t => snd (fst t))
        (fst (submissions bucket_name retention num_objects prefix start_index)).
Proof.
  unfold futures_of.
  symmetry. apply Forall2_map_eq.
  apply execute_Forall2. intros b k r g.
  destruct (create_object_request (s3 w) b k r g) as (sz & g' & _ & ->).
  reflexivity.
Qed.


Lemma range_shift (a n : Z) :
  range a (a + n) = map (fun k => a + Z.of_nat k) (seq 0 (Z.to_nat n)).
Proof.
  unfold range. now replace (a + n - a) with n by lia.
Qed.

Lemma in_range (a b i : Z) : In i (range a b) <-> a <= i < b.
Proof.
  unfold range. rewrite in_map_iff. split.
  - intros (k & <- & Hk). apply in_seq in Hk. lia.
  - intro H. exists (Z.to_nat (i - a)). split; [lia | apply in_seq; lia].
Qed.

Lemma range_empty (a b : Z) : b <= a -> range a b = [].
Proof.
  intro H. unfold range. now replace (Z.to_nat (b - a)) with 0%nat by lia.
Qed.

Lemma map_seq_from {A} (f : nat -> A) (len : nat) :
  forall start : nat,
    map f (seq start len) = map (fun k => f (start + k)%nat) (seq 0 len).
Proof.
  revert f. induction len as [|len IH]; intros f start; [reflexivity |].
  cbn [seq map]. rewrite Nat.add_0_r. f_equal.
  rewrite (IH f (S start)), (IH (fun k => f (start + k)%nat) 1%nat).
  apply map_ext. intro k. f_equal. lia.
Qed.

Lemma range_app (a m b : Z) :
  a <= m <= b -> range a b = range a m ++ range m b.
Proof.
  intro H. unfold range.
  replace (Z.to_nat (b - a)) with (Z.to_nat (m - a) + Z.to_nat (b - m))%nat by lia.
  rewrite seq_app, map_app. f_equal.
  rewrite map_seq_from. apply map_ext. intro k. lia.
Qed.

Lemma range_first (a b : Z) : a < b -> range a b = a :: range (a + 1) b.
Proof.
  intro H. rewrite (range_app a (a + 1) b) by lia.
  unfold range at 1. replace (a + 1 - a) with 1 by lia.
  change (Z.to_nat 1) with 1%nat. cbn [seq map app]. f_equal. lia.
Qed.

Lemma range_NoDup (a b : Z) : NoDup (range a b).
Proof.
  unfold range. apply Injective_map_NoDup; [| apply seq_NoDup].
  intros j k H. lia.
Qed.

(** The loop over indices that [str] writes submits them all. *)
Lemma submit_each_all (indices : list Z) :
  Forall (fun i => 0 <= i < 10 ^ max_str_digits) indices ->
  submit_each bucket_name retention prefix indices
  = (map (fun i => (bucket_name, prefix ++ decimal_text i ++ lit ".txt", retention))
         indices,
     Ok tt).
Proof.
  induction 1 as [|i rest Hi _ IH]; cbn [submit_each map]; [reflexivity |].
  now rewrite (object_key_ok prefix i Hi), IH.
Qed.

(** The loop stops at the first index [str] refuses. *)
Lemma submit_each_stops (before after : list Z) (i : Z) :
  Forall (fun i => 0 <= i < 10 ^ max_str_digits) before ->
  10 ^ max_str_digits <= i ->
  submit_each bucket_name retention prefix (before ++ i :: after)
  = (map (fun i => (bucket_name, prefix ++ decimal_text i ++ lit ".txt", retention))
         before,
     Raise ValueError).
Proof.
  intros Hbefore Hi.
  induction Hbefore as [|j rest Hj _ IH]; cbn [submit_each map app].
  - now rewrite (object_key_raises prefix i Hi).
  - now rewrite (object_key_ok prefix j Hj), IH.
Qed.

(** Lines 171-173 for a first index that is not negative: the indices
    submitted are those from the first one up to [stop]. *)
Lemma submissions_spec (num_objects start_index : Z) :
  0 <= start_index ->
  let limit := 10 ^ max_str_digits in
  let all := (start_index + num_objects <=? limit) || (num_objects <=? 0) in
  let stop := if all then start_index + num_objects
              else Z.max start_index limit in
  submissions bucket_name retention num_objects prefix start_index
  = (map (fun i => (bucket_name, prefix ++ decimal_text i ++ lit ".txt", retention))
         (range start_index stop),
     if all then Ok tt else Raise ValueError).
Proof.
  intros Hstart. cbv zeta. unfold submissions.
  pose proof submit_each_all as Hall. pose proof submit_each_stops as Hstops.
  revert Hall Hstops. generalize (10 ^ max_str_digits).
  intros L Hall Hstops.
  destruct (Z.leb_spec (start_index + num_objects) L) as [Hle | Hgt];
    cbn [orb].
  - apply Hall. apply Forall_forall. intros i Hi. apply in_range in Hi. lia.
  - destruct (Z.leb_spec num_objects 0) as [Hzero | Hpos].
    + rewrite range_empty by lia. reflexivity.
    + rewrite (range_app start_index (Z.max start_index L)
                 (start_index + num_objects)) by lia.
      rewrite (range_first (Z.max start_index L)) by lia.
      apply Hstops; [| lia].
      apply Forall_forall. intros i Hi. apply in_range in Hi. lia.
Qed.

Lemma keys_of_range (num_objects start_index stop : Z)
  (r : result unit) :
  submissions bucket_name retention num_objects prefix start_index
  = (map (fun i => (bucket_name, prefix ++ decimal_text i ++ lit ".txt", retention))
         (range start_index stop), r) ->
  map (fun f => Key (request f))
      (futures_of w bucket_name retention num_objects prefix start_index)
  = map (fun i => prefix ++ decimal_text i ++ lit ".txt") (range start_index stop).
Proof.
  intro H. rewrite futures_keys, H. cbn [fst]. now rewrite map_map.
Qed.

(** C3, as the script has it.  For a first index [N] that is not
    negative and a count [C]: when every index from [N] to [N + C - 1]
    has at most 4300 digits, the loop of the submissions completes and
    the keys submitted are [P ++ str(i) ++ ".txt"] for the [i] from [N]
    to [N + C - 1], each once; when an index has more, line 172 raises
    [ValueError] at the first such index and the keys submitted are
    those of the indices before it.  The keys submitted are pairwise
    distinct in both cases. *)
Theorem C3_object_keys (N C : Z) :
  0 <= N ->
  let keys := map (fun f => Key (request f))
                  (futures_of w bucket_name retention C prefix N) in
  let loop := snd (submissions bucket_name retention C prefix N) in
  (N + C <= 10 ^ max_str_digits ->
   loop = Ok tt
   /\ keys = map (fun k => prefix ++ decimal_text (N + Z.of_nat k) ++ lit ".txt")
                 (seq 0 (Z.to_nat C))
   /\ (forall key, In key keys <->
         exists i, N <= i < N + C /\ key = prefix ++ decimal_text i ++ lit ".txt")
   /\ length keys = Z.to_nat C)
  /\ (0 < C -> 10 ^ max_str_digits < N + C ->
      loop = Raise ValueError
      /\ (forall key, In key keys <->
            exists i, N <= i < 10 ^ max_str_digits
                      /\ key = prefix ++ decimal_text i ++ lit ".txt"))
  /\ NoDup keys.
Proof.
  intros HN keys loop.
  pose proof (submissions_spec C N HN) as Hspec. cbv zeta in Hspec.
  pose proof (keys_of_range C N _ _ Hspec) as Hkeys. fold keys in Hkeys.
  assert (Hloop : loop = snd (submissions bucket_name retention C prefix N))
    by reflexivity.
  rewrite Hspec in Hloop. cbn [snd] in Hloop. clear Hspec.
  clearbody keys loop.
  revert Hkeys Hloop. generalize (10 ^ max_str_digits). intros L Hkeys Hloop.
  split; [| split].
  - intro Hle. destruct (Z.leb_spec (N + C) L) as [_ |]; [| lia].
    cbn [orb] in Hkeys, Hloop. subst keys.
    split; [exact Hloop |]. split; [| split].
    + rewrite range_shift, map_map. reflexivity.
    + intro key. rewrite in_map_iff. split.
      * intros (i & <- & Hi). apply in_range in Hi. exists i. auto.
      * intros (i & Hi & ->). exists i. split; [reflexivity |].
        now apply in_range.
    + rewrite length_map. unfold range. rewrite length_map, length_seq.
      f_equal. lia.
  - intros Hpos Hgt.
    destruct (Z.leb_spec (N + C) L) as [| _]; [lia |].
    destruct (Z.leb_spec C 0) as [| _]; [lia |].
    cbn [orb] in Hkeys, Hloop. subst keys.
    split; [exact Hloop |].
    intro key. rewrite in_map_iff. split.
    + intros (i & <- & Hi). apply in_range in Hi. exists i. split; [lia | auto].
    + intros (i & Hi & ->). exists i. split; [reflexivity |].
      apply in_range. lia.
  - subst keys. apply Injective_map_NoDup; [| apply range_NoDup].
    intros j k H. now apply key_text_inj in H.
Qed.

End Uploads.

Lemma C3_object_keys_witness :
  In (lit "test-11.txt")
     (map (fun f => Key (request f))
          (futures_of (sample_world sample_s3 [1; 0]%nat)
             (lit "alpha") (lit "2024-12-31T00:00:00Z") 2 (lit "test-") 10)).
Proof.
  apply (proj1 (proj2 (proj2
           (proj1 (C3_object_keys (sample_world sample_s3 [1; 0]%nat)
                     (lit "alpha") (lit "2024-12-31T00:00:00Z") (lit "test-")
                     10 2 ltac:(lia))
                  (Z.lt_le_incl _ _ (limit_is_large 12 ltac:(vm_compute; discriminate))))))).
  exists 11. split; [lia | reflexivity].
Defined.

(* ================================================================== *)
(** * Requests, completion and the summary *)

Section Dispatch.

Variable w : world.
Variables bucket_name retention prefix : pystr.
Variables num_objects start_index : Z.

Let futures := futures_of w bucket_name retention num_objects prefix start_index.


(** ** Completion order *)

Lemma as_completed_in_order (l : list task_run) :
  as_completed (seq 0 (length l)) l = l.
Proof.
  unfold as_completed.
  enough (G : forall pre,
             flat_map (fun n => match nth_error (pre ++ l) n with
                                | Some f => [f]
                                | None => []
                                end) (seq (length pre) (length l)) = l)
    by exact (G []).
  induction l as [|f l IH]; intro pre; [reflexivity |].
  cbn [length seq flat_map].
  rewrite nth_error_app2, Nat.sub_diag by lia. cbn [nth_error app].
  f_equal.
  specialize (IH (pre ++ [f])).
  rewrite <- app_assoc, length_app, Nat.add_1_r in IH. exact IH.
Qed.

Lemma as_completed_permutation (order : list nat) (l : list task_run) :
  Permutation order (seq 0 (length l)) ->
  Permutation (as_completed order l) l.
Proof.
  intro H. rewrite <- (as_completed_in_order l) at 2.
  unfold as_completed. now apply Permutation_flat_map.
Qed.

Lemma filter_length_permutation {A} (p : A -> bool) (l l' : list A) :
  Permutation l l' -> length (filter p l) = length (filter p l').
Proof.
  induction 1; cbn [filter]; repeat destruct (p _); cbn [length]; congruence.
Qed.

Lemma wait_results_ok (completed : list task_run) :
  forallb succeeded completed = true -> wait_results completed = Ok tt.
Proof.
  induction completed as [|f l IH]; cbn [forallb wait_results]; [reflexivity |].
  unfold succeeded at 1.
  destruct (outcome f) as [[]|e]; cbn; [exact IH | discriminate].
Qed.

Lemma wait_results_raise (completed : list task_run) :
  forallb succeeded completed = false ->
  exists e f, In f completed /\ outcome f = Raise e
              /\ wait_results completed = Raise e.
Proof.
  induction completed as [|f l IH]; cbn [forallb wait_results]; [discriminate |].
  unfold succeeded at 1. destruct (outcome f) as [[]|e] eqn:E; cbn.
  - intro H. destruct (IH H) as (e & f' & Hin & Hf' & Hw).
    exists e, f'. split; [now right | split; assumption].
  - intros _. exists e, f. split; [now left | split; [exact E | reflexivity]].
Qed.

Lemma create_object_printed (s : s3_client) (b k r : pystr) (g : rng) :
  let f := create_object s b k r g in
  printed f = if succeeded f then [lit "."] else [].
Proof.
  unfold create_object, succeeded.
  destruct (randint 1 1024 g) as [size_kb g1].
  destruct (generate_readable_text size_kb g1) as [content g2].
  destruct (put_object s _); reflexivity.
Qed.

Lemma progress_marks (l : list task_run) :
  Forall (fun f => printed f = if succeeded f then [lit "."] else []) l ->
  concat (map printed l) = repeat (lit ".") (length (filter succeeded l)).
Proof.
  induction 1 as [|f l Hf _ IH]; [reflexivity |].
  cbn [map concat filter]. rewrite Hf, IH.
  destruct (succeeded f); reflexivity.
Qed.

Lemma futures_printed :
  Forall (fun f => printed f = if succeeded f then [lit "."] else []) futures.
Proof.
  subst futures. unfold futures_of.
  eapply Forall2_Forall_r; [| apply execute_Forall2 with
    (Q := fun _ f => printed f = if succeeded f then [lit "."] else []);
    intros; apply create_object_printed].
  auto.
Qed.

Lemma forallb_permutation {A} (p : A -> bool) (l l' : list A) :
  Permutation l l' -> forallb p l = forallb p l'.
Proof.
  induction 1; cbn [forallb]; repeat destruct (p _); cbn; congruence.
Qed.

(** How the loop of the submissions ends, for a first index that is not
    negative. *)
Lemma submissions_end :
  0 <= start_index ->
  snd (submissions bucket_name retention num_objects prefix start_index)
  = if (start_index + num_objects <=? 10 ^ max_str_digits) || (num_objects <=? 0)
    then Ok tt else Raise ValueError.
Proof.
  intro Hstart.
  pose proof (submissions_spec bucket_name retention prefix num_objects
                start_index Hstart) as Hspec.
  cbv zeta in Hspec. now rewrite Hspec.
Qed.

(** C6, as the script has it, for a first index and a count as the
    prompts return them.  When line 172 has written every key and every
    upload returns, the script ends by printing the summary, after the
    progress marks.  When an upload raises, the script ends with that
    exception once the pool has run all the uploads, and the summary is
    not printed.  When an index has more than 4300 digits, line 172
    raises [ValueError]: the script ends with it once the pool has run
    the uploads submitted before, and the summary is not printed. *)
Theorem C6_summary_only_on_success (c : console) :
  Permutation (completion_order w) (seq 0 (length futures)) ->
  0 <= start_index < 10 ^ max_str_digits ->
  0 <= num_objects < 10 ^ max_str_digits ->
  let marks := repeat (lit ".") (length (filter succeeded futures)) in
  let run := upload_and_report w bucket_name retention num_objects prefix start_index c in
  (start_index + num_objects <= 10 ^ max_str_digits ->
   (forallb succeeded futures = true ->
    run = (Ok tt,
           {| stdin := stdin c;
              stdout := (stdout c ++ marks)
                        ++ [summary num_objects prefix bucket_name ++ nl] |}))
   /\ (forallb succeeded futures = false ->
       exists e,
         (exists f, In f futures /\ outcome f = Raise e)
         /\ run = (Raise e, {| stdin := stdin c; stdout := stdout c ++ marks |})))
  /\ (10 ^ max_str_digits < start_index + num_objects ->
      run = (Raise ValueError,
             {| stdin := stdin c; stdout := stdout c ++ marks |})).
Proof.
  intros Hperm Hstart Hnum marks run.
  pose proof (as_completed_permutation _ _ Hperm) as Hc.
  assert (Hmarks : concat (map printed (as_completed (completion_order w) futures))
                   = marks).
  { subst marks. rewrite <- (filter_length_permutation succeeded _ _ Hc).
    apply progress_marks.
    apply Forall_forall. intros f Hin.
    apply (Permutation_in _ Hc) in Hin.
    revert f Hin. apply Forall_forall. exact futures_printed. }
  pose proof (submissions_end (proj1 Hstart)) as Hend.
  subst run. unfold upload_and_report, bind, create_objects.
  fold futures. rewrite Hmarks, Hend.
  rewrite <- (forallb_permutation succeeded _ _ Hc).
  clear Hend. revert Hstart Hnum. generalize (10 ^ max_str_digits).
  intros L Hstart Hnum.
  split.
  - intro Hle. destruct (Z.leb_spec (start_index + num_objects) L); [| lia].
    cbn [orb rbind]. split; intro Hall.
    + rewrite (wait_results_ok _ Hall). reflexivity.
    + destruct (wait_results_raise _ Hall) as (e & f & Hin & Hf & ->).
      exists e. split; [| reflexivity].
      exists f. split; [| exact Hf]. now apply (Permutation_in _ Hc).
  - intro Hgt. destruct (Z.leb_spec (start_index + num_objects) L); [lia |].
    destruct (Z.leb_spec num_objects 0); [lia |].
    reflexivity.
Qed.

End Dispatch.

Lemma C6_summary_only_on_success_witness :
  upload_and_report (sample_world sample_s3 [1; 0]%nat)
    (lit "alpha") (lit "2024-12-31T00:00:00Z") 2 (lit "test-") 10 empty_console
  = (Ok tt,
     {| stdin := [];
        stdout := [lit "."; lit "."; summary 2 (lit "test-") (lit "alpha") ++ nl] |})
  /\ exists e,
       upload_and_report (sample_world denying_s3 [1; 0]%nat)
         (lit "alpha") (lit "2024-12-31T00:00:00Z") 2 (lit "test-") 10 empty_console
       = (Raise e, empty_console).
Proof.
  split.
  - refine (proj1 (proj1 (C6_summary_only_on_success (sample_world sample_s3 [1; 0]%nat)
                     (lit "alpha") (lit "2024-12-31T00:00:00Z") (lit "test-") 2 10
                     empty_console _
                     (within_limit 10 ltac:(unfold max_str_digits; lia))
                     (within_limit 2 ltac:(unfold max_str_digits; lia)))
                     (Z.lt_le_incl _ _ (limit_is_large 12 ltac:(vm_compute; discriminate)))) _).
    + vm_compute. apply perm_swap.
    + vm_compute. reflexivity.
  - destruct (proj2 (proj1 (C6_summary_only_on_success (sample_world denying_s3 [1; 0]%nat)
                       (lit "alpha") (lit "2024-12-31T00:00:00Z") (lit "test-") 2 10
                       empty_console ltac:(vm_compute; apply perm_swap)
                       (within_limit 10 ltac:(unfold max_str_digits; lia))
                       (within_limit 2 ltac:(unfold max_str_digits; lia)))
                       (Z.lt_le_incl _ _ (limit_is_large 12 ltac:(vm_compute; discriminate))))
                    ltac:(vm_compute; reflexivity))
      as (e & _ & Hrun).
    exists e. exact Hrun.
Defined.

(** C6, as stated, fails: a run whose only upload is refused ends with the
    exception of the upload, and nothing at all has been printed. *)
Lemma C6_no_summary_after_failure :
  upload_and_report (sample_world denying_s3 [0]%nat)
    (lit "alpha") (lit "2024-12-31T00:00:00Z") 1 (lit "test-") 10 empty_console
  = (Raise (ClientError (lit "AccessDenied")), empty_console).
Proof. vm_compute. reflexivity. Qed.

(* ================================================================== *)
(** * Two runs of the script *)

(** Second bucket of the two with object lock, two objects from index 10:
    the script returns, having left the rest of the input alone and
    written the summary last. *)
Example script_sample_run :
  let run := script (sample_world sample_s3 [1; 0]%nat)
               {| stdin := map lit ["2"; "tomorrow"; "2024-12-31T00:00:00Z"; "2";
                                    "test-"; "ten"; "10"; "left"]%string;
                  stdout := [] |} in
  fst run = Ok tt
  /\ stdin (snd run) = [lit "left"]
  /\ last (stdout (snd run)) [] = summary 2 (lit "test-") (lit "gamma") ++ nl.
Proof. vm_compute. repeat split; reflexivity. Qed.

(** No bucket at all: the script exits before any prompt. *)
Example script_without_buckets :
  script (sample_world {| list_buckets := Ok [];
                          get_object_lock_configuration := fun _ => Ok [];
                          put_object := fun _ => Ok tt |} [])
         {| stdin := [lit "1"]; stdout := [] |}
  = (Raise SystemExit,
     {| stdin := [lit "1"];
        stdout := [lit "All Existing buckets list:" ++ nl;
                   (tab ++ lit "- None") ++ nl;
                   lit "Exiting because no bucket available on the system..." ++ nl] |}).
Proof. vm_compute. reflexivity. Qed.

(* ================================================================== *)
(** * How the script ends before the uploads *)

Section EarlyEnd.

Variable w : world.

(** X1. When the store lists no bucket, the script says so and exits
    before any prompt: nothing is read. *)
Theorem script_exits_without_buckets (c : console) :
  list_buckets (s3 w) = Ok [] ->
  script w c
  = (Raise SystemExit,
     {| stdin := stdin c;
        stdout := stdout c
                  ++ [lit "All Existing buckets list:" ++ nl;
                      (tab ++ lit "- None") ++ nl;
                      lit "Exiting because no bucket available on the system..." ++ nl] |}).
Proof.
  intro Hlist. unfold script.
  unfold bind at 1. unfold lift at 1. rewrite Hlist.
  unfold bind at 1. unfold lift at 1. cbn [check_object_lock].
  unfold bind at 1. unfold show_buckets, bind, print, lift, write.
  cbn [stdin stdout]. now rewrite <- !app_assoc.
Qed.

(** X2. When the listing of the buckets raises, or when a query of the
    lock configuration raises something else than the client error
    ObjectLockConfigurationNotFoundError, the script ends with that
    exception and has written and read nothing: the buckets are shown only
    once all of them have been queried. *)
Theorem script_silent_when_discovery_fails (c : console) (e : exn) :
  list_buckets (s3 w) = Raise e
  \/ (exists buckets,
        list_buckets (s3 w) = Ok buckets
        /\ check_object_lock (s3 w) buckets [] = Raise e) ->
  script w c = (Raise e, c).
Proof.
  intros [Hlist | (buckets & Hlist & Hcheck)]; unfold script.
  - unfold bind at 1. unfold lift at 1. now rewrite Hlist.
  - unfold bind at 1. unfold lift at 1. rewrite Hlist.
    unfold bind at 1. unfold lift at 1. now rewrite Hcheck.
Qed.

(** X3. At the selection, a line that [int] does not read ends the script
    with [ValueError]: this prompt, unlike the next ones, does not ask
    again. *)
Theorem select_bucket_not_a_number (enabled : list pystr) (line : pystr)
  (rest out : list pystr) :
  (forall k, int_of_str line <> Ok k) ->
  select_bucket enabled {| stdin := line :: rest; stdout := out |}
  = (Raise ValueError, {| stdin := rest; stdout := out ++ [select_prompt] |}).
Proof.
  intro Hline. rewrite select_bucket_run.
  pose proof (int_of_str_value_error line) as Hve.
  destruct (int_of_str line) as [k|e]; [now elim (Hline k) |].
  rewrite (Hve e eq_refl). reflexivity.
Qed.

(** X4. When there are buckets and none of them has object lock, the
    script cannot go on: it reads at most one line, for the selection,
    and ends with [EOFError], [ValueError] or [IndexError]. *)
Theorem script_stops_without_locked_bucket (buckets : list bucket) (c : console) :
  list_buckets (s3 w) = Ok buckets ->
  buckets <> [] ->
  check_object_lock (s3 w) buckets [] = Ok [] ->
  exists e c',
    script w c = (Raise e, c')
    /\ (e = EOFError \/ e = ValueError \/ e = IndexError)
    /\ stdin c' = tl (stdin c).
Proof.
  intros Hlist Hne Hcheck.
  destruct (listing_run buckets [] Hne) as (shown & _ & Hrun).
  assert (Hscript :
    script w c
    = (v <- select_bucket [] ;;
       '(retention, num_objects, prefix, start_index) <- read_parameters ;;
       upload_and_report w v retention num_objects prefix start_index)
        {| stdin := stdin c; stdout := stdout c ++ shown |}).
  { unfold script.
    unfold bind at 1. unfold lift at 1. rewrite Hlist.
    unfold bind at 1. unfold lift at 1. rewrite Hcheck.
    specialize (Hrun c). unfold bind in Hrun |- *.
    destruct (show_buckets buckets c) as [[[]|e] c1]; [| discriminate].
    destruct (show_choices [] c1) as [[[]|e] c2]; [| discriminate].
    now injection Hrun as ->. }
  rewrite Hscript. unfold bind at 1.
  destruct (stdin c) as [|line rest] eqn:Hin.
  - exists EOFError. eexists. split; [| split; [left; reflexivity |]].
    + unfold select_bucket, bind, input. cbn [stdin stdout]. reflexivity.
    + reflexivity.
  - rewrite select_bucket_run.
    pose proof (int_of_str_value_error line) as Hve.
    destruct (int_of_str line) as [k|e]; cbn [rbind].
    + rewrite getitem_out_of_range by (cbn [length]; lia).
      exists IndexError. eexists. split; [reflexivity |]. split; auto.
    + rewrite (Hve e eq_refl).
      exists ValueError. eexists. split; [reflexivity |]. split; auto.
Qed.

End EarlyEnd.

Lemma script_exits_without_buckets_witness :
  fst (script (sample_world {| list_buckets := Ok [];
                               get_object_lock_configuration := fun _ => Ok [];
                               put_object := fun _ => Ok tt |} [])
         {| stdin := [lit "1"]; stdout := [] |})
  = Raise SystemExit.
Proof.
  now rewrite script_exits_without_buckets.
Defined.

Lemma script_silent_when_discovery_fails_witness :
  script (sample_world denying_s3 []) {| stdin := [lit "1"]; stdout := [] |}
  = (Raise (ClientError (lit "AccessDenied")),
     {| stdin := [lit "1"]; stdout := [] |}).
Proof.
  apply script_silent_when_discovery_fails.
  right. exists three_buckets. split; reflexivity.
Defined.

Lemma select_bucket_not_a_number_witness :
  select_bucket [lit "alpha"] {| stdin := [lit "one"]; stdout := [] |}
  = (Raise ValueError, {| stdin := []; stdout := [select_prompt] |}).
Proof.
  apply select_bucket_not_a_number. intros k H. discriminate H.
Defined.

Lemma script_stops_without_locked_bucket_witness :
  exists e c',
    script (sample_world {| list_buckets := Ok three_buckets;
                            get_object_lock_configuration := fun _ => Ok [];
                            put_object := fun _ => Ok tt |} [])
           {| stdin := [lit "1"; lit "2"]; stdout := [] |}
    = (Raise e, c')
    /\ stdin c' = [lit "2"].
Proof.
  destruct (script_stops_without_locked_bucket
              (sample_world {| list_buckets := Ok three_buckets;
                               get_object_lock_configuration := fun _ => Ok [];
                               put_object := fun _ => Ok tt |} [])
              three_buckets {| stdin := [lit "1"; lit "2"]; stdout := [] |}
              eq_refl ltac:(discriminate) eq_refl)
    as (e & c' & Hrun & _ & Hin).
  exists e, c'. split; [exact Hrun | exact Hin].
Defined.

(* ================================================================== *)
(** * The client *)

Section Client.

Variable e0 : environ.
Variable l0 : boto3.



(** X6. When AWS_ACCESS_KEY_ID or AWS_SECRET_ACCESS_KEY is not set,
    [init_s3_client] does not call the library: whatever the library is, it
    returns [None] after the line of the unexpected errors, which names
    the first of the two variables that is missing. *)
Theorem init_s3_client_missing_key (c : console) :
  AWS_ACCESS_KEY_ID e0 = None \/ AWS_SECRET_ACCESS_KEY e0 = None ->
  init_s3_client e0 l0 c
  = (Ok None,
     write ((lit "An unexpected error occurred: "
             ++ match AWS_ACCESS_KEY_ID e0 with
                | Some _ => lit "AWS_SECRET_ACCESS_KEY"
                | None => lit "AWS_ACCESS_KEY_ID"
                end
             ++ lit " is not a string") ++ nl) c).
Proof.
  unfold init_s3_client, connect.
  intros [H | H].
  - rewrite H. reflexivity.
  - destruct (AWS_ACCESS_KEY_ID e0); [rewrite H |]; reflexivity.
Qed.

(** X7. A variable AWS_ENDPOINT_URL that is not set is not reported: the
    endpoint is then the text [http://None], and [init_s3_client] does
    with it what it does with any endpoint. *)
Theorem init_s3_client_unset_endpoint (c : console) :
  AWS_ENDPOINT_URL e0 = None ->
  init_s3_client e0 l0 c
  = init_s3_client
      {| AWS_ENDPOINT_URL := Some (lit "None");
         AWS_ACCESS_KEY_ID := AWS_ACCESS_KEY_ID e0;
         AWS_SECRET_ACCESS_KEY := AWS_SECRET_ACCESS_KEY e0;
         AWS_DEFAULT_REGION := AWS_DEFAULT_REGION e0 |} l0 c
  /\ forall s3_client access_key_id secret_access_key buckets,
       AWS_ACCESS_KEY_ID e0 = Some access_key_id ->
       AWS_SECRET_ACCESS_KEY e0 = Some secret_access_key ->
       client l0 {| region_name := AWS_DEFAULT_REGION e0;
                    endpoint_url := lit "http://None";
                    aws_access_key_id := access_key_id;
                    aws_secret_access_key := secret_access_key |}
       = Ok s3_client ->
       list_buckets s3_client = Ok buckets ->
       fst (init_s3_client e0 l0 c) = Ok (Some s3_client).
Proof.
  intro Hurl. split.
  - unfold init_s3_client, connect. cbn [AWS_ENDPOINT_URL AWS_ACCESS_KEY_ID
      AWS_SECRET_ACCESS_KEY AWS_DEFAULT_REGION]. now rewrite Hurl.
  - intros s3_client access_key_id secret_access_key buckets Hk Hs Hclient Hprobe.
    unfold init_s3_client, connect. rewrite Hurl, Hk, Hs.
    cbn [format_getenv].
    change (lit "http://" ++ lit "None") with (lit "http://None").
    rewrite Hclient, Hprobe. reflexivity.
Qed.

End Client.

Section Program.

Variable st : setting.


End Program.

(** A probe interrupted from the keyboard: no handler of the function
    runs, and nothing is written. *)
Example init_s3_client_interrupted :
  init_s3_client sample_environ
    {| client := fun _ =>
         Ok {| list_buckets := Raise (BaseOnly (lit "KeyboardInterrupt"));
               get_object_lock_configuration := fun _ => Ok [];
               put_object := fun _ => Ok tt |};
       exn_text := fun _ => [] |}
    empty_console
  = (Raise (BaseOnly (lit "KeyboardInterrupt")), empty_console).
Proof. reflexivity. Qed.

Lemma init_s3_client_missing_key_witness :
  init_s3_client
    {| AWS_ENDPOINT_URL := Some (lit "10.0.0.1");
       AWS_ACCESS_KEY_ID := None;
       AWS_SECRET_ACCESS_KEY := None;
       AWS_DEFAULT_REGION := None |} sample_boto3 empty_console
  = (Ok None,
     {| stdin := [];
        stdout := [lit "An unexpected error occurred: AWS_ACCESS_KEY_ID is not a string"
                   ++ nl] |}).
Proof.
  exact (init_s3_client_missing_key
           {| AWS_ENDPOINT_URL := Some (lit "10.0.0.1");
              AWS_ACCESS_KEY_ID := None;
              AWS_SECRET_ACCESS_KEY := None;
              AWS_DEFAULT_REGION := None |} sample_boto3 empty_console
           (or_introl eq_refl)).
Defined.

Lemma init_s3_client_unset_endpoint_witness :
  init_s3_client
    {| AWS_ENDPOINT_URL := None;
       AWS_ACCESS_KEY_ID := Some (lit "key");
       AWS_SECRET_ACCESS_KEY := Some (lit "secret");
       AWS_DEFAULT_REGION := None |} sample_boto3 empty_console
  = (Ok None,
     {| stdin := [];
        stdout := [lit "Error: Unable to connect to the specified endpoint URL." ++ nl] |}).
Proof.
  rewrite (proj1 (init_s3_client_unset_endpoint
                    {| AWS_ENDPOINT_URL := None;
                       AWS_ACCESS_KEY_ID := Some (lit "key");
                       AWS_SECRET_ACCESS_KEY := Some (lit "secret");
                       AWS_DEFAULT_REGION := None |} sample_boto3 empty_console
                    eq_refl)).
  reflexivity.
Defined.

(* ================================================================== *)
(** * The loops of the prompts *)

Section Loops.

Variable valid : pystr -> result bool.
Variables complaint prompt : pystr.

Let asked (lines : list pystr) : list pystr :=
  flat_map (fun _ => [complaint ++ nl; prompt]) lines.

Lemma ask_first_valid (rejected : list pystr) :
  forall (first_prompt good : pystr) (rest out : list pystr),
    Forall (fun s => valid s = Ok false) rejected ->
    valid good = Ok true ->
    (x <- input first_prompt ;; while_invalid valid complaint prompt x)
      {| stdin := rejected ++ good :: rest; stdout := out |}
    = (Ok good,
       {| stdin := rest; stdout := out ++ first_prompt :: asked rejected |}).
Proof.
  induction rejected as [|s rejected IH];
    intros first_prompt good rest out Hrej Hgood.
  - cbn [app]. rewrite ask_run, Hgood. reflexivity.
  - inversion Hrej as [|? ? Hs Hrej']; subst.
    cbn [app]. rewrite ask_run, Hs.
    rewrite IH by assumption.
    subst asked. cbn [flat_map app]. now rewrite <- !app_assoc.
Qed.

Lemma ask_end_of_input (lines : list pystr) :
  forall (first_prompt : pystr) (out : list pystr),
    Forall (fun s => valid s = Ok false) lines ->
    (x <- input first_prompt ;; while_invalid valid complaint prompt x)
      {| stdin := lines; stdout := out |}
    = (Raise EOFError,
       {| stdin := []; stdout := out ++ first_prompt :: asked lines |}).
Proof.
  induction lines as [|s lines IH]; intros first_prompt out Hrej.
  - reflexivity.
  - inversion Hrej as [|? ? Hs Hrej']; subst.
    rewrite ask_run, Hs. rewrite IH by assumption.
    subst asked. cbn [flat_map app]. now rewrite <- !app_assoc.
Qed.

(** What leaves the loop and goes to [k] is a line that [valid] accepts. *)
Lemma ask_then_accepts {A} (k : pystr -> M A) (lines : list pystr) :
  forall (first_prompt : pystr) (out : list pystr) (a : A) (c' : console),
    (x <- input first_prompt ;; y <- while_invalid valid complaint prompt x ;; k y)
      {| stdin := lines; stdout := out |} = (Ok a, c') ->
    exists s c1, valid s = Ok true /\ k s c1 = (Ok a, c').
Proof.
  induction lines as [|s lines IH]; intros first_prompt out a c' H.
  - discriminate H.
  - rewrite ask_then_run in H.
    destruct (valid s) as [[|]|e] eqn:E; [| | discriminate].
    + exists s. eexists. split; [exact E | exact H].
    + now apply IH in H.
Qed.

End Loops.

Section RetentionLoop.

(** X9. The prompt of the retention date returns the first line that
    [validate_date] accepts: each line before it costs one complaint and
    one more prompt, and the lines after it are left to the next prompts.
    When no line is accepted the script ends with [EOFError] at the end
    of the input. *)
Theorem read_retention_first_valid (rejected : list pystr) (good : pystr)
  (rest out : list pystr) :
  Forall (fun s => validate_date s = Ok false) rejected ->
  (validate_date good = Ok true ->
   read_retention {| stdin := rejected ++ good :: rest; stdout := out |}
   = (Ok good,
      {| stdin := rest;
         stdout := out ++ retention_prompt
                   :: flat_map (fun _ => [retention_complaint ++ nl; retention_prompt])
                        rejected |}))
  /\ read_retention {| stdin := rejected; stdout := out |}
     = (Raise EOFError,
        {| stdin := [];
           stdout := out ++ retention_prompt
                     :: flat_map (fun _ => [retention_complaint ++ nl; retention_prompt])
                          rejected |}).
Proof.
  intro Hrej. split.
  - intro Hgood. unfold read_retention. now apply ask_first_valid.
  - unfold read_retention. now apply ask_end_of_input.
Qed.

End RetentionLoop.

Lemma read_retention_first_valid_witness :
  read_retention {| stdin := map lit ["tomorrow"; "2024-12-31"; "2024-12-31T00:00:00Z";
                                      "5"]%string;
                    stdout := [] |}
  = (Ok (lit "2024-12-31T00:00:00Z"),
     {| stdin := [lit "5"];
        stdout := [retention_prompt;
                   retention_complaint ++ nl; retention_prompt;
                   retention_complaint ++ nl; retention_prompt] |}).
Proof.
  refine (proj1 (read_retention_first_valid
                   (map lit ["tomorrow"; "2024-12-31"]%string)
                   (lit "2024-12-31T00:00:00Z") [lit "5"] [] _) _).
  - repeat constructor.
  - vm_compute. reflexivity.
Defined.

(* ================================================================== *)
(** * The numbers of the prompts *)

Section Numbers.

Lemma ranges_apart (rs1 rs2 : list (N * N)) (ch : char) :
  forallb (fun r1 => forallb (fun r2 => (snd r1 <? fst r2) || (snd r2 <? fst r1))%N rs2)
          rs1 = true ->
  in_ranges rs1 ch = true -> in_ranges rs2 ch = false.
Proof.
  intros Hdisj H1.
  destruct (in_ranges rs2 ch) eqn:H2; [| reflexivity].
  apply in_ranges_run in H1. destruct H1 as (r1 & Hr1 & Hin1).
  apply in_ranges_run in H2. destruct H2 as (r2 & Hr2 & Hin2).
  rewrite forallb_forall in Hdisj. specialize (Hdisj r1 Hr1).
  rewrite forallb_forall in Hdisj. specialize (Hdisj r2 Hr2).
  apply orb_prop in Hdisj.
  destruct Hdisj as [H | H]; apply N.ltb_lt in H; lia.
Qed.

(** A digit, for [isdigit], is no white space and no sign. *)
Lemma digit_char_is_plain (ch : char) :
  is_digit_char ch = true ->
  is_int_space ch = false
  /\ (ch =? plus_sign)%N = false
  /\ (ch =? minus_sign)%N = false.
Proof.
  unfold is_digit_char. intro H. apply orb_prop in H. destruct H as [H | H].
  - destruct (decimal_is_plain ch H) as (H1 & H2 & H3 & _). auto.
  - split; [apply (ranges_apart digit_only_ranges); [reflexivity | exact H] |].
    pose proof (ranges_apart digit_only_ranges [(43, 43); (45, 45)]%N ch eq_refl H)
      as Hs.
    unfold in_ranges in Hs. cbn [existsb fst snd] in Hs.
    unfold plus_sign, minus_sign.
    split; apply N.eqb_neq; intros ->; discriminate Hs.
Qed.

Lemma decimal_value_nonneg (ch : char) (d : Z) :
  decimal_value ch = Some d -> 0 <= d.
Proof.
  intro H. apply decimal_in_run in H. destruct H as (z & _ & _ & ->). lia.
Qed.

Lemma int_digits_nonneg (s : pystr) :
  forall prev_us acc n v m after,
    int_digits s prev_us acc n = Some (v, m, after) -> 0 <= acc -> 0 <= v.
Proof.
  induction s as [|ch s IH]; intros prev_us acc n v m after H Hacc;
    cbn [int_digits] in H.
  - destruct prev_us; [discriminate |]. injection H as <- _ _. exact Hacc.
  - destruct (ch =? underscore)%N.
    + destruct prev_us; [discriminate |]. now apply IH in H.
    + destruct (decimal_value ch) as [d|] eqn:E.
      * apply IH in H; [exact H |].
        apply decimal_value_nonneg in E. lia.
      * destruct prev_us; [discriminate |]. injection H as <- _ _. exact Hacc.
Qed.

(** What [isdigit] accepts and [int] reads is not negative. *)
Lemma isdigit_int_nonneg (s : pystr) (v : Z) :
  isdigit s = true -> int_of_str s = Ok v -> 0 <= v.
Proof.
  unfold isdigit. destruct s as [|ch s']; [discriminate |].
  cbn [forallb]. intro H. apply andb_prop in H. destruct H as [Hch _].
  destruct (digit_char_is_plain ch Hch) as (Hsp & Hplus & Hminus).
  unfold int_of_str. cbn [skip_space]. rewrite Hsp, Hplus, Hminus.
  cbv beta iota.
  destruct (ch =? underscore)%N; [discriminate |].
  destruct (int_digits (ch :: s') false 0 0) as [[[v' n] after]|] eqn:E;
    [| discriminate].
  apply int_digits_nonneg in E; [| lia].
  destruct (n =? 0); [discriminate |].
  destruct (skip_space after); [| discriminate].
  destruct (max_str_digits <? n); [discriminate |].
  intro H. injection H as <-. now destruct v'.
Qed.

Lemma bind_ok_inv {A B} (m : M A) (k : A -> M B) (c : console) (b : B) (c' : console) :
  (x <- m ;; k x) c = (Ok b, c') ->
  exists a c1, m c = (Ok a, c1) /\ k a c1 = (Ok b, c').
Proof.
  unfold bind. destruct (m c) as [[a|e] c1]; [| discriminate].
  intro H. exists a, c1. auto.
Qed.

Lemma read_num_objects_nonneg (c : console) (v : Z) (c' : console) :
  read_num_objects c = (Ok v, c') -> 0 <= v.
Proof.
  unfold read_num_objects. destruct c as [lines out]. intro H.
  apply ask_then_accepts in H. destruct H as (s & c1 & Hs & Hk).
  injection Hs as Hs. unfold lift in Hk. injection Hk as Hk _.
  now apply (isdigit_int_nonneg s).
Qed.

Lemma read_start_index_nonneg (c : console) (v : Z) (c' : console) :
  read_start_index c = (Ok v, c') -> 0 <= v.
Proof.
  unfold read_start_index. destruct c as [lines out]. intro H.
  apply ask_then_accepts in H. destruct H as (s & c1 & Hs & Hk).
  injection Hs as Hs. unfold lift in Hk. injection Hk as Hk _.
  now apply (isdigit_int_nonneg s).
Qed.

(** X10. Whatever the prompts of the parameters return, the retention
    string is one [validate_date] accepts, of the lenient form, and the
    number of objects and the first index are not negative: no object key
    carries a sign. *)
Theorem read_parameters_invariant (c : console) (retention : pystr)
  (num_objects : Z) (prefix : pystr) (start_index : Z) (c' : console) :
  read_parameters c = (Ok (retention, num_objects, prefix, start_index), c') ->
  validate_date retention = Ok true
  /\ lenient_iso retention
  /\ 0 <= num_objects
  /\ 0 <= start_index.
Proof.
  unfold read_parameters. intro H.
  apply bind_ok_inv in H. destruct H as (r & c1 & Hr & H).
  apply bind_ok_inv in H. destruct H as (n & c2 & Hn & H).
  apply bind_ok_inv in H. destruct H as (p & c3 & Hp & H).
  apply bind_ok_inv in H. destruct H as (s & c4 & Hs & H).
  unfold ret in H. injection H as -> -> -> -> _.
  unfold read_retention in Hr. apply ask_accepts in Hr.
  split; [exact Hr |]. split; [now apply accepted_is_lenient |]. split.
  - now apply read_num_objects_nonneg in Hn.
  - now apply read_start_index_nonneg in Hs.
Qed.

End Numbers.

Lemma read_parameters_invariant_witness :
  validate_date (lit "2024-12-31T00:00:00Z") = Ok true
  /\ lenient_iso (lit "2024-12-31T00:00:00Z")
  /\ 0 <= 5
  /\ 0 <= 10.
Proof.
  refine (read_parameters_invariant
            {| stdin := map lit ["2024-12-31T00:00:00Z"; "5"; "test-"; "10"]%string;
               stdout := [] |}
            (lit "2024-12-31T00:00:00Z") 5 (lit "test-") 10
            {| stdin := [];
               stdout := [retention_prompt; num_objects_prompt; prefix_prompt;
                          start_index_prompt] |} _).
  vm_compute. reflexivity.
Defined.

(* ================================================================== *)
(** * The size of the numbers of the prompts *)

Section BelowTheLimit.

Lemma decimal_value_digit (ch : char) (d : Z) :
  decimal_value ch = Some d -> 0 <= d <= 9.
Proof.
  intro H. apply decimal_in_run in H. destruct H as (z & _ & Hz & ->). lia.
Qed.

(** The value read is below what its number of digits allows. *)
Lemma int_digits_bound (s : pystr) :
  forall prev_us acc n v m after,
    int_digits s prev_us acc n = Some (v, m, after) ->
    0 <= acc -> 0 <= n ->
    n <= m /\ 0 <= v < (acc + 1) * 10 ^ (m - n).
Proof.
  induction s as [|ch s IH]; intros prev_us acc n v m after H Hacc Hn;
    cbn [int_digits] in H.
  - destruct prev_us; [discriminate |]. injection H as <- <- _.
    rewrite Z.sub_diag, Z.pow_0_r. lia.
  - destruct (ch =? underscore)%N.
    + destruct prev_us; [discriminate |]. now apply IH in H.
    + destruct (decimal_value ch) as [d|] eqn:E.
      * apply decimal_value_digit in E.
        apply IH in H; [| lia | lia]. destruct H as [Hm Hv].
        split; [lia |].
        replace (m - n) with (Z.succ (m - (n + 1))) by lia.
        rewrite Z.pow_succ_r by lia.
        pose proof (Z.pow_pos_nonneg 10 (m - (n + 1)) ltac:(lia) ltac:(lia)) as Hp.
        revert Hv Hp. generalize (10 ^ (m - (n + 1))). intros P Hv Hp. nia.
      * destruct prev_us; [discriminate |]. injection H as <- <- _.
        rewrite Z.sub_diag, Z.pow_0_r. lia.
Qed.

(** [int] returns integers of at most 4300 digits. *)
Lemma int_of_str_below_limit (s : pystr) (v : Z) :
  int_of_str s = Ok v -> Z.abs v < 10 ^ max_str_digits.
Proof.
  unfold int_of_str.
  destruct (match skip_space s with
            | [] => (1, skip_space s)
            | c :: rest =>
                if (c =? plus_sign)%N then (1, rest)
                else if (c =? minus_sign)%N then (-1, rest) else (1, skip_space s)
            end) as [sign s2] eqn:Esign.
  assert (Hsign : sign = 1 \/ sign = -1).
  { destruct (skip_space s) as [|c rest]; [injection Esign as <- _; auto |].
    destruct (c =? plus_sign)%N; [injection Esign as <- _; auto |].
    destruct (c =? minus_sign)%N; injection Esign as <- _; auto. }
  destruct s2 as [|c s2']; [discriminate |].
  destruct (c =? underscore)%N; [discriminate |].
  destruct (int_digits (c :: s2') false 0 0) as [[[v0 n] after]|] eqn:E;
    [| discriminate].
  apply int_digits_bound in E; [| lia | lia]. destruct E as [Hn Hv].
  destruct (n =? 0); [discriminate |].
  destruct (skip_space after); [| discriminate].
  destruct (Z.ltb_spec max_str_digits n); [discriminate |].
  intro Hok. injection Hok as <-.
  assert (Hpow : 10 ^ (n - 0) <= 10 ^ max_str_digits)
    by (apply Z.pow_le_mono_r; lia).
  revert Hpow Hv. generalize (10 ^ (n - 0)) (10 ^ max_str_digits).
  intros P L HPL Hv. destruct Hsign as [-> | ->]; lia.
Qed.

(** The count and the first index that the prompts return are what line
    178 and, for the first index, line 172 can write. *)
Lemma read_numbers_below_limit (c : console) (v : Z) (c' : console) :
  read_num_objects c = (Ok v, c') \/ read_start_index c = (Ok v, c') ->
  0 <= v < 10 ^ max_str_digits.
Proof.
  intro H.
  assert (Hread : exists s, isdigit s = true /\ int_of_str s = Ok v).
  { destruct c as [lines out]. destruct H as [H | H];
      [unfold read_num_objects in H | unfold read_start_index in H];
      apply ask_then_accepts in H; destruct H as (s & c1 & Hs & Hk);
      injection Hs as Hs; unfold lift in Hk; injection Hk as Hk _;
      exists s; auto. }
  destruct Hread as (s & Hdigit & Hint).
  pose proof (isdigit_int_nonneg s v Hdigit Hint) as Hv.
  pose proof (int_of_str_below_limit s v Hint) as Hlim.
  revert Hlim. generalize (10 ^ max_str_digits). intros L Hlim. lia.
Qed.

(** Line 178 writes the count that [int] has returned: [str] does not
    refuse it. *)
Lemma count_is_written (c : console) (num_objects : Z) (c' : console) :
  read_num_objects c = (Ok num_objects, c') ->
  str_of_int num_objects = Ok (decimal_text num_objects).
Proof.
  intro H.
  pose proof (read_numbers_below_limit c num_objects c' (or_introl H)) as Hv.
  rewrite str_of_int_spec.
  revert Hv. generalize (10 ^ max_str_digits). intros L Hv.
  destruct (Z.leb_spec L (Z.abs num_objects)); [lia | reflexivity].
Qed.

End BelowTheLimit.

(* ================================================================== *)
(** * Numbers written and read back *)

Section RoundTrip.

Lemma uint_text_decimal (d : Decimal.uint) :
  forallb is_decimal (uint_text d) = true.
Proof.
  unfold uint_text. induction d; cbn [NilEmpty.string_of_uint];
    [reflexivity | ..]; exact IHd.
Qed.

(** Reading the digits of [d] after the positive value [p]. *)
Lemma int_digits_uint_acc (d : Decimal.uint) :
  forall (p : positive) (n : Z),
    int_digits (uint_text d) false (Z.pos p) n
    = Some (Z.pos (Pos.of_uint_acc d p), n + Z.of_nat (length (uint_text d)), []).
Proof.
  unfold uint_text.
  induction d; intros p n; cbn [NilEmpty.string_of_uint Pos.of_uint_acc];
    [cbn; now rewrite Z.add_0_r | ..];
    change (lit (String ?a ?s)) with (N_of_ascii a :: lit s);
    cbn [int_digits length];
    match goal with
    | |- context [(?c =? underscore)%N] =>
        change (c =? underscore)%N with false
    end;
    match goal with
    | |- context [decimal_value ?c] =>
        let v := eval vm_compute in (decimal_value c) in
        change (decimal_value c) with v
    end;
    cbv beta iota;
    match goal with
    | |- int_digits _ false ?acc _ = Some (Z.pos (Pos.of_uint_acc _ ?q), _, _) =>
        replace acc with (Z.pos q) by lia
    end;
    rewrite IHd; do 3 (f_equal; try lia).
Qed.

(** Reading the digits of [d] from the start. *)
Lemma int_digits_uint (d : Decimal.uint) :
  forall n : Z,
    int_digits (uint_text d) false 0 n
    = Some (Z.of_N (Pos.of_uint d), n + Z.of_nat (length (uint_text d)), []).
Proof.
  unfold uint_text.
  induction d; intros n; cbn [NilEmpty.string_of_uint Pos.of_uint];
    [cbn; now rewrite Z.add_0_r | ..];
    change (lit (String ?a ?s)) with (N_of_ascii a :: lit s);
    cbn [int_digits length];
    match goal with
    | |- context [(?c =? underscore)%N] =>
        change (c =? underscore)%N with false
    end;
    match goal with
    | |- context [decimal_value ?c] =>
        let v := eval vm_compute in (decimal_value c) in
        change (decimal_value c) with v
    end;
    cbv beta iota;
    pose proof (int_digits_uint_acc d) as Hacc; unfold uint_text in Hacc.
  - change (10 * 0 + 0) with 0. rewrite IHd. do 3 (f_equal; try lia).
  - change (10 * 0 + 1) with (Z.pos 1). rewrite Hacc. do 3 (f_equal; try lia).
  - change (10 * 0 + 2) with (Z.pos 2). rewrite Hacc. do 3 (f_equal; try lia).
  - change (10 * 0 + 3) with (Z.pos 3). rewrite Hacc. do 3 (f_equal; try lia).
  - change (10 * 0 + 4) with (Z.pos 4). rewrite Hacc. do 3 (f_equal; try lia).
  - change (10 * 0 + 5) with (Z.pos 5). rewrite Hacc. do 3 (f_equal; try lia).
  - change (10 * 0 + 6) with (Z.pos 6). rewrite Hacc. do 3 (f_equal; try lia).
  - change (10 * 0 + 7) with (Z.pos 7). rewrite Hacc. do 3 (f_equal; try lia).
  - change (10 * 0 + 8) with (Z.pos 8). rewrite Hacc. do 3 (f_equal; try lia).
  - change (10 * 0 + 9) with (Z.pos 9). rewrite Hacc. do 3 (f_equal; try lia).
Qed.

End RoundTrip.

Section ReadBack.

Lemma int_of_str_decimal_value (s : pystr) (v n : Z) (after : pystr) :
  s <> [] ->
  forallb is_decimal s = true ->
  Z.of_nat (length s) <= max_str_digits ->
  int_digits s false 0 0 = Some (v, n, after) ->
  int_of_str s = Ok v /\ int_of_str (minus_sign :: s) = Ok (- v).
Proof.
  intros Hne Hs Hlen Hv. destruct s as [|ch s']; [congruence |].
  assert (Hch : is_decimal ch = true)
    by (cbn [forallb] in Hs; now apply andb_prop in Hs).
  destruct (decimal_is_plain ch Hch) as (Hsp & Hplus & Hminus & Hus).
  destruct (int_digits_decimal (ch :: s') Hs 0 0 ltac:(lia)) as (v' & Hv' & _).
  assert (v' = v) as -> by congruence. clear Hv. rename Hv' into Hv.
  assert (Hfinish : forall sign : Z,
             (let '(v0, n0, after0) :=
                (v, 0 + Z.of_nat (length (ch :: s')), @nil char) in
              if n0 =? 0 then Raise ValueError
              else match skip_space after0 with
                   | _ :: _ => Raise ValueError
                   | [] => if max_str_digits <? n0 then Raise ValueError
                           else Ok (sign * v0)
                   end) = Ok (sign * v)).
  { intro sign. cbv beta iota.
    destruct (Z.eqb_spec (0 + Z.of_nat (length (ch :: s'))) 0) as [E | _];
      [cbn [length] in E; lia |].
    cbn [skip_space].
    destruct (Z.ltb_spec max_str_digits (0 + Z.of_nat (length (ch :: s'))));
      [lia | reflexivity]. }
  split.
  - unfold int_of_str. cbn [skip_space]. rewrite Hsp, Hplus, Hminus, Hus, Hv.
    cbv beta iota. rewrite (Hfinish 1). f_equal. now destruct v.
  - unfold int_of_str. cbn [skip_space].
    change (is_int_space minus_sign) with false.
    unfold minus_sign at 1 2 3, plus_sign. cbn [N.eqb Pos.eqb].
    rewrite Hus, Hv. cbv beta iota. rewrite (Hfinish (-1)).
    reflexivity.
Qed.

Lemma uint_text_nonempty (p : positive) : uint_text (Pos.to_uint p) <> [].
Proof.
  pose proof (DecimalPos.Unsigned.to_uint_nonnil p) as H.
  unfold uint_text. destruct (Pos.to_uint p); [congruence | ..]; discriminate.
Qed.

(** [int] reads back what [str] has written of an integer, within the
    limit of 4300 digits. *)
Lemma int_of_decimal_text (z : Z) :
  Z.of_nat (length (decimal_text z)) <= max_str_digits ->
  int_of_str (decimal_text z) = Ok z.
Proof.
  destruct z as [|p|p]; intro Hlen.
  - reflexivity.
  - change (decimal_text (Z.pos p)) with (uint_text (Pos.to_uint p)) in *.
    destruct (int_of_str_decimal_value (uint_text (Pos.to_uint p))
                (Z.of_N (Pos.of_uint (Pos.to_uint p)))
                (0 + Z.of_nat (length (uint_text (Pos.to_uint p)))) [])
      as [H _];
      [apply uint_text_nonempty | apply uint_text_decimal | exact Hlen
      | apply int_digits_uint |].
    rewrite H. now rewrite DecimalPos.Unsigned.of_to.
  - change (decimal_text (Z.neg p)) with (minus_sign :: uint_text (Pos.to_uint p)) in *.
    cbn [length] in Hlen.
    destruct (int_of_str_decimal_value (uint_text (Pos.to_uint p))
                (Z.of_N (Pos.of_uint (Pos.to_uint p)))
                (0 + Z.of_nat (length (uint_text (Pos.to_uint p)))) [])
      as [_ H];
      [apply uint_text_nonempty | apply uint_text_decimal | lia
      | apply int_digits_uint |].
    rewrite H. now rewrite DecimalPos.Unsigned.of_to.
Qed.

Lemma decimal_text_isdigit (n : Z) : 0 <= n -> isdigit (decimal_text n) = true.
Proof.
  intro Hn.
  assert (H : forall s, s <> [] -> forallb is_decimal s = true -> isdigit s = true).
  { intros s Hne Hs. unfold isdigit. destruct s as [|ch s']; [congruence |].
    apply forallb_forall. intros x Hx.
    rewrite forallb_forall in Hs. unfold is_digit_char. now rewrite (Hs x Hx). }
  destruct n as [|p|p]; [reflexivity | | lia].
  change (decimal_text (Z.pos p)) with (uint_text (Pos.to_uint p)).
  apply H; [apply uint_text_nonempty | apply uint_text_decimal].
Qed.

(** X11. The two prompts for a number take at once the decimal writing of
    an integer that is not negative, and return that integer (within the
    4300 digits [int] reads). *)
Theorem number_prompts_read_decimal (n : Z) (rest out : list pystr) :
  0 <= n ->
  Z.of_nat (length (decimal_text n)) <= max_str_digits ->
  read_num_objects {| stdin := decimal_text n :: rest; stdout := out |}
  = (Ok n, {| stdin := rest; stdout := out ++ [num_objects_prompt] |})
  /\ read_start_index {| stdin := decimal_text n :: rest; stdout := out |}
     = (Ok n, {| stdin := rest; stdout := out ++ [start_index_prompt] |}).
Proof.
  intros Hn Hlen.
  rewrite read_num_objects_run, read_start_index_run.
  rewrite (decimal_text_isdigit n Hn), (int_of_decimal_text n Hlen).
  split; reflexivity.
Qed.

Lemma enumerate_nth {A} (l : list A) :
  forall (start i : nat) (a : A),
    nth_error l i = Some a ->
    nth_error (combine (map Z.of_nat (seq start (length l))) l) i
    = Some (Z.of_nat (start + i), a).
Proof.
  induction l as [|x l IH]; intros start i a H.
  - destruct i; discriminate H.
  - destruct i as [|i]; cbn [length seq map combine nth_error] in *.
    + injection H as <-. now rewrite Nat.add_0_r.
    + rewrite (IH (S start) i a H). do 2 f_equal. lia.
Qed.

(** X12. The number shown before a bucket selects that bucket: the bucket
    at index [i] of the list is shown on the line of number [i + 1], and
    the decimal writing of [i + 1] at the prompt selects it. *)
Theorem shown_number_selects (enabled : list pystr) (i : nat) (name : pystr)
  (c : console) (rest out : list pystr) :
  nth_error enabled i = Some name ->
  Z.of_nat (length (decimal_text (Z.of_nat i + 1))) <= max_str_digits ->
  show_choices enabled c
  = (Ok tt,
     {| stdin := stdin c;
        stdout := stdout c
                  ++ ((nl ++ lit "List of buckets to create locked objects:") ++ nl)
                  :: map (fun '(k, bucket_name) =>
                            (tab ++ lit " " ++ decimal_text (k + 1) ++ lit ". "
                             ++ bucket_name) ++ nl)
                         (enumerate enabled) |})
  /\ nth_error (enumerate enabled) i = Some (Z.of_nat i, name)
  /\ select_bucket enabled
       {| stdin := decimal_text (Z.of_nat i + 1) :: rest; stdout := out |}
     = (Ok name,
        {| stdin := rest;
           stdout := (out ++ [select_prompt])
                     ++ [(lit "Selected bucket: " ++ name) ++ nl] |}).
Proof.
  intros Hnth Hlen. split; [| split].
  - unfold show_choices, bind, print.
    destruct enabled as [|e0 enabled']; [destruct i; discriminate Hnth |].
    rewrite print_each_run. unfold write. cbn [stdin stdout].
    rewrite map_map, <- app_assoc. cbn [app]. do 4 f_equal.
    apply map_ext. now intros [k b].
  - unfold enumerate. now rewrite (enumerate_nth enabled 0 i name Hnth).
  - rewrite select_bucket_run, (int_of_decimal_text _ Hlen). cbn [rbind].
    assert (Hi : (i < length enabled)%nat)
      by (apply nth_error_Some; congruence).
    destruct (getitem_ok enabled (Z.of_nat i + 1 - 1)) as (a & Ha & Hget);
      [lia |].
    destruct (Z.ltb_spec (Z.of_nat i + 1 - 1) 0); [lia |].
    replace (Z.to_nat (Z.of_nat i + 1 - 1)) with i in Ha by lia.
    rewrite Hnth in Ha. injection Ha as <-.
    rewrite Hget. reflexivity.
Qed.

End ReadBack.

Lemma number_prompts_read_decimal_witness :
  read_num_objects {| stdin := [lit "250"; lit "x"]; stdout := [] |}
  = (Ok 250, {| stdin := [lit "x"]; stdout := [num_objects_prompt] |}).
Proof.
  exact (proj1 (number_prompts_read_decimal 250 [lit "x"] []
                  ltac:(lia) ltac:(vm_compute; discriminate))).
Defined.

Lemma shown_number_selects_witness :
  select_bucket [lit "alpha"; lit "gamma"]
    {| stdin := [lit "2"]; stdout := [] |}
  = (Ok (lit "gamma"),
     {| stdin := [];
        stdout := [select_prompt; (lit "Selected bucket: " ++ lit "gamma") ++ nl] |}).
Proof.
  exact (proj2 (proj2 (shown_number_selects [lit "alpha"; lit "gamma"] 1
                         (lit "gamma") empty_console [] []
                         eq_refl ltac:(vm_compute; discriminate)))).
Defined.

(* ================================================================== *)
(** * An index of more than 4300 digits *)

(** C3, as stated, fails.  The prompt of the first index accepts the
    4300 digits of [10 ^ 4300 - 1]; with a count of 2 the second index
    has 4301 digits, which [str] refuses at line 172: one key is
    submitted, not two, and the run ends with [ValueError]. *)
Lemma C3_second_key_is_not_submitted :
  fst (read_start_index
         {| stdin := [decimal_text (10 ^ max_str_digits - 1)]; stdout := [] |})
  = Ok (10 ^ max_str_digits - 1)
  /\ map (fun f => Key (request f))
         (futures_of (sample_world sample_s3 [0]%nat) (lit "alpha")
            (lit "2024-12-31T00:00:00Z") 2 (lit "test-") (10 ^ max_str_digits - 1))
     = [lit "test-" ++ decimal_text (10 ^ max_str_digits - 1) ++ lit ".txt"]
  /\ fst (create_objects (sample_world sample_s3 [0]%nat) (lit "alpha")
            (lit "2024-12-31T00:00:00Z") 2 (lit "test-") (10 ^ max_str_digits - 1)
            empty_console)
     = Raise ValueError.
Proof.
  pose proof (limit_is_large 1 ltac:(unfold max_str_digits; lia)) as Hlarge.
  pose proof (decimal_text_length (10 ^ max_str_digits - 1) max_str_digits
                ltac:(lia) ltac:(unfold max_str_digits; lia)) as Hlen.
  pose proof (submissions_spec (lit "alpha") (lit "2024-12-31T00:00:00Z")
                (lit "test-") 2 (10 ^ max_str_digits - 1) ltac:(lia)) as Hspec.
  cbv zeta in Hspec.
  pose proof (int_of_decimal_text (10 ^ max_str_digits - 1)) as Hint.
  pose proof (decimal_text_isdigit (10 ^ max_str_digits - 1) ltac:(lia)) as Hdigit.
  revert Hlarge Hlen Hspec Hint Hdigit.
  generalize (10 ^ max_str_digits). intros L Hlarge Hlen Hspec Hint Hdigit.
  destruct (Z.leb_spec (L - 1 + 2) L) as [| _]; [lia |].
  destruct (Z.leb_spec 2 0) as [| _]; [lia |].
  cbn [orb] in Hspec.
  replace (Z.max (L - 1) L) with L in Hspec by lia.
  rewrite (range_first (L - 1) L) in Hspec by lia.
  rewrite (range_empty (L - 1 + 1) L) in Hspec by lia.
  split; [| split].
  - rewrite read_start_index_run. cbn [stdin]. rewrite Hdigit, Hint by lia.
    reflexivity.
  - rewrite futures_keys, Hspec. reflexivity.
  - unfold create_objects. cbn [fst]. rewrite Hspec. reflexivity.
Qed.

(* ================================================================== *)
(** * The size and the alphabet of a payload *)

Section Payload.

Lemma join_length_bounds (sep : pystr) (lo hi : nat) (parts : list pystr) :
  parts <> [] ->
  Forall (fun p => (lo <= length p <= hi)%nat) parts ->
  (length parts * lo + (length parts - 1) * length sep
   <= length (join sep parts)
   <= length parts * hi + (length parts - 1) * length sep)%nat.
Proof.
  induction parts as [|p parts IH]; intros Hne Hall; [congruence |].
  inversion Hall as [|? ? Hp Hrest]; subst.
  destruct parts as [|q parts].
  - cbn. lia.
  - specialize (IH ltac:(discriminate) Hrest).
    change (join sep (p :: q :: parts)) with (p ++ sep ++ join sep (q :: parts)).
    rewrite !length_app. cbn [length] in *. nia.
Qed.

Lemma join_letters (sep : pystr) (P : char -> Prop) (parts : list pystr) :
  Forall P sep ->
  Forall (Forall P) parts ->
  Forall P (join sep parts).
Proof.
  intros Hsep. induction parts as [|p parts IH]; intro Hall; [constructor |].
  inversion Hall as [|? ? Hp Hrest]; subst.
  destruct parts as [|q parts]; [exact Hp |].
  change (join sep (p :: q :: parts)) with (p ++ sep ++ join sep (q :: parts)).
  apply Forall_app. split; [exact Hp |].
  apply Forall_app. split; [exact Hsep | now apply IH].
Qed.

Lemma words_lengths :
  Forall (fun p => (2 <= length p <= 13)%nat) words.
Proof.
  apply Forall_forall. intros p Hp.
  assert (H : forallb (fun p => (2 <=? length p)%nat && (length p <=? 13)%nat) words
              = true) by reflexivity.
  rewrite forallb_forall in H. specialize (H p Hp).
  apply andb_prop in H. destruct H as [H1 H2].
  apply Nat.leb_le in H1. apply Nat.leb_le in H2. lia.
Qed.

Lemma words_letters :
  Forall (Forall (fun ch => is_letter_or_blank ch = true)) words.
Proof.
  apply Forall_forall. intros p Hp. apply Forall_forall. intros ch Hch.
  assert (H : forallb (forallb is_letter_or_blank) words = true) by reflexivity.
  rewrite forallb_forall in H. specialize (H p Hp).
  rewrite forallb_forall in H. exact (H ch Hch).
Qed.

Lemma Forall_firstn_keeps {A} (P : A -> Prop) (n : nat) (l : list A) :
  Forall P l -> Forall P (firstn n l).
Proof.
  intro H. rewrite <- (firstn_skipn n l) in H.
  now apply Forall_app in H.
Qed.

Lemma Forall_weaken_in {A} (P : A -> Prop) (l chosen : list A) :
  Forall P l -> Forall (fun x => In x l) chosen -> Forall P chosen.
Proof.
  intros Hl Hc. apply Forall_forall. intros x Hx.
  rewrite Forall_forall in Hl, Hc. apply Hl. now apply Hc.
Qed.

(** The length of the text before and after truncation. *)
Lemma generate_readable_text_length (size_kb : Z) (g : rng) :
  1 <= size_kb ->
  let content := fst (generated_content size_kb g) in
  let payload := fst (generate_readable_text size_kb g) in
  600 * size_kb - 1 <= Z.of_nat (length content) <= 2800 * size_kb - 1
  /\ 600 * size_kb - 1 <= Z.of_nat (length payload) <= 1024 * size_kb.
Proof.
  intros Hsize content payload. subst content payload.
  unfold generate_readable_text, generated_content.
  pose proof (choices_spec words (Z.to_nat (size_kb * 200)) g) as [Hlen Hall];
    [discriminate |].
  destruct (choices words (Z.to_nat (size_kb * 200)) g) as [chosen g'].
  cbn [fst] in *.
  assert (Hne : chosen <> [])
    by (intros ->; cbn [length] in Hlen; lia).
  pose proof (join_length_bounds (lit " ") 2 13 chosen Hne
                (Forall_weaken_in _ _ _ words_lengths Hall)) as Hjoin.
  rewrite Hlen in Hjoin. change (length (lit " ")) with 1%nat in Hjoin.
  rewrite slice_to_length by lia.
  lia.
Qed.

(** X13. A payload asked for [size_kb] KiB, at least 1, is never empty
    and may fall short of the size asked, but by less than half: it has
    from [600 * size_kb - 1] to [1024 * size_kb] characters, the text
    before truncation having from [600 * size_kb - 1] to
    [2800 * size_kb - 1]. *)
Theorem payload_size_bounds (size_kb : Z) (g : rng) :
  1 <= size_kb ->
  let content := fst (generated_content size_kb g) in
  let payload := fst (generate_readable_text size_kb g) in
  600 * size_kb - 1 <= Z.of_nat (length content) <= 2800 * size_kb - 1
  /\ 600 * size_kb - 1 <= Z.of_nat (length payload) <= 1024 * size_kb.
Proof. exact (generate_readable_text_length size_kb g). Qed.

(** The characters of the text after truncation. *)
Lemma generate_readable_text_letters (size_kb : Z) (g : rng) :
  Forall (fun ch => is_letter_or_blank ch = true /\ (ch < 128)%N)
         (fst (generate_readable_text size_kb g)).
Proof.
  unfold generate_readable_text, generated_content.
  pose proof (choices_spec words (Z.to_nat (size_kb * 200)) g) as [_ Hall];
    [discriminate |].
  destruct (choices words (Z.to_nat (size_kb * 200)) g) as [chosen g'].
  cbn [fst] in *.
  assert (Hjoin : Forall (fun ch => is_letter_or_blank ch = true)
                         (join (lit " ") chosen)).
  { apply join_letters; [repeat constructor |].
    exact (Forall_weaken_in _ _ _ words_letters Hall). }
  assert (Hslice : Forall (fun ch => is_letter_or_blank ch = true)
                          (slice_to (join (lit " ") chosen) (size_kb * 1024))).
  { unfold slice_to. destruct (0 <=? size_kb * 1024); now apply Forall_firstn_keeps. }
  revert Hslice. apply Forall_impl. intros ch H. split; [exact H |].
  unfold is_letter_or_blank in H.
  apply orb_prop in H. destruct H as [H | H];
    [apply orb_prop in H; destruct H as [H | H] |].
  - apply N.eqb_eq in H. lia.
  - apply andb_prop in H. destruct H as [_ H]. apply N.leb_le in H. lia.
  - apply andb_prop in H. destruct H as [_ H]. apply N.leb_le in H. lia.
Qed.

(** X14. A payload, whatever the size asked, is made of letters of the
    ASCII alphabet and of blanks: it has as many bytes as characters. *)
Theorem payload_is_ascii_text (size_kb : Z) (g : rng) :
  Forall (fun ch => is_letter_or_blank ch = true /\ (ch < 128)%N)
         (fst (generate_readable_text size_kb g)).
Proof. exact (generate_readable_text_letters size_kb g). Qed.

End Payload.

Lemma payload_size_bounds_witness :
  600 * 1 - 1 <= Z.of_nat (length (fst (generate_readable_text 1 zero_rng)))
  <= 1024 * 1.
Proof.
  exact (proj2 (payload_size_bounds 1 zero_rng ltac:(lia))).
Defined.

(* ================================================================== *)
(** * The script from the first prompt to the uploads *)

Section WholeRun.

Variable w : world.

Lemma as_completed_nothing (order : list nat) : as_completed order [] = [].
Proof.
  unfold as_completed. induction order as [|n order IH]; [reflexivity |].
  cbn [flat_map]. rewrite IH. now destruct n.
Qed.

(** X15. With a count of zero (or less) no upload is made, whatever the
    store and the order of completion, and the summary is still printed:
    it reports that number of objects as created. *)
Theorem no_object_no_upload (bucket_name retention prefix : pystr)
  (num_objects start_index : Z) (c : console) :
  num_objects <= 0 ->
  futures_of w bucket_name retention num_objects prefix start_index = []
  /\ upload_and_report w bucket_name retention num_objects prefix start_index c
     = (Ok tt,
        {| stdin := stdin c;
           stdout := stdout c ++ [summary num_objects prefix bucket_name ++ nl] |}).
Proof.
  intro Hn.
  assert (Hs : submissions bucket_name retention num_objects prefix start_index
               = ([], Ok tt)).
  { unfold submissions, range.
    replace (Z.to_nat (start_index + num_objects - start_index)) with 0%nat by lia.
    reflexivity. }
  assert (Hf : futures_of w bucket_name retention num_objects prefix start_index = []).
  { unfold futures_of. now rewrite Hs. }
  split; [exact Hf |].
  unfold upload_and_report, bind, create_objects, print, write.
  rewrite Hf, Hs, as_completed_nothing.
  cbn [snd rbind wait_results map concat stdin stdout].
  now rewrite app_nil_r.
Qed.

(** X16. On five lines that the prompts accept, the script reads exactly
    those five lines, each prompt once, and starts the uploads with what
    the lines denote: the bucket at the index entered less one, the
    retention string as entered, the count and the first index as [int]
    reads them, and the prefix as entered, whatever it is. *)
Theorem script_with_accepted_lines (buckets : list bucket) (enabled : list pystr)
  (selection retention count prefix start : pystr) (rest out : list pystr)
  (k num_objects start_index : Z) (bucket_name : pystr) :
  list_buckets (s3 w) = Ok buckets ->
  buckets <> [] ->
  check_object_lock (s3 w) buckets [] = Ok enabled ->
  int_of_str selection = Ok k ->
  getitem enabled (k - 1) = Ok bucket_name ->
  validate_date retention = Ok true ->
  isdigit count = true ->
  int_of_str count = Ok num_objects ->
  isdigit start = true ->
  int_of_str start = Ok start_index ->
  exists shown,
    script w {| stdin := selection :: retention :: count :: prefix :: start :: rest;
                stdout := out |}
    = upload_and_report w bucket_name retention num_objects prefix start_index
        {| stdin := rest;
           stdout := out ++ shown
                     ++ [select_prompt;
                         (lit "Selected bucket: " ++ bucket_name) ++ nl;
                         retention_prompt; num_objects_prompt; prefix_prompt;
                         start_index_prompt] |}.
Proof.
  intros Hlist Hne Hcheck Hsel Hget Hret Hcd Hcount Hsd Hstart.
  destruct (listing_run buckets enabled Hne) as (shown & _ & Hrun).
  exists shown.
  unfold script.
  unfold bind at 1. unfold lift at 1. rewrite Hlist.
  unfold bind at 1. unfold lift at 1. rewrite Hcheck.
  specialize (Hrun {| stdin := selection :: retention :: count :: prefix :: start :: rest;
                      stdout := out |}).
  unfold bind at 1 2. unfold bind in Hrun.
  destruct (show_buckets buckets _) as [[[]|e] c1]; [| discriminate].
  destruct (show_choices enabled c1) as [[[]|e] c2]; [| discriminate].
  injection Hrun as ->. cbn [stdin stdout].
  unfold bind at 1. rewrite select_bucket_run, Hsel. cbn [rbind]. rewrite Hget.
  unfold write. cbn [stdin stdout].
  unfold read_parameters.
  unfold bind at 1. unfold bind at 1. unfold read_retention.
  rewrite ask_run, Hret.
  unfold bind at 1. rewrite read_num_objects_run, Hcd, Hcount.
  unfold bind at 1. unfold input at 1. cbn [stdin stdout].
  unfold bind at 1. rewrite read_start_index_run, Hsd, Hstart.
  unfold ret.
  rewrite <- !app_assoc. reflexivity.
Qed.

End WholeRun.

Lemma no_object_no_upload_witness :
  upload_and_report (sample_world denying_s3 [7; 3]%nat)
    (lit "alpha") (lit "2024-12-31T00:00:00Z") 0 (lit "test-") 10 empty_console
  = (Ok tt,
     {| stdin := []; stdout := [summary 0 (lit "test-") (lit "alpha") ++ nl] |}).
Proof.
  exact (proj2 (no_object_no_upload (sample_world denying_s3 [7; 3]%nat)
                  (lit "alpha") (lit "2024-12-31T00:00:00Z") (lit "test-") 0 10
                  empty_console ltac:(lia))).
Defined.

Lemma script_with_accepted_lines_witness :
  exists shown,
    script (sample_world sample_s3 [1; 0]%nat)
      {| stdin := map lit ["2"; "2024-12-31T00:00:00Z"; "2"; ""; "10"; "left"]%string;
         stdout := [] |}
    = upload_and_report (sample_world sample_s3 [1; 0]%nat)
        (lit "gamma") (lit "2024-12-31T00:00:00Z") 2 [] 10
        {| stdin := [lit "left"];
           stdout := [] ++ shown
                     ++ [select_prompt;
                         (lit "Selected bucket: " ++ lit "gamma") ++ nl;
                         retention_prompt; num_objects_prompt; prefix_prompt;
                         start_index_prompt] |}.
Proof.
  apply (script_with_accepted_lines (sample_world sample_s3 [1; 0]%nat)
           three_buckets [lit "alpha"; lit "gamma"] (lit "2")
           (lit "2024-12-31T00:00:00Z") (lit "2") [] (lit "10") [lit "left"] []
           2 2 10 (lit "gamma"));
    try reflexivity.
  discriminate.
Defined.

(* ================================================================== *)
(** * Timestamps that [validate_date] accepts *)

Section Consuming.

Lemma consumes_eps : consumes Eps [] (fun g => g).
Proof. intros A rest g k x Hk. exact Hk. Qed.

Lemma consumes_chr (c ch : char) :
  chr_matches c ch = true -> consumes (Chr c) [ch] (fun g => g).
Proof. intros H A rest g k x Hk. cbn [run app]. now rewrite H. Qed.

Lemma consumes_dig (ch : char) :
  is_decimal ch = true -> consumes Dig [ch] (fun g => g).
Proof. intros H A rest g k x Hk. cbn [run app]. now rewrite H. Qed.

Lemma consumes_cat (r1 r2 : regex) (p1 p2 : pystr)
  (b1 b2 : groupdict -> groupdict) :
  consumes r1 p1 b1 -> consumes r2 p2 b2 ->
  consumes (Cat r1 r2) (p1 ++ p2) (fun g => b2 (b1 g)).
Proof.
  intros H1 H2 A rest g k x Hk. cbn [run]. rewrite <- app_assoc.
  apply H1. now apply H2.
Qed.

Lemma firstn_prefix {A} (p rest : list A) :
  firstn (length (p ++ rest) - length rest) (p ++ rest) = p.
Proof.
  rewrite length_app, Nat.add_sub, firstn_app, Nat.sub_diag, firstn_all.
  cbn [firstn]. apply app_nil_r.
Qed.

Lemma consumes_grp (name : ascii) (r : regex) (p : pystr) :
  consumes r p (fun g => g) ->
  consumes (Grp name r) p (fun g => (name, p) :: g).
Proof.
  intros H A rest g k x Hk. cbn [run]. apply H.
  now rewrite firstn_prefix.
Qed.

End Consuming.

Section TwoDigits.

Lemma Z_range_all (P : Z -> Prop) (lo hi : Z) :
  Forall P (range lo (hi + 1)) -> forall n, lo <= n <= hi -> P n.
Proof.
  intros H n Hn. rewrite Forall_forall in H. apply H.
  unfold range. apply in_map_iff. exists (Z.to_nat (n - lo)).
  split; [lia | apply in_seq; lia].
Qed.

(** Settles [consumes] for a field of two given digits: the expression
    is run on them, up to the continuation. *)
Ltac field_by_running :=
  apply consumes_grp; intros A rest g k x Hk;
  cbn; rewrite ?Hk; reflexivity.

Ltac every_value lo hi :=
  intros n Hn; revert n Hn; apply (Z_range_all _ lo hi);
  let l := eval vm_compute in (range lo (hi + 1)) in
  change (range lo (hi + 1)) with l;
  repeat (apply Forall_cons; [field_by_running |]);
  apply Forall_nil.

Lemma consumes_month (r : regex) (n : Z) :
  Strptime.directive "m" = Some r -> 1 <= n <= 12 ->
  consumes r (two_digits n) (fun g => ("m"%char, two_digits n) :: g).
Proof. intro E. injection E as <-. revert n. every_value 1 12. Qed.

Lemma consumes_day (r : regex) (n : Z) :
  Strptime.directive "d" = Some r -> 1 <= n <= 31 ->
  consumes r (two_digits n) (fun g => ("d"%char, two_digits n) :: g).
Proof. intro E. injection E as <-. revert n. every_value 1 31. Qed.

Lemma consumes_hour (r : regex) (n : Z) :
  Strptime.directive "H" = Some r -> 0 <= n <= 23 ->
  consumes r (two_digits n) (fun g => ("H"%char, two_digits n) :: g).
Proof. intro E. injection E as <-. revert n. every_value 0 23. Qed.

Lemma consumes_minute (r : regex) (n : Z) :
  Strptime.directive "M" = Some r -> 0 <= n <= 59 ->
  consumes r (two_digits n) (fun g => ("M"%char, two_digits n) :: g).
Proof. intro E. injection E as <-. revert n. every_value 0 59. Qed.

Lemma consumes_second (r : regex) (n : Z) :
  Strptime.directive "S" = Some r -> 0 <= n <= 59 ->
  consumes r (two_digits n) (fun g => ("S"%char, two_digits n) :: g).
Proof. intro E. injection E as <-. revert n. every_value 0 59. Qed.

End TwoDigits.

Section ReadingBack.

Lemma digit_char_decimal (d : Z) :
  0 <= d <= 9 ->
  is_decimal (digit_char d) = true /\ decimal_value (digit_char d) = Some d.
Proof.
  intro Hd. unfold digit_char.
  assert (Hlo : (48 <=? Z.to_N (48 + d))%N = true) by (apply N.leb_le; lia).
  assert (Hhi : (Z.to_N (48 + d) <? 48 + 10)%N = true) by (apply N.ltb_lt; lia).
  unfold is_decimal, decimal_value, decimal_zeros. cbn [decimal_in].
  rewrite Hlo, Hhi. cbn [andb]. split; [reflexivity |].
  f_equal. lia.
Qed.

Lemma consumes_year (r : regex) (y : Z) :
  Strptime.directive "Y" = Some r -> 0 <= y <= 9999 ->
  consumes r (four_digits y) (fun g => ("Y"%char, four_digits y) :: g).
Proof.
  intros E Hy. injection E as <-. apply consumes_grp.
  assert (H3 : 0 <= y / 1000 <= 9) by (Z.div_mod_to_equations; lia).
  assert (H2 : 0 <= y / 100 mod 10 <= 9) by (Z.div_mod_to_equations; lia).
  assert (H1 : 0 <= y / 10 mod 10 <= 9) by (Z.div_mod_to_equations; lia).
  assert (H0 : 0 <= y mod 10 <= 9) by (Z.div_mod_to_equations; lia).
  apply (consumes_cat Dig _ [_] [_; _; _]);
    [apply consumes_dig; now apply digit_char_decimal |].
  apply (consumes_cat Dig _ [_] [_; _]);
    [apply consumes_dig; now apply digit_char_decimal |].
  apply (consumes_cat Dig _ [_] [_]);
    apply consumes_dig; now apply digit_char_decimal.
Qed.

(** [int] reads digits written with zero padding. *)
Lemma int_of_digits (s : pystr) (v : Z) :
  s <> [] ->
  forallb is_decimal s = true ->
  (length s <= 4)%nat ->
  (exists n after, int_digits s false 0 0 = Some (v, n, after)) ->
  int_of_str s = Ok v.
Proof.
  intros Hne Hs Hlen (n & after & Hv).
  apply (int_of_str_decimal_value s v n after Hne Hs); [| exact Hv].
  unfold max_str_digits. lia.
Qed.

Lemma int_of_two_digits (n : Z) :
  0 <= n <= 99 -> int_of_str (two_digits n) = Ok n.
Proof.
  intro Hn.
  assert (H1 : 0 <= n / 10 <= 9) by (Z.div_mod_to_equations; lia).
  assert (H0 : 0 <= n mod 10 <= 9) by (Z.div_mod_to_equations; lia).
  destruct (digit_char_decimal _ H1) as [D1 V1].
  destruct (digit_char_decimal _ H0) as [D0 V0].
  destruct (decimal_is_plain _ D1) as (_ & _ & _ & U1).
  destruct (decimal_is_plain _ D0) as (_ & _ & _ & U0).
  apply int_of_digits; [discriminate | | cbn; lia |].
  - cbn [two_digits forallb]. now rewrite D1, D0.
  - unfold two_digits. cbn [int_digits]. rewrite U1, V1, U0, V0.
    do 2 eexists. do 3 f_equal. Z.div_mod_to_equations. lia.
Qed.

Lemma int_of_four_digits (y : Z) :
  0 <= y <= 9999 -> int_of_str (four_digits y) = Ok y.
Proof.
  intro Hy.
  assert (H3 : 0 <= y / 1000 <= 9) by (Z.div_mod_to_equations; lia).
  assert (H2 : 0 <= y / 100 mod 10 <= 9) by (Z.div_mod_to_equations; lia).
  assert (H1 : 0 <= y / 10 mod 10 <= 9) by (Z.div_mod_to_equations; lia).
  assert (H0 : 0 <= y mod 10 <= 9) by (Z.div_mod_to_equations; lia).
  destruct (digit_char_decimal _ H3) as [D3 V3].
  destruct (digit_char_decimal _ H2) as [D2 V2].
  destruct (digit_char_decimal _ H1) as [D1 V1].
  destruct (digit_char_decimal _ H0) as [D0 V0].
  destruct (decimal_is_plain _ D3) as (_ & _ & _ & U3).
  destruct (decimal_is_plain _ D2) as (_ & _ & _ & U2).
  destruct (decimal_is_plain _ D1) as (_ & _ & _ & U1).
  destruct (decimal_is_plain _ D0) as (_ & _ & _ & U0).
  apply int_of_digits; [discriminate | | cbn; lia |].
  - cbn [four_digits forallb]. now rewrite D3, D2, D1, D0.
  - unfold four_digits. cbn [int_digits].
    rewrite U3, V3, U2, V2, U1, V1, U0, V0.
    do 2 eexists. do 3 f_equal. Z.div_mod_to_equations. lia.
Qed.

Lemma check_date_fields_ok (y mo d : Z) :
  1 <= y <= 9999 -> 1 <= mo <= 12 -> 1 <= d <= Strptime.days_in_month y mo ->
  Strptime.check_date_fields y mo d = Ok tt.
Proof.
  intros Hy Hmo Hd. unfold Strptime.check_date_fields.
  repeat match goal with
         | |- context [(?a <=? ?b)] => destruct (Z.leb_spec a b); [| lia]
         end.
  reflexivity.
Qed.

Lemma check_time_fields_ok (h mi s : Z) :
  0 <= h <= 23 -> 0 <= mi <= 59 -> 0 <= s <= 59 ->
  Strptime.check_time_fields h mi s = Ok tt.
Proof.
  intros Hh Hmi Hs. unfold Strptime.check_time_fields.
  repeat match goal with
         | |- context [(?a <=? ?b)] => destruct (Z.leb_spec a b); [| lia]
         end.
  reflexivity.
Qed.

Lemma days_in_month_bound (y mo : Z) : Strptime.days_in_month y mo <= 31.
Proof.
  unfold Strptime.days_in_month.
  repeat match goal with
         | |- context [if ?b then _ else _] => destruct b
         end; lia.
Qed.

(** X17. A timestamp of the calendar (years 1 to 9999), written
    YYYY-MM-DDTHH:MM:SSZ with zero padding, is read back by
    [datetime.strptime] as that very timestamp: [validate_date] accepts
    it, and the prompt of the retention date returns it at once. *)
Theorem padded_timestamp_is_accepted (dt : Strptime.datetime)
  (rest out : list pystr) :
  valid_datetime dt ->
  strict_iso (iso_text dt) = true
  /\ Strptime.strptime (iso_text dt) "%Y-%m-%dT%H:%M:%SZ" = Ok dt
  /\ validate_date (iso_text dt) = Ok true
  /\ read_retention {| stdin := iso_text dt :: rest; stdout := out |}
     = (Ok (iso_text dt), {| stdin := rest; stdout := out ++ [retention_prompt] |}).
Proof.
  destruct dt as [y mo d h mi s]. unfold valid_datetime.
  cbn [Strptime.year Strptime.month Strptime.day Strptime.hour Strptime.minute
       Strptime.second].
  intros (Hy & Hmo & Hd & Hh & Hmi & Hs).
  pose proof (days_in_month_bound y mo) as Hdim.
  assert (Hparse : Strptime.strptime
                     (iso_text {| Strptime.year := y; Strptime.month := mo;
                                  Strptime.day := d; Strptime.hour := h;
                                  Strptime.minute := mi; Strptime.second := s |})
                     "%Y-%m-%dT%H:%M:%SZ"
                   = Ok {| Strptime.year := y; Strptime.month := mo;
                           Strptime.day := d; Strptime.hour := h;
                           Strptime.minute := mi; Strptime.second := s |}).
  { unfold Strptime.strptime, Strptime._strptime.
    destruct (Strptime.pattern _) as [re|] eqn:P; [| discriminate P].
    vm_compute in P. injection P as <-.
    assert (Hmatch : exists bound,
      consumes
        (Cat (Grp "Y" (Cat Dig (Cat Dig (Cat Dig Dig))))
          (Cat (Chr 45%N)
            (Cat (Grp "m" (Alt (Cat (Chr 49%N) (Rng 48%N 50%N))
                          (Alt (Cat (Chr 48%N) (Rng 49%N 57%N)) (Rng 49%N 57%N))))
              (Cat (Chr 45%N)
                (Cat (Grp "d" (Alt (Cat (Chr 51%N) (Rng 48%N 49%N))
                              (Alt (Cat (Rng 49%N 50%N) Dig)
                              (Alt (Cat (Chr 48%N) (Rng 49%N 57%N))
                              (Alt (Rng 49%N 57%N)
                                   (Cat (Chr 32%N) (Rng 49%N 57%N)))))))
                  (Cat (Chr 84%N)
                    (Cat (Grp "H" (Alt (Cat (Chr 50%N) (Rng 48%N 51%N))
                                  (Alt (Cat (Rng 48%N 49%N) Dig) Dig)))
                      (Cat (Chr 58%N)
                        (Cat (Grp "M" (Alt (Cat (Rng 48%N 53%N) Dig) Dig))
                          (Cat (Chr 58%N)
                            (Cat (Grp "S" (Alt (Cat (Chr 54%N) (Rng 48%N 49%N))
                                          (Alt (Cat (Rng 48%N 53%N) Dig) Dig)))
                              (Cat (Chr 90%N) Eps))))))))))))
        (four_digits y ++ [45%N] ++ two_digits mo ++ [45%N] ++ two_digits d
         ++ [84%N] ++ two_digits h ++ [58%N] ++ two_digits mi ++ [58%N]
         ++ two_digits s ++ [90%N] ++ [])
        bound
      /\ bound [] = [("S"%char, two_digits s); ("M"%char, two_digits mi);
                     ("H"%char, two_digits h); ("d"%char, two_digits d);
                     ("m"%char, two_digits mo); ("Y"%char, four_digits y)]).
    { eexists. split.
      - eapply consumes_cat; [apply (consumes_year _ y eq_refl); lia |].
        eapply consumes_cat; [now apply consumes_chr |].
        eapply consumes_cat; [apply (consumes_month _ mo eq_refl); lia |].
        eapply consumes_cat; [now apply consumes_chr |].
        eapply consumes_cat; [apply (consumes_day _ d eq_refl); lia |].
        eapply consumes_cat; [now apply consumes_chr |].
        eapply consumes_cat; [apply (consumes_hour _ h eq_refl); lia |].
        eapply consumes_cat; [now apply consumes_chr |].
        eapply consumes_cat; [apply (consumes_minute _ mi eq_refl); lia |].
        eapply consumes_cat; [now apply consumes_chr |].
        eapply consumes_cat; [apply (consumes_second _ s eq_refl); lia |].
        eapply consumes_cat; [now apply consumes_chr | apply consumes_eps].
      - reflexivity. }
    destruct Hmatch as (bound & Hmatch & Hbound).
    match goal with
    | |- context [re_match ?r ?t] =>
        assert (Hre : re_match r t = Some ([], bound []))
    end.
    { unfold re_match.
      replace (iso_text _)
        with ((four_digits y ++ [45%N] ++ two_digits mo ++ [45%N] ++ two_digits d
               ++ [84%N] ++ two_digits h ++ [58%N] ++ two_digits mi ++ [58%N]
               ++ two_digits s ++ [90%N] ++ []) ++ [])
        by (rewrite !app_nil_r; reflexivity).
      now apply Hmatch. }
    rewrite Hre, Hbound.
    unfold Strptime.field. cbn [lookup Ascii.eqb Bool.eqb].
    rewrite (int_of_four_digits y) by lia.
    rewrite !int_of_two_digits by lia.
    cbn [rbind]. rewrite (check_date_fields_ok y mo d) by lia.
    cbn [rbind]. unfold Strptime.mk_datetime.
    rewrite (check_date_fields_ok y mo d), (check_time_fields_ok h mi s) by lia.
    reflexivity. }
  assert (Hvalid : validate_date
                     (iso_text {| Strptime.year := y; Strptime.month := mo;
                                  Strptime.day := d; Strptime.hour := h;
                                  Strptime.minute := mi; Strptime.second := s |})
                   = Ok true)
    by (unfold validate_date; now rewrite Hparse).
  split; [| split; [exact Hparse | split; [exact Hvalid |]]].
  - unfold strict_iso, iso_text, four_digits, two_digits.
    cbn [Strptime.year Strptime.month Strptime.day Strptime.hour
         Strptime.minute Strptime.second].
    assert (Hdig : forall x, 0 <= x <= 9 -> is_ascii_digit (digit_char x) = true)
      by (intros x Hx; unfold is_ascii_digit, digit_char;
          apply andb_true_intro; split; apply N.leb_le; lia).
    cbn [fits iso_slots app lit map list_ascii_of_string].
    rewrite !Hdig by (Z.div_mod_to_equations; lia).
    reflexivity.
  - unfold read_retention. rewrite ask_run, Hvalid. reflexivity.
Qed.

End ReadingBack.

Lemma padded_timestamp_is_accepted_witness :
  validate_date (lit "2024-02-29T23:59:59Z") = Ok true.
Proof.
  refine (proj1 (proj2 (proj2 (padded_timestamp_is_accepted
            {| Strptime.year := 2024; Strptime.month := 2; Strptime.day := 29;
               Strptime.hour := 23; Strptime.minute := 59; Strptime.second := 59 |}
            [] [] _)))).
  unfold valid_datetime. cbn. lia.
Defined.

(* ================================================================== *)
(** * The objects of a run *)

Section Objects.

Variable w : world.
Variables bucket_name retention prefix : pystr.
Variables num_objects start_index : Z.


End Objects.

(* ================================================================== *)
(** * Timestamps that [validate_date] rejects *)

Section Groups.

(** What the matcher accepts is in the language of the expression, and
    the groups are those the language binds. *)
Lemma run_sound_groups {A} (r : regex) :
  forall (s : pystr) (g : groupdict) (k : pystr -> groupdict -> option A) (a : A),
    run r s g k = Some a ->
    exists s1 s2 g', s = s1 ++ s2 /\ langg r s1 g g' /\ k s2 g' = Some a.
Proof.
  induction r as [| c | lo hi | | r1 IH1 r2 IH2 | r1 IH1 r2 IH2 | name r1 IH1];
    intros s g k a H; cbn [run] in H.
  - exists [], s, g. cbn. auto.
  - destruct s as [|ch s']; [discriminate |].
    destruct (chr_matches c ch) eqn:E; [| discriminate].
    exists [ch], s', g. cbn. repeat split; eauto.
  - destruct s as [|ch s']; [discriminate |].
    destruct (rng_matches lo hi ch) eqn:E; [| discriminate].
    exists [ch], s', g. cbn. repeat split; eauto.
  - destruct s as [|ch s']; [discriminate |].
    destruct (is_decimal ch) eqn:E; [| discriminate].
    exists [ch], s', g. cbn. repeat split; eauto.
  - apply IH1 in H. destruct H as (s1 & s2 & g1 & -> & L1 & H).
    apply IH2 in H. destruct H as (s3 & s4 & g2 & -> & L2 & H).
    exists (s1 ++ s3), s4, g2. rewrite app_assoc. repeat split; auto.
    exists s1, s3, g1. auto.
  - destruct (run r1 s g k) as [a'|] eqn:E.
    + injection H as ->. apply IH1 in E.
      destruct E as (s1 & s2 & g' & -> & L & Hk).
      exists s1, s2, g'. repeat split; auto. now left.
    + apply IH2 in H. destruct H as (s1 & s2 & g' & -> & L & Hk).
      exists s1, s2, g'. repeat split; auto. now right.
  - apply IH1 in H. destruct H as (s1 & s2 & g' & -> & L & Hk).
    rewrite firstn_prefix in Hk.
    exists s1, s2, ((name, s1) :: g'). repeat split; auto.
    exists g'. auto.
Qed.

Lemma langg_lang (r : regex) :
  forall s g g', langg r s g g' -> lang r s.
Proof.
  induction r as [| c | lo hi | | r1 IH1 r2 IH2 | r1 IH1 r2 IH2 | name r1 IH1];
    intros s g g' H; cbn [langg lang] in *.
  - tauto.
  - tauto.
  - tauto.
  - tauto.
  - destruct H as (s1 & s2 & g1 & -> & H1 & H2).
    exists s1, s2. eauto.
  - destruct H as [H | H]; eauto.
  - destruct H as (g1 & H & _). eauto.
Qed.

Ltac langg_inv :=
  unfold Strptime.dig19 in *;
  repeat match goal with
         | H : langg _ _ _ _ |- _ => progress cbn [langg] in H
         | H : exists _, _ |- _ => destruct H
         | H : _ /\ _ |- _ => destruct H
         | H : _ \/ _ |- _ => destruct H
         end;
  subst.

(** A directive binds one group, of its own name, to the text it has
    matched. *)
Lemma langg_directive (d : ascii) (r : regex) (s : pystr) (g g' : groupdict) :
  Strptime.directive d = Some r ->
  langg r s g g' ->
  g' = (d, s) :: g /\ lang r s.
Proof.
  intros E L. split; [| now apply langg_lang in L].
  unfold Strptime.directive in E.
  repeat match type of E with
         | (if Ascii.eqb d ?a then _ else _) = _ =>
             destruct (Ascii.eqb_spec d a);
             [subst d; injection E as <-; langg_inv; reflexivity |]
         end.
  discriminate E.
Qed.

End Groups.


Section Rejected.

Lemma digit_char_range (d : Z) :
  0 <= d <= 9 -> (48 <= digit_char d <= 57)%N.
Proof. unfold digit_char. lia. Qed.

Lemma check_date_fields_inv (y mo d : Z) :
  Strptime.check_date_fields y mo d = Ok tt ->
  1 <= y <= 9999 /\ 1 <= mo <= 12 /\ 1 <= d <= Strptime.days_in_month y mo.
Proof.
  unfold Strptime.check_date_fields.
  repeat match goal with
         | |- context [(?a <=? ?b)] => destruct (Z.leb_spec a b)
         end; cbn; try discriminate; intros _; lia.
Qed.

Lemma check_time_fields_inv (h mi s : Z) :
  Strptime.check_time_fields h mi s = Ok tt ->
  0 <= h <= 23 /\ 0 <= mi <= 59 /\ 0 <= s <= 59.
Proof.
  unfold Strptime.check_time_fields.
  repeat match goal with
         | |- context [(?a <=? ?b)] => destruct (Z.leb_spec a b)
         end; cbn; try discriminate; intros _; lia.
Qed.

(** A field of one or two characters that is followed by a separator,
    read off a text where two digits stand before the separator, is the
    two digits. *)
Lemma field_is_two_digits (f after : pystr) (a b sep ch : char) (tail : pystr) :
  (length f = 1 \/ length f = 2)%nat ->
  a :: b :: sep :: tail = f ++ ch :: after ->
  (48 <= b <= 57)%N ->
  (ch < 48 \/ 57 < ch)%N ->
  f = [a; b] /\ sep = ch /\ tail = after.
Proof.
  intros Hlen Heq Hb Hch.
  destruct f as [|x [|y [|z f']]]; cbn [length] in Hlen; try lia.
  - cbn [app] in Heq. injection Heq as -> -> _. lia.
  - cbn [app] in Heq. injection Heq as -> -> -> ->. auto.
Qed.

Lemma digits12_length (f : pystr) :
  digits12 f = true -> (length f = 1 \/ length f = 2)%nat.
Proof.
  destruct f as [|x [|y [|z f']]]; cbn; intro H; try discriminate; auto.
Qed.

Lemma day_text_length (f : pystr) :
  day_text f = true -> (length f = 1 \/ length f = 2)%nat.
Proof.
  destruct f as [|x [|y [|z f']]]; cbn; intro H; try discriminate; auto.
Qed.

Lemma digits4_length (f : pystr) : digits4 f = true -> length f = 4%nat.
Proof.
  destruct f as [|x [|y [|z [|t [|u f']]]]]; cbn; intro H;
    try discriminate; auto.
Qed.

Lemma chr_not_digit (c ch : char) :
  (c < 48 \/ 57 < c)%N ->
  chr_matches c ch = true -> (ch < 48 \/ 57 < ch)%N.
Proof.
  intros Hc H. apply chr_cases in H. destruct H as [-> | ->]; [exact Hc |].
  unfold swapcase.
  destruct ((65 <=? c) && (c <=? 90))%N eqn:U.
  - apply andb_prop in U. destruct U as [U1 _]. apply N.leb_le in U1. lia.
  - destruct ((97 <=? c) && (c <=? 122))%N eqn:L; [| exact Hc].
    apply andb_prop in L. destruct L as [L1 L2].
    apply N.leb_le in L1. apply N.leb_le in L2. lia.
Qed.

(** The groups [validate_date] gets from a padded timestamp are its
    fields, as written. *)
Lemma padded_groups (y mo d h mi s : Z) (gd : groupdict) (re : regex) :
  0 <= y <= 9999 -> 0 <= mo <= 99 -> 0 <= d <= 99 ->
  0 <= h <= 99 -> 0 <= mi <= 99 -> 0 <= s <= 99 ->
  Strptime.pattern (list_ascii_of_string "%Y-%m-%dT%H:%M:%SZ") = Some re ->
  re_match re
    (iso_text {| Strptime.year := y; Strptime.month := mo; Strptime.day := d;
                 Strptime.hour := h; Strptime.minute := mi; Strptime.second := s |})
  = Some ([], gd) ->
  gd = [("S"%char, two_digits s); ("M"%char, two_digits mi);
        ("H"%char, two_digits h); ("d"%char, two_digits d);
        ("m"%char, two_digits mo); ("Y"%char, four_digits y)].
Proof.
  intros Hy Hmo Hd Hh Hmi Hs P R.
  vm_compute in P. injection P as <-.
  unfold re_match in R. apply run_sound_groups in R.
  destruct R as (s1 & s2 & g' & Htext & L & Hk).
  injection Hk as -> ->. rewrite app_nil_r in Htext. subst s1.
  destruct L as (fY & r1 & g1 & Ht & LY & L).
  destruct L as (c1 & r2 & g2 & -> & [(ch1 & -> & Hc1) ->] & L).
  destruct L as (fM & r3 & g3 & -> & LM & L).
  destruct L as (c2 & r4 & g4 & -> & [(ch2 & -> & Hc2) ->] & L).
  destruct L as (fD & r5 & g5 & -> & LD & L).
  destruct L as (c3 & r6 & g6 & -> & [(ch3 & -> & Hc3) ->] & L).
  destruct L as (fH & r7 & g7 & -> & LH & L).
  destruct L as (c4 & r8 & g8 & -> & [(ch4 & -> & Hc4) ->] & L).
  destruct L as (fMi & r9 & g9 & -> & LMi & L).
  destruct L as (c5 & r10 & g10 & -> & [(ch5 & -> & Hc5) ->] & L).
  destruct L as (fS & r11 & g11 & -> & LS & L).
  destruct L as (c6 & r12 & g12 & -> & [(ch6 & -> & Hc6) ->] & [-> ->]).
  apply (langg_directive "Y" _ _ _ _ eq_refl) in LY. destruct LY as [-> LY].
  apply (langg_directive "m" _ _ _ _ eq_refl) in LM. destruct LM as [-> LM].
  apply (langg_directive "d" _ _ _ _ eq_refl) in LD. destruct LD as [-> LD].
  apply (langg_directive "H" _ _ _ _ eq_refl) in LH. destruct LH as [-> LH].
  apply (langg_directive "M" _ _ _ _ eq_refl) in LMi. destruct LMi as [-> LMi].
  apply (langg_directive "S" _ _ _ _ eq_refl) in LS. destruct LS as [-> LS].
  apply (lang_year _ _ eq_refl) in LY. apply digits4_length in LY.
  apply (lang_month _ _ eq_refl) in LM. apply digits12_length in LM.
  apply (lang_day _ _ eq_refl) in LD. apply day_text_length in LD.
  apply (lang_hour _ _ eq_refl) in LH. apply digits12_length in LH.
  apply (lang_minute _ _ eq_refl) in LMi. apply digits12_length in LMi.
  apply (lang_second _ _ eq_refl) in LS. apply digits12_length in LS.
  apply (chr_not_digit 45%N) in Hc1; [| lia].
  apply (chr_not_digit 45%N) in Hc2; [| lia].
  apply (chr_not_digit 84%N) in Hc3; [| lia].
  apply (chr_not_digit 58%N) in Hc4; [| lia].
  apply (chr_not_digit 58%N) in Hc5; [| lia].
  apply (chr_not_digit 90%N) in Hc6; [| lia].
  unfold iso_text in Ht.
  cbn [Strptime.year Strptime.month Strptime.day Strptime.hour Strptime.minute
       Strptime.second] in Ht.
  change (lit "-") with [45%N] in Ht. change (lit "T") with [84%N] in Ht.
  change (lit ":") with [58%N] in Ht. change (lit "Z") with [90%N] in Ht.
  assert (Rmo : (48 <= digit_char (mo mod 10) <= 57)%N)
    by (apply digit_char_range; Z.div_mod_to_equations; lia).
  assert (Rd : (48 <= digit_char (d mod 10) <= 57)%N)
    by (apply digit_char_range; Z.div_mod_to_equations; lia).
  assert (Rh : (48 <= digit_char (h mod 10) <= 57)%N)
    by (apply digit_char_range; Z.div_mod_to_equations; lia).
  assert (Rmi : (48 <= digit_char (mi mod 10) <= 57)%N)
    by (apply digit_char_range; Z.div_mod_to_equations; lia).
  assert (Rs : (48 <= digit_char (s mod 10) <= 57)%N)
    by (apply digit_char_range; Z.div_mod_to_equations; lia).
  destruct fY as [|y3 [|y2 [|y1 [|y0 [|? ?]]]]]; try discriminate LY.
  unfold four_digits at 1 in Ht. unfold two_digits at 1 2 3 4 5 in Ht.
  cbn [app] in Ht. injection Ht as <- <- <- <- <- Ht.
  apply field_is_two_digits in Ht; [| assumption ..].
  destruct Ht as (-> & <- & Ht).
  apply field_is_two_digits in Ht; [| assumption ..].
  destruct Ht as (-> & <- & Ht).
  apply field_is_two_digits in Ht; [| assumption ..].
  destruct Ht as (-> & <- & Ht).
  apply field_is_two_digits in Ht; [| assumption ..].
  destruct Ht as (-> & <- & Ht).
  replace (@nil char) with (@nil char ++ []) in Ht at 1 by reflexivity.
  destruct fS as [|x [|x0 [|? ?]]]; cbn [length] in LS; try lia;
    cbn [app] in Ht; try discriminate Ht.
  injection Ht as <- <- _. reflexivity.
Qed.

Lemma accepted_padded_is_valid (dt : Strptime.datetime) :
  paddable dt -> validate_date (iso_text dt) = Ok true -> valid_datetime dt.
Proof.
  destruct dt as [y mo d h mi s]. unfold paddable, valid_datetime.
  cbn [Strptime.year Strptime.month Strptime.day Strptime.hour Strptime.minute
       Strptime.second].
  intros (Hy & Hmo & Hd & Hh & Hmi & Hs) H.
  unfold validate_date in H.
  destruct (Strptime.strptime _ _) as [dt0|e] eqn:E;
    [| destruct e; discriminate].
  clear H. unfold Strptime.strptime in E.
  destruct (Strptime._strptime _ _) as [[[[[[y0 mo0] d0] h0] mi0] s0]|e] eqn:E2;
    [| discriminate].
  cbn [rbind] in E. unfold Strptime._strptime in E2.
  destruct (Strptime.pattern _) as [re|] eqn:P; [| discriminate].
  destruct (re_match re _) as [[[|? ?] gd]|] eqn:R; try discriminate.
  rewrite (padded_groups y mo d h mi s gd re Hy Hmo Hd Hh Hmi Hs P R) in E2.
  unfold Strptime.field in E2. cbn [lookup Ascii.eqb Bool.eqb] in E2.
  rewrite (int_of_four_digits y) in E2 by lia.
  rewrite !int_of_two_digits in E2 by lia.
  cbn [rbind] in E2.
  destruct (Strptime.check_date_fields y mo d) as [[]|] eqn:Hdate;
    [| discriminate].
  cbn [rbind] in E2. injection E2 as <- <- <- <- <- <-.
  unfold Strptime.mk_datetime in E. rewrite Hdate in E. cbn [rbind] in E.
  destruct (Strptime.check_time_fields h mi s) as [[]|] eqn:Htime;
    [| discriminate].
  apply check_date_fields_inv in Hdate. apply check_time_fields_inv in Htime.
  tauto.
Qed.

(** X19. A timestamp written YYYY-MM-DDTHH:MM:SSZ with zero padding that
    is not of the calendar (year 0, month 13, 30 February, hour 24,
    second 60, ...) is rejected by [validate_date]: the prompt of the
    retention date complains and asks again.  Such a text is accepted only
    when it is a date of the calendar with a time of the day. *)
Theorem unreal_timestamp_is_rejected (dt : Strptime.datetime)
  (rest out : list pystr) :
  paddable dt ->
  ~ valid_datetime dt ->
  validate_date (iso_text dt) = Ok false
  /\ read_retention {| stdin := iso_text dt :: rest; stdout := out |}
     = read_retention
         {| stdin := rest;
            stdout := (out ++ [retention_prompt]) ++ [retention_complaint ++ nl] |}.
Proof.
  intros Hpad Hnot.
  assert (Hrej : validate_date (iso_text dt) = Ok false).
  { destruct (validate_date_total (iso_text dt)) as [H | H]; [| exact H].
    elim Hnot. now apply accepted_padded_is_valid. }
  split; [exact Hrej |].
  unfold read_retention. rewrite ask_run, Hrej. reflexivity.
Qed.

End Rejected.

Lemma unreal_timestamp_is_rejected_witness :
  validate_date (lit "2023-02-29T00:00:60Z") = Ok false.
Proof.
  refine (proj1 (unreal_timestamp_is_rejected
            {| Strptime.year := 2023; Strptime.month := 2; Strptime.day := 29;
               Strptime.hour := 0; Strptime.minute := 0; Strptime.second := 60 |}
            [] [] _ _)).
  - unfold paddable. cbn. lia.
  - unfold valid_datetime. cbn. lia.
Defined.
